(** * The travel-assistant chat widget: conversation and polling state machine

    A shallow embedding of the React components of the repository
    ([App] of the contact-form widget, and the two [App]s of
    [frontend/travel-widget/src/App.js]) and the properties of their
    submit-then-poll protocol.

    A component is modelled by the record of its [useState] cells and
    [useRef] cells, together with the part of the host it talks to: the
    table of active [setInterval] registrations and the HTTP requests that
    have been issued and not yet settled.  A handler is a script of
    primitive effects written in a small writer/exception monad; the host
    executes a script effect by effect.  An [async] function is cut at each
    [await]: the part before it issues the request, the part after it is
    run when the request settles.

    State setters are applied in the order of the calls; with React's
    batching the state committed after a handler is the state after its
    whole script.  A handler reads the state of the render that created it:
    a handler run by a user event is the one of the current render, a
    continuation and an interval callback keep what their render had (only
    [userInfo] is read that way).  [console] calls and the scrolling effect
    do not touch the state and are left out; the model covers the component
    from its mount effect on, while it is mounted. *)

From Stdlib Require Import Ascii String DecimalString.
From Stdlib Require Import List NArith Bool Lia Arith.
Import ListNotations.

(** ** JavaScript strings *)

Module Js.

(** A string is its sequence of UTF-16 code units. *)
Definition str := list N.

(** An ASCII literal of the source. *)
Definition lit (s : String.string) : str :=
  map N_of_ascii (list_ascii_of_string s).

(** [a === b] on strings. *)
Fixpoint eqb (a b : str) : bool :=
  match a, b with
  | [], [] => true
  | x :: a', y :: b' => N.eqb x y && eqb a' b'
  | _, _ => false
  end.

(** ECMAScript WhiteSpace and LineTerminator code points, the ones
    [String.prototype.trim] removes. *)
Definition isWhiteSpace (c : N) : bool :=
  match c with
  | 9 | 10 | 11 | 12 | 13 | 32 | 160 | 5760
  | 8192 | 8193 | 8194 | 8195 | 8196 | 8197 | 8198 | 8199 | 8200
  | 8201 | 8202 | 8232 | 8233 | 8239 | 8287 | 12288 | 65279 => true
  | _ => false
  end%N.

Fixpoint trimStart (s : str) : str :=
  match s with
  | c :: s' => if isWhiteSpace c then trimStart s' else s
  | [] => []
  end.

Definition trimEnd (s : str) : str := rev (trimStart (rev s)).

Definition trim (s : str) : str := trimEnd (trimStart s).

(** Truthiness of a string: the empty string is falsy. *)
Definition truthy (s : str) : bool :=
  match s with [] => false | _ :: _ => true end.

(** Truthiness of a value that is a string, [null] or [undefined]. *)
Definition truthy_opt (v : option str) : bool :=
  match v with Some s => truthy s | None => false end.

(** [v || d] for such a value. *)
Definition or_else (v : option str) (d : str) : str :=
  match v with
  | Some s => if truthy s then s else d
  | None => d
  end.

(** [`${n}`] for a non-negative integer. *)
Definition of_N (n : N) : str := lit (NilEmpty.string_of_uint (N.to_uint n)).

(** [s.includes(t)]. *)
Fixpoint startsWith (s t : str) {struct t} : bool :=
  match t, s with
  | [], _ => true
  | y :: t', x :: s' => N.eqb x y && startsWith s' t'
  | _ :: _, [] => false
  end.

Fixpoint includes (s t : str) : bool :=
  startsWith s t ||
  match s with
  | [] => false
  | _ :: s' => includes s' t
  end.

(** [prev.slice(0, -1)]: every element but the last; empty on the empty
    array. *)
Definition slice_0_m1 {A} (l : list A) : list A := removelast l.

End Js.

Definition jsstring : Type := Js.str.

(** ** Transcript entries *)

Inductive sender := user | bot.

(** A message object [{type, text, isLoading, isError}].  [text] is [None]
    when the property holds [undefined]; the two flags are only ever tested
    for truthiness, so a missing flag is [false].  The [isLoading] property
    of a message is [msgIsLoading] here, [isLoading] being the state
    variable of the component. *)
Record Message := mkMessage {
  type : sender;
  text : option jsstring;
  msgIsLoading : bool;
  isError : bool
}.

Definition plain (t : sender) (s : jsstring) : Message :=
  {| type := t; text := Some s; msgIsLoading := false; isError := false |}.

Definition error_message (s : jsstring) : Message :=
  {| type := bot; text := Some s; msgIsLoading := false; isError := true |}.

(** The two functional updaters the components pass to [setMessages], and
    the plain value the mount effect passes. *)
Inductive updater :=
| Append (ms : list Message)          (* prev => [...prev, m1, ..., mk] *)
| ReplaceLast (m : Message)           (* prev => [...prev.slice(0, -1), m] *)
| Value (ms : list Message).          (* a new array *)

Definition apply_updater (u : updater) (prev : list Message) : list Message :=
  match u with
  | Append ms => prev ++ ms
  | ReplaceLast m => Js.slice_0_m1 prev ++ [m]
  | Value ms => ms
  end.

(** ** Wire data *)

(** [{name, email}] of the contact form. *)
Record ContactInfo := { name : jsstring; email : jsstring }.

(** Body of [POST {base}/chat]. *)
Record ChatRequest := { message : option jsstring; thread_id : option jsstring }.

(** [response.data] of a fulfilled POST. *)
Record ChatResponse := { task_id : option jsstring; data_reply : option jsstring }.

(** [result] of a status response. *)
Record TaskResult := { reply : option jsstring; error : option jsstring }.

(** [response.data] of a fulfilled [GET {base}/chat/status/{task_id}]. *)
Record StatusResponse := {
  status : jsstring;
  result : option TaskResult;
  form_to_display : option jsstring
}.

(** What a [catch] clause can receive.  An axios error carries [code],
    [message] and, when the server answered, [response] with its status and
    [data.detail]. *)
Record ErrorResponse := { err_status : N; detail : option jsstring }.

Inductive exn :=
| AxiosError (code : option jsstring) (msg : jsstring)
             (response : option ErrorResponse)
| Error (msg : jsstring)
| TypeError.

Definition exn_response (e : exn) : option ErrorResponse :=
  match e with AxiosError _ _ r => r | _ => None end.

Definition exn_code (e : exn) : option jsstring :=
  match e with AxiosError c _ _ => c | _ => None end.

Definition exn_message (e : exn) : jsstring :=
  match e with
  | AxiosError _ m _ => m
  | Error m => m
  | TypeError => []
  end.

(** [error.response?.data?.detail] *)
Definition exn_detail (e : exn) : option jsstring :=
  match exn_response e with Some r => detail r | None => None end.

(** How an awaited request settles. *)
Definition settled (A : Type) := (exn + A)%type.

(** ** Component state and host *)

(** An active [setInterval] registration.  Its callback was created by
    [pollForResult], so it closes over the task id and over the [userInfo]
    of the render whose handler started the poll. *)
Record Interval := {
  handle : N;
  iv_task : jsstring;
  iv_userInfo : option ContactInfo
}.

(** A POST that has been issued; its continuation closes over the same
    render. *)
Record PendingPost := {
  post_body : ChatRequest;
  post_userInfo : option ContactInfo
}.

(** A status GET that has been issued by an interval callback. *)
Record PendingGet := {
  get_task : jsstring;
  get_userInfo : option ContactInfo
}.

Record App := mkApp {
  (* useState *)
  messages : list Message;
  inputValue : jsstring;
  isLoading : bool;
  threadId : option jsstring;
  suggestedReplies : list jsstring;
  showContactForm : bool;
  userInfo : option ContactInfo;
  (* useRef *)
  pollingIntervalRef : option N;
  (* host *)
  intervals : list Interval;
  nextHandle : N;
  posts : list PendingPost;
  gets : list PendingGet
}.

(** ** Primitive effects *)

Inductive act :=
| SetMessages (u : updater)
| SetInputValue (v : jsstring)
| SetIsLoading (b : bool)
| SetThreadId (v : jsstring)
| SetSuggestedReplies (l : list jsstring)
| SetShowContactForm (b : bool)
| SetUserInfo (d : ContactInfo)
| ClearPollingInterval                 (* clearInterval(pollingIntervalRef.current) *)
| IfPollingIntervalRef (a : act)       (* if (pollingIntervalRef.current) a *)
| SetPollingInterval (taskId : jsstring) (env : option ContactInfo)
                                       (* pollingIntervalRef.current = setInterval(cb, 2500) *)
| AxiosPost (body : ChatRequest) (env : option ContactInfo)
| AxiosGet (taskId : jsstring) (env : option ContactInfo).

(** [clearInterval(h)]: the registration with that handle, if any, is
    removed; [clearInterval(null)] does nothing. *)
Definition clearInterval (h : option N) (l : list Interval) : list Interval :=
  match h with
  | Some n => filter (fun i => negb (N.eqb (handle i) n)) l
  | None => l
  end.

(** Truthiness of a ref holding [null] or a timer handle. *)
Definition ref_truthy (r : option N) : bool :=
  match r with Some n => negb (N.eqb n 0) | None => false end.

Fixpoint exec (a : act) (w : App) : App :=
  match a with
  | SetMessages u =>
      mkApp (apply_updater u (messages w)) (inputValue w) (isLoading w)
            (threadId w) (suggestedReplies w) (showContactForm w) (userInfo w)
            (pollingIntervalRef w) (intervals w) (nextHandle w) (posts w) (gets w)
  | SetInputValue v =>
      mkApp (messages w) v (isLoading w)
            (threadId w) (suggestedReplies w) (showContactForm w) (userInfo w)
            (pollingIntervalRef w) (intervals w) (nextHandle w) (posts w) (gets w)
  | SetIsLoading b =>
      mkApp (messages w) (inputValue w) b
            (threadId w) (suggestedReplies w) (showContactForm w) (userInfo w)
            (pollingIntervalRef w) (intervals w) (nextHandle w) (posts w) (gets w)
  | SetThreadId v =>
      mkApp (messages w) (inputValue w) (isLoading w)
            (Some v) (suggestedReplies w) (showContactForm w) (userInfo w)
            (pollingIntervalRef w) (intervals w) (nextHandle w) (posts w) (gets w)
  | SetSuggestedReplies l =>
      mkApp (messages w) (inputValue w) (isLoading w)
            (threadId w) l (showContactForm w) (userInfo w)
            (pollingIntervalRef w) (intervals w) (nextHandle w) (posts w) (gets w)
  | SetShowContactForm b =>
      mkApp (messages w) (inputValue w) (isLoading w)
            (threadId w) (suggestedReplies w) b (userInfo w)
            (pollingIntervalRef w) (intervals w) (nextHandle w) (posts w) (gets w)
  | SetUserInfo d =>
      mkApp (messages w) (inputValue w) (isLoading w)
            (threadId w) (suggestedReplies w) (showContactForm w) (Some d)
            (pollingIntervalRef w) (intervals w) (nextHandle w) (posts w) (gets w)
  | ClearPollingInterval =>
      mkApp (messages w) (inputValue w) (isLoading w)
            (threadId w) (suggestedReplies w) (showContactForm w) (userInfo w)
            (pollingIntervalRef w)
            (clearInterval (pollingIntervalRef w) (intervals w))
            (nextHandle w) (posts w) (gets w)
  | IfPollingIntervalRef a' =>
      if ref_truthy (pollingIntervalRef w) then exec a' w else w
  | SetPollingInterval taskId env =>
      mkApp (messages w) (inputValue w) (isLoading w)
            (threadId w) (suggestedReplies w) (showContactForm w) (userInfo w)
            (Some (nextHandle w))
            (intervals w ++
               [{| handle := nextHandle w; iv_task := taskId; iv_userInfo := env |}])
            (N.succ (nextHandle w)) (posts w) (gets w)
  | AxiosPost body env =>
      mkApp (messages w) (inputValue w) (isLoading w)
            (threadId w) (suggestedReplies w) (showContactForm w) (userInfo w)
            (pollingIntervalRef w) (intervals w) (nextHandle w)
            (posts w ++ [{| post_body := body; post_userInfo := env |}]) (gets w)
  | AxiosGet taskId env =>
      mkApp (messages w) (inputValue w) (isLoading w)
            (threadId w) (suggestedReplies w) (showContactForm w) (userInfo w)
            (pollingIntervalRef w) (intervals w) (nextHandle w) (posts w)
            (gets w ++ [{| get_task := taskId; get_userInfo := env |}])
  end.

(** The host executes a script from left to right. *)
Definition run (p : list act) (w : App) : App := fold_left (fun s a => exec a s) p w.

(** ** Handler scripts: a writer/exception monad *)

Definition M (A : Type) : Type := (list act * (exn + A))%type.

Definition ret {A} (a : A) : M A := ([], inr a).

Definition bind {A B} (c : M A) (k : A -> M B) : M B :=
  match c with
  | (l, inr a) => let '(l', r) := k a in (l ++ l', r)
  | (l, inl e) => (l, inl e)
  end.

Definition emit (a : act) : M unit := ([a], inr tt).

Definition throw {A} (e : exn) : M A := ([], inl e).

(** [try { c } catch (error) { h error }] *)
Definition try_catch {A} (c : M A) (h : exn -> M A) : M A :=
  match c with
  | (l, inl e) => let '(l', r) := h e in (l ++ l', r)
  | (l, inr a) => (l, inr a)
  end.

(** [try { c } finally { f }] *)
Definition try_finally {A} (c : M A) (f : M unit) : M A :=
  match c with
  | (l, r) =>
      match f with
      | (l', inr _) => (l ++ l', r)
      | (l', inl e) => (l ++ l', inl e)
      end
  end.

(** The value of an awaited promise, or its rejection thrown. *)
Definition await {A} (s : settled A) : M A := ([], s).

Definition when (b : bool) (c : M unit) : M unit := if b then c else ret tt.

Declare Scope js_scope.
Delimit Scope js_scope with js.
Notation "x <- c ;; k" := (bind c (fun x => k))
  (at level 61, c at next level, right associativity) : js_scope.
Notation "c ;; k" := (bind c (fun _ => k))
  (at level 61, right associativity) : js_scope.
Open Scope js_scope.

(** The effects of a script; an exception that escapes an event handler or
    an [async] function is not observed by the component. *)
Definition script {A} (c : M A) : list act := fst c.

Definition perform {A} (c : M A) (w : App) : App := run (script c) w.

(** Removing the request that settles from the list of pending ones. *)
Definition remove_nth {A} (k : nat) (l : list A) : list A :=
  firstn k l ++ skipn (S k) l.

Definition with_posts (l : list PendingPost) (w : App) : App :=
  mkApp (messages w) (inputValue w) (isLoading w)
        (threadId w) (suggestedReplies w) (showContactForm w) (userInfo w)
        (pollingIntervalRef w) (intervals w) (nextHandle w) l (gets w).

Definition with_gets (l : list PendingGet) (w : App) : App :=
  mkApp (messages w) (inputValue w) (isLoading w)
        (threadId w) (suggestedReplies w) (showContactForm w) (userInfo w)
        (pollingIntervalRef w) (intervals w) (nextHandle w) (posts w) l.

(** The [useState] and [useRef] initial values, on a host with no timer and
    no request; timer handles are positive integers. *)
Definition initial : App :=
  {| messages := []; inputValue := []; isLoading := false; threadId := None;
     suggestedReplies := []; showContactForm := false; userInfo := None;
     pollingIntervalRef := None;
     intervals := []; nextHandle := 1; posts := []; gets := [] |}.

Definition is_some {A} (o : option A) : bool :=
  match o with Some _ => true | None => false end.

(** The interval registered under a handle, if it is active. *)
Definition find_interval (h : N) (l : list Interval) : option Interval :=
  find (fun i => N.eqb (handle i) h) l.

(** ** The widget with contact form and suggested replies *)

Module Widget.

Definition nl : jsstring := [10%N].
Definition dq : jsstring := [34%N].

Definition welcomeMessage : jsstring :=
  nl ++
  Js.lit "Hi! I'm Astra, your AI travel consultant. "
    ++ [9992; 65039; 55356; 57320; 55357; 56983]%N ++ nl ++
  nl ++
  Js.lit "I can help you plan your entire trip at once. Just tell me what you need." ++ nl ++
  nl ++
  Js.lit "**For example, you can ask:**" ++ nl ++
  nl ++
  Js.lit "*   **For a simple query:**" ++ nl ++
  Js.lit "    *" ++ dq ++ Js.lit "Find me a flight from ICN to CDG next Monday." ++ dq ++ Js.lit "*" ++ nl ++
  nl ++
  Js.lit "*   **For a complex plan:**" ++ nl ++
  Js.lit "    *" ++ dq ++
  Js.lit "I'm planning a 4-day trip from Paris to New York next month. Find me a flight, recommend some great value hotels in central Manhattan, show me what activities or exhibitions are on, and I'll also need a car rental from the airport. My total budget is $2000."
    ++ dq ++ Js.lit "*" ++ nl ++
  nl ++
  Js.lit "How can I help you get started?" ++ nl ++
  Js.lit "  ".

(** The mount effect, [useEffect(() => {...}, [])]; [now] is [Date.now()]. *)
Definition mountEffect (now : N) : M unit :=
  emit (SetMessages (Value [plain bot welcomeMessage]));;
  emit (SetSuggestedReplies
          [ Js.lit "Search for flights " ++ [9992; 65039]%N;
            Js.lit "Recommend hotels " ++ [55356; 57320]%N;
            Js.lit "Rent a car " ++ [55357; 56983]%N;
            Js.lit "Plan a full trip " ++ [55357; 56826; 65039]%N ]);;
  let newThreadId := Js.lit "session_" ++ Js.of_N now in
  emit (SetThreadId newThreadId).

Definition mount (now : N) : App := perform (mountEffect now) initial.

(** The loading bubble appended by a send. *)
Definition thinking : Message :=
  {| type := bot; text := Some (Js.lit "Astra is thinking...");
     msgIsLoading := true; isError := false |}.

(** [pollForResult(taskId)], as created by a render whose [userInfo] is
    the first argument. *)
Definition pollForResult (userInfo : option ContactInfo) (taskId : jsstring)
  : M unit :=
  emit (IfPollingIntervalRef ClearPollingInterval);;
  emit (SetPollingInterval taskId userInfo).

(** The interval callback up to its [await axios.get(statusUrl)]. *)
Definition pollCallback (userInfo : option ContactInfo) (taskId : jsstring)
  : M unit :=
  emit (AxiosGet taskId userInfo).

(** [result.reply]: a TypeError when [result] is [undefined]. *)
Definition result_reply (r : option TaskResult) : M (option jsstring) :=
  match r with
  | Some x => ret (reply x)
  | None => throw TypeError
  end.

(** [result?.error] *)
Definition result_error (r : option TaskResult) : option jsstring :=
  match r with
  | Some x => error x
  | None => None
  end.

(** [form_to_display === 'contact_info'] *)
Definition is_contact_info (f : option jsstring) : bool :=
  match f with
  | Some s => Js.eqb s (Js.lit "contact_info")
  | None => false
  end.

(** The interval callback from the moment the status request settles. *)
Definition pollCallback_resume (userInfo : option ContactInfo)
           (r : settled StatusResponse) : M unit :=
  try_catch
    (response <- await r;;
     when (is_contact_info (form_to_display response) && negb (is_some userInfo))
          (emit (SetShowContactForm true));;
     if Js.eqb (status response) (Js.lit "completed") then
       emit ClearPollingInterval;;
       emit (SetIsLoading false);;
       emit (SetShowContactForm false);;
       reply <- result_reply (result response);;
       let botResponse :=
         {| type := bot; text := reply; msgIsLoading := false; isError := false |} in
       emit (SetMessages (ReplaceLast botResponse))
     else if Js.eqb (status response) (Js.lit "failed") then
       emit ClearPollingInterval;;
       emit (SetIsLoading false);;
       emit (SetShowContactForm false);;
       let errorText :=
         Js.lit "An error occurred: "
           ++ Js.or_else (result_error (result response)) (Js.lit "Unknown error") in
       emit (SetMessages (ReplaceLast (error_message errorText)))
     else ret tt)
    (fun _ =>
       emit ClearPollingInterval;;
       emit (SetIsLoading false);;
       emit (SetShowContactForm false);;
       emit (SetMessages
               (ReplaceLast (error_message (Js.lit "Failed to get a response.")))))%js.

(** The default parameter [messageText = inputValue]; [None] is a call
    without argument. *)
Definition default_inputValue (render : App) (arg : option jsstring) : jsstring :=
  match arg with Some t => t | None => inputValue render end.

(** [handleSendMessage(messageText = inputValue)] of the render [render],
    up to its [await axios.post(...)]. *)
Definition handleSendMessage (render : App) (arg : option jsstring) : M unit :=
  let messageText := default_inputValue render arg in
  if negb (Js.truthy (Js.trim messageText))
     || isLoading render
     || negb (Js.truthy_opt (threadId render))
  then ret tt
  else
    let userMessage := plain user messageText in
    emit (SetMessages (Append [userMessage; thinking]));;
    emit (SetIsLoading true);;
    emit (SetInputValue []);;
    emit (SetSuggestedReplies []);;
    emit (AxiosPost {| message := text userMessage; thread_id := threadId render |}
                    (userInfo render)).

(** [handleSendMessage] from the moment the submit request settles. *)
Definition handleSendMessage_resume (userInfo : option ContactInfo)
           (r : settled ChatResponse) : M unit :=
  try_catch
    (response <- await r;;
     match task_id response with
     | Some t =>
         if Js.truthy t then pollForResult userInfo t
         else throw (Error (Js.lit "Failed to start the background task."))
     | None => throw (Error (Js.lit "Failed to start the background task."))
     end)
    (fun error =>
       emit (SetIsLoading false);;
       let errorText :=
         Js.or_else (exn_detail error) (Js.lit "Could not connect to the assistant.") in
       emit (SetMessages (ReplaceLast (error_message errorText)))).

Definition handleFormSubmit (data : ContactInfo) : M unit :=
  emit (SetUserInfo data);;
  emit (SetShowContactForm false);;
  emit (SetMessages
          (Append [plain bot (Js.lit "Thanks! I've saved your information.")])).

(** [ContactForm]'s own [handleSubmit], with [onSubmit = handleFormSubmit]. *)
Definition ContactForm_handleSubmit (name email : jsstring) : M unit :=
  if Js.truthy name && Js.truthy email
  then handleFormSubmit {| name := name; email := email |}
  else ret tt.

Definition handleSuggestionSelect (render : App) (suggestion : jsstring) : M unit :=
  handleSendMessage render (Some suggestion).

Definition handleKeyPress (render : App) (key : jsstring) : M unit :=
  if Js.eqb key (Js.lit "Enter") && negb (isLoading render)
  then handleSendMessage render None
  else ret tt.

(** What can happen to a mounted widget. *)
Inductive event :=
| Change (v : jsstring)                 (* typing in the input *)
| ClickSend                             (* the Send button *)
| KeyPress (key : jsstring)             (* a key in the input *)
| SelectSuggestion (index : nat)        (* a suggested-reply button *)
| SubmitContactForm (name email : jsstring)
| Tick (h : N)                          (* the host fires interval [h] *)
| PostSettled (k : nat) (r : settled ChatResponse)
| GetSettled (k : nat) (r : settled StatusResponse).

(** One turn of the event loop.  Handlers are those of the current render.
    The input and the Send button are [disabled={isLoading}], the
    suggestion buttons are those of [suggestedReplies], the contact form
    exists only while [showContactForm]; a control that is not rendered or
    is disabled, a cleared interval and a request that is not pending
    produce nothing. *)
Definition step (w : App) (e : event) : App :=
  match e with
  | Change v => if isLoading w then w else exec (SetInputValue v) w
  | ClickSend =>
      if isLoading w then w else perform (handleSendMessage w None) w
  | KeyPress key =>
      if isLoading w then w else perform (handleKeyPress w key) w
  | SelectSuggestion index =>
      match nth_error (suggestedReplies w) index with
      | Some text => perform (handleSuggestionSelect w text) w
      | None => w
      end
  | SubmitContactForm name email =>
      if showContactForm w
      then perform (ContactForm_handleSubmit name email) w
      else w
  | Tick h =>
      match find_interval h (intervals w) with
      | Some i => perform (pollCallback (iv_userInfo i) (iv_task i)) w
      | None => w
      end
  | PostSettled k r =>
      match nth_error (posts w) k with
      | Some p =>
          perform (handleSendMessage_resume (post_userInfo p) r)
                  (with_posts (remove_nth k (posts w)) w)
      | None => w
      end
  | GetSettled k r =>
      match nth_error (gets w) k with
      | Some g =>
          perform (pollCallback_resume (get_userInfo g) r)
                  (with_gets (remove_nth k (gets w)) w)
      | None => w
      end
  end.

Definition steps (w : App) (es : list event) : App := fold_left step es w.

(** The states a mounted widget can be in. *)
Inductive reachable : App -> Prop :=
| reachable_mount : forall now, reachable (mount now)
| reachable_step : forall w e, reachable w -> reachable (step w e).

End Widget.

(** ** The polling widget of [frontend/travel-widget/src/App.js]

    The same submit-then-poll protocol without contact form and without
    suggested replies; its closures read nothing of the render but
    [inputValue], [isLoading] and [threadId]. *)

Module PollingApp.

Definition greeting : jsstring :=
  Js.lit "Hi! I'm your AI travel assistant. How can I help you plan your next adventure?".

Definition mountEffect (now : N) : M unit :=
  emit (SetMessages (Value [plain bot greeting]));;
  let newThreadId := Js.lit "session_" ++ Js.of_N now in
  emit (SetThreadId newThreadId).

Definition mount (now : N) : App := perform (mountEffect now) initial.

Definition thinking : Message :=
  {| type := bot; text := Some (Js.lit "Astra is thinking...");
     msgIsLoading := true; isError := false |}.

Definition pollForResult (taskId : jsstring) : M unit :=
  emit (IfPollingIntervalRef ClearPollingInterval);;
  emit (SetPollingInterval taskId None).

Definition pollCallback (taskId : jsstring) : M unit :=
  emit (AxiosGet taskId None).

Definition pollCallback_resume (r : settled StatusResponse) : M unit :=
  try_catch
    (response <- await r;;
     if Js.eqb (status response) (Js.lit "completed") then
       emit ClearPollingInterval;;
       emit (SetIsLoading false);;
       reply <- Widget.result_reply (result response);;
       let botResponse :=
         {| type := bot; text := reply; msgIsLoading := false; isError := false |} in
       emit (SetMessages (ReplaceLast botResponse))
     else if Js.eqb (status response) (Js.lit "failed") then
       emit ClearPollingInterval;;
       emit (SetIsLoading false);;
       let errorText :=
         Js.lit "An error occurred: "
           ++ Js.or_else (Widget.result_error (result response)) (Js.lit "Unknown error") in
       emit (SetMessages (ReplaceLast (error_message errorText)))
     else ret tt)
    (fun _ =>
       emit ClearPollingInterval;;
       emit (SetIsLoading false);;
       emit (SetMessages
               (ReplaceLast (error_message (Js.lit "Failed to get a response.")))))%js.

Definition handleSendMessage (render : App) : M unit :=
  if negb (Js.truthy (Js.trim (inputValue render)))
     || isLoading render
     || negb (Js.truthy_opt (threadId render))
  then ret tt
  else
    let userMessage := plain user (inputValue render) in
    emit (SetMessages (Append [userMessage; thinking]));;
    emit (SetIsLoading true);;
    emit (SetInputValue []);;
    emit (AxiosPost {| message := text userMessage; thread_id := threadId render |}
                    None).

Definition handleSendMessage_resume (r : settled ChatResponse) : M unit :=
  try_catch
    (response <- await r;;
     match task_id response with
     | Some t =>
         if Js.truthy t then pollForResult t
         else throw (Error (Js.lit "Failed to start the background task."))
     | None => throw (Error (Js.lit "Failed to start the background task."))
     end)
    (fun error =>
       emit (SetIsLoading false);;
       let errorText :=
         Js.or_else (exn_detail error) (Js.lit "Could not connect to the assistant.") in
       emit (SetMessages (ReplaceLast (error_message errorText)))).

Definition handleKeyPress (render : App) (key : jsstring) : M unit :=
  if Js.eqb key (Js.lit "Enter") && negb (isLoading render)
  then handleSendMessage render
  else ret tt.

Inductive event :=
| Change (v : jsstring)
| ClickSend
| KeyPress (key : jsstring)
| Tick (h : N)
| PostSettled (k : nat) (r : settled ChatResponse)
| GetSettled (k : nat) (r : settled StatusResponse).

Definition step (w : App) (e : event) : App :=
  match e with
  | Change v => if isLoading w then w else exec (SetInputValue v) w
  | ClickSend =>
      if isLoading w then w else perform (handleSendMessage w) w
  | KeyPress key =>
      if isLoading w then w else perform (handleKeyPress w key) w
  | Tick h =>
      match find_interval h (intervals w) with
      | Some i => perform (pollCallback (iv_task i)) w
      | None => w
      end
  | PostSettled k r =>
      match nth_error (posts w) k with
      | Some p =>
          perform (handleSendMessage_resume r)
                  (with_posts (remove_nth k (posts w)) w)
      | None => w
      end
  | GetSettled k r =>
      match nth_error (gets w) k with
      | Some g =>
          perform (pollCallback_resume r)
                  (with_gets (remove_nth k (gets w)) w)
      | None => w
      end
  end.

Definition steps (w : App) (es : list event) : App := fold_left step es w.

Inductive reachable : App -> Prop :=
| reachable_mount : forall now, reachable (mount now)
| reachable_step : forall w e, reachable w -> reachable (step w e).

End PollingApp.

(** ** The request/response widget of [frontend/travel-widget/src/App.js]

    The first component of that file awaits the reply in the submit call
    itself and has no timer. *)

Module SimpleApp.

Definition greeting : jsstring :=
  Js.lit "Hi there! I'm Ascend's AI Assistant. How can I help you plan your trip today?".

(** [token] is [Math.random().toString(36).substring(2, 11)]. *)
Definition mountEffect (token : jsstring) : M unit :=
  emit (SetMessages (Value [plain bot greeting]));;
  let newThreadId := Js.lit "session_" ++ token in
  emit (SetThreadId newThreadId).

Definition mount (token : jsstring) : App := perform (mountEffect token) initial.

Definition dots : Message :=
  {| type := bot; text := Some (Js.lit "..."); msgIsLoading := true; isError := false |}.

(** [sendMessage] up to its [await axios.post(...)]. *)
Definition sendMessage (render : App) : M unit :=
  if negb (Js.truthy (Js.trim (inputValue render)))
     || isLoading render
     || negb (Js.truthy_opt (threadId render))
  then ret tt
  else
    let userMessage := plain user (inputValue render) in
    emit (SetMessages (Append [userMessage; dots]));;
    emit (SetIsLoading true);;
    emit (SetInputValue []);;
    emit (AxiosPost {| message := text userMessage; thread_id := threadId render |}
                    None).

(** The text chosen by the [catch] clause. *)
Definition errorText (error : exn) : jsstring :=
  if match exn_code error with
     | Some c => Js.eqb c (Js.lit "ECONNABORTED")
     | None => false
     end
     || Js.includes (exn_message error) (Js.lit "timeout")
  then Js.lit "The server is taking too long to respond. Please try again later."
  else if match exn_code error with
          | Some c => Js.eqb c (Js.lit "ERR_NETWORK")
          | None => false
          end
  then Js.lit "Unable to connect to the server. Please check if the backend is running and your internet connection."
  else match exn_response error with
       | Some r =>
           let status := err_status r in
           let detail := Js.or_else (detail r) (Js.lit "No further details.") in
           Js.lit "Server Error (" ++ Js.of_N status ++ Js.lit "): " ++ detail
       | None => Js.lit "An unexpected error occurred. Please try again."
       end.

(** [sendMessage] from the moment the request settles. *)
Definition sendMessage_resume (r : settled ChatResponse) : M unit :=
  try_finally
    (try_catch
       (response <- await r;;
        let botResponse :=
          {| type := bot; text := data_reply response;
             msgIsLoading := false; isError := false |} in
        emit (SetMessages (ReplaceLast botResponse)))
       (fun error =>
          let errorMessage := error_message (errorText error) in
          emit (SetMessages (ReplaceLast errorMessage))))
    (emit (SetIsLoading false)).

Inductive event :=
| Change (v : jsstring)
| ClickSend
| KeyPress (key : jsstring)
| PostSettled (k : nat) (r : settled ChatResponse).

Definition step (w : App) (e : event) : App :=
  match e with
  | Change v => if isLoading w then w else exec (SetInputValue v) w
  | ClickSend =>
      if isLoading w then w else perform (sendMessage w) w
  | KeyPress key =>
      if isLoading w then w
      else if Js.eqb key (Js.lit "Enter") then perform (sendMessage w) w
      else w
  | PostSettled k r =>
      match nth_error (posts w) k with
      | Some p =>
          perform (sendMessage_resume r)
                  (with_posts (remove_nth k (posts w)) w)
      | None => w
      end
  end.

Definition steps (w : App) (es : list event) : App := fold_left step es w.

Inductive reachable : App -> Prop :=
| reachable_mount : forall token, reachable (mount token)
| reachable_step : forall w e, reachable w -> reachable (step w e).

End SimpleApp.

(** ** Disciplines of scripts and invariants of states *)

(** The effect registers an interval. *)
Fixpoint installs (a : act) : bool :=
  match a with
  | SetPollingInterval _ _ => true
  | IfPollingIntervalRef a' => installs a'
  | _ => false
  end.

(** Every registration of an interval in the script comes right after
    [if (pollingIntervalRef.current) clearInterval(pollingIntervalRef.current)]. *)
Fixpoint disciplined (p : list act) : bool :=
  match p with
  | [] => true
  | IfPollingIntervalRef ClearPollingInterval :: SetPollingInterval _ _ :: p' =>
      disciplined p'
  | a :: p' => negb (installs a) && disciplined p'
  end.

(** The effect neither resets the transcript nor changes the session id. *)
Fixpoint steady (a : act) : bool :=
  match a with
  | SetMessages (Value _) => false
  | SetThreadId _ => false
  | IfPollingIntervalRef a' => steady a'
  | _ => true
  end.

(** A closure created by the effect has seen contact info only if [u]
    holds some. *)
Fixpoint env_closed (u : option ContactInfo) (a : act) : bool :=
  match a with
  | SetPollingInterval _ env | AxiosPost _ env | AxiosGet _ env =>
      implb (is_some env) (is_some u)
  | IfPollingIntervalRef a' => env_closed u a'
  | _ => true
  end.

(** Number of [setMessages] calls of a script. *)
Fixpoint transcript_updates (p : list act) : nat :=
  match p with
  | [] => 0
  | SetMessages _ :: p' => S (transcript_updates p')
  | _ :: p' => transcript_updates p'
  end.

(** At most one interval is active, and it is the one the ref holds. *)
Definition single_timer (w : App) : Prop :=
  (length (intervals w) <= 1)%nat /\
  (forall i, In i (intervals w) -> pollingIntervalRef w = Some (handle i)) /\
  (forall h, pollingIntervalRef w = Some h -> (0 < h < nextHandle w)%N) /\
  (0 < nextHandle w)%N.

(** While no contact info is stored, no closure has seen any. *)
Definition closures_ok (w : App) : Prop :=
  userInfo w = None ->
  (forall i, In i (intervals w) -> iv_userInfo i = None) /\
  (forall p, In p (posts w) -> post_userInfo p = None) /\
  (forall g, In g (gets w) -> get_userInfo g = None).

(** The transcript has its greeting and the session has its id. *)
Definition started (w : App) : Prop :=
  messages w <> [] /\ Js.truthy_opt (threadId w) = true.

Definition wf (w : App) : Prop :=
  single_timer w /\ closures_ok w /\ started w.

(** [w'] is [w] with some pending requests taken off the lists. *)
Definition settles (w w' : App) : Prop :=
  exists ps gs,
    w' = with_gets gs (with_posts ps w) /\ incl ps (posts w) /\ incl gs (gets w).

(** What every script of a mounted component satisfies. *)
Definition script_ok (u : option ContactInfo) (p : list act) : bool :=
  disciplined p && forallb steady p && forallb (env_closed u) p.

(** ** Vocabulary of the statements *)

(** The three conditions under which a send does nothing. *)
Definition send_refused (w : App) (messageText : jsstring) : Prop :=
  Js.trim messageText = [] \/ isLoading w = true \/ Js.truthy_opt (threadId w) = false.

(** The conditions under which a send goes through. *)
Definition send_accepted (w : App) (messageText : jsstring) : Prop :=
  Js.trim messageText <> [] /\ isLoading w = false /\ Js.truthy_opt (threadId w) = true.

(** A status request settles in a way that ends the poll: a rejection, or a
    response whose status is [completed] or [failed]. *)
Definition resolving (r : settled StatusResponse) : bool :=
  match r with
  | inl _ => true
  | inr a => Js.eqb (status a) (Js.lit "completed")
             || Js.eqb (status a) (Js.lit "failed")
  end.

(** A submit request settles without a task id: a rejection (transport
    error or non-2xx status), or a response whose [task_id] is missing or
    empty. *)
Definition submit_fails (r : settled ChatResponse) : bool :=
  match r with
  | inl _ => true
  | inr a => negb (Js.truthy_opt (task_id a))
  end.

(** The error an unsuccessful submit ends up with in the [catch] clause. *)
Definition submit_error (r : settled ChatResponse) : exn :=
  match r with
  | inl e => e
  | inr _ => Error (Js.lit "Failed to start the background task.")
  end.

(** The entry a resolving status response puts in the transcript. *)
Definition resolution_message (r : settled StatusResponse) : Message :=
  match r with
  | inl _ => error_message (Js.lit "Failed to get a response.")
  | inr a =>
      if Js.eqb (status a) (Js.lit "completed") then
        match result a with
        | Some x =>
            {| type := bot; text := reply x; msgIsLoading := false; isError := false |}
        | None => error_message (Js.lit "Failed to get a response.")
        end
      else
        error_message
          (Js.lit "An error occurred: "
             ++ Js.or_else (Widget.result_error (result a)) (Js.lit "Unknown error"))
  end.

(** The state after a resolution that writes [m]: the last transcript entry
    is replaced, [isLoading] and the form flag are cleared, and the interval
    the ref holds is cancelled. *)
Definition resolved (m : Message) (w : App) : App :=
  mkApp (Js.slice_0_m1 (messages w) ++ [m]) (inputValue w) false
        (threadId w) (suggestedReplies w) false (userInfo w)
        (pollingIntervalRef w)
        (clearInterval (pollingIntervalRef w) (intervals w))
        (nextHandle w) (posts w) (gets w).

(** The state after a submit request was settled without starting a poll:
    the last transcript entry is replaced and [isLoading] is cleared;
    nothing else changes. *)
Definition replaced_last (m : Message) (w : App) : App :=
  mkApp (Js.slice_0_m1 (messages w) ++ [m]) (inputValue w) false
        (threadId w) (suggestedReplies w) (showContactForm w) (userInfo w)
        (pollingIntervalRef w) (intervals w) (nextHandle w) (posts w) (gets w).

(** ** Scripted backends used as examples *)

Module Example.

Definition hi : jsstring := Js.lit "hi".
Definition t1 : jsstring := Js.lit "t1".
Definition X : jsstring := Js.lit "X".
Definition contact_info : option jsstring := Some (Js.lit "contact_info").
Definition ada : ContactInfo :=
  {| name := Js.lit "Ada"; email := Js.lit "ada@example.org" |}.

Definition submit_ok : settled ChatResponse :=
  inr {| task_id := Some t1; data_reply := None |}.

Definition network_down : settled ChatResponse :=
  inl (AxiosError (Some (Js.lit "ERR_NETWORK")) (Js.lit "Network Error") None).

Definition pending (form : option jsstring) : StatusResponse :=
  {| status := Js.lit "pending"; result := None; form_to_display := form |}.

Definition completed (text : jsstring) : StatusResponse :=
  {| status := Js.lit "completed";
     result := Some {| reply := Some text; error := None |};
     form_to_display := None |}.

Definition failed (detail : option jsstring) : StatusResponse :=
  {| status := Js.lit "failed";
     result := Some {| reply := None; error := detail |};
     form_to_display := None |}.

(** The widget after [hi] was typed and sent, the submit returned [t1]
    and the first status request was issued. *)
Definition polling : App :=
  Widget.steps (Widget.mount 0)
    [ Widget.Change hi; Widget.ClickSend; Widget.PostSettled 0 submit_ok;
      Widget.Tick 1 ].

(** The widget after the user filled in the contact form while the task
    was pending, with the next status request issued. *)
Definition polling_after_form : App :=
  Widget.steps polling
    [ Widget.GetSettled 0 (inr (pending contact_info));
      Widget.SubmitContactForm (name ada) (email ada);
      Widget.Tick 1 ].

(** The same for the polling component of [App.js]. *)
Definition polling_app : App :=
  PollingApp.steps (PollingApp.mount 0)
    [ PollingApp.Change hi; PollingApp.ClickSend;
      PollingApp.PostSettled 0 submit_ok; PollingApp.Tick 1 ].

(** The request/response component with a submit in flight. *)
Definition simple_sending : App :=
  SimpleApp.steps (SimpleApp.mount (Js.lit "k3j9x0q2a"))
    [ SimpleApp.Change hi; SimpleApp.ClickSend ].

End Example.

(** The effect issues an HTTP request. *)
Fixpoint requests (a : act) : bool :=
  match a with
  | AxiosPost _ _ | AxiosGet _ _ => true
  | IfPollingIntervalRef a' => requests a'
  | _ => false
  end.

(** The text of the error entry of an unsuccessful submit. *)
Definition submit_error_text (r : settled ChatResponse) : jsstring :=
  Js.or_else (exn_detail (submit_error r))
             (Js.lit "Could not connect to the assistant.").

(** What may happen while a task is pending (the input, the Send button
    and the suggestions are out of reach then): a poll answered [pending],
    with or without the form signal, and the contact form being
    submitted. *)
Inductive interlude :=
| PollPending (form : option jsstring) (res : option TaskResult)
| FillForm (name email : jsstring).

Definition pending_response (form : option jsstring) (res : option TaskResult)
  : StatusResponse :=
  {| status := Js.lit "pending"; result := res; form_to_display := form |}.

Definition completed_response (text : jsstring) (err : option jsstring)
           (form : option jsstring) : StatusResponse :=
  {| status := Js.lit "completed";
     result := Some {| reply := Some text; error := err |};
     form_to_display := form |}.

(** The events of an interlude, for the interval [h] and a status request
    that is issued and answered before the next one. *)
Definition interlude_events (h : N) (idx : nat) (i : interlude)
  : list Widget.event :=
  match i with
  | PollPending form res =>
      [Widget.Tick h; Widget.GetSettled idx (inr (pending_response form res))]
  | FillForm name email => [Widget.SubmitContactForm name email]
  end.

Definition is_form (i : interlude) : bool :=
  match i with FillForm _ _ => true | _ => false end.

(** The component is polling with interval [h], with [idx] older status
    requests still unanswered. *)
Definition polling_on (h : N) (idx : nat) (w : App) : Prop :=
  (exists t u, intervals w = [{| handle := h; iv_task := t; iv_userInfo := u |}]) /\
  pollingIntervalRef w = Some h /\
  length (gets w) = idx /\
  isLoading w = true.

(** A poll answered [pending], for the polling component of [App.js]. *)
Definition pending_round (h : N) (idx : nat)
           (a : option jsstring * option TaskResult) : list PollingApp.event :=
  [PollingApp.Tick h;
   PollingApp.GetSettled idx (inr (pending_response (fst a) (snd a)))].

(** Nothing is in flight and no form is shown. *)
Definition quiescent (w : App) : Prop :=
  isLoading w = false /\ showContactForm w = false /\
  intervals w = [] /\ posts w = [] /\ gets w = [].

Definition is_post_settled (e : Widget.event) : bool :=
  match e with Widget.PostSettled _ _ => true | _ => false end.

(** ** The rest of the components: cleanup, transcript, moves *)

(** The cleanup returned by the mount effect of the two polling components,
    [() => { if (pollingIntervalRef.current)
    clearInterval(pollingIntervalRef.current); }], run at unmount. *)
Definition unmountCleanup : M unit :=
  emit (IfPollingIntervalRef ClearPollingInterval).

Definition is_user (m : Message) : bool :=
  match type m with user => true | bot => false end.

(** The user's turns of a transcript, in order. *)
Definition user_messages (l : list Message) : list Message := filter is_user l.

Definition ends_with_bot (l : list Message) : Prop :=
  exists pre m, l = pre ++ [m] /\ type m = bot.

(** The entry [handleFormSubmit] appends. *)
Definition acknowledgement : Message :=
  plain bot (Js.lit "Thanks! I've saved your information.").

(** The script of an accepted [handleSendMessage]. *)
Definition send_script (w : App) (messageText : jsstring) : list act :=
  [ SetMessages (Append [plain user messageText; Widget.thinking]);
    SetIsLoading true; SetInputValue []; SetSuggestedReplies [];
    AxiosPost {| message := Some messageText; thread_id := threadId w |}
              (userInfo w) ].

(** Every way an event changes the widget with contact form: a case
    analysis of [Widget.step] with the scripts of the handlers worked
    out. *)
Inductive widget_move (w : App) : App -> Prop :=
| move_none : widget_move w w
| move_typing : forall v,
    isLoading w = false -> widget_move w (exec (SetInputValue v) w)
| move_send : forall messageText,
    send_accepted w messageText ->
    widget_move w (run (send_script w messageText) w)
| move_form : forall nm em,
    showContactForm w = true -> Js.truthy nm = true -> Js.truthy em = true ->
    widget_move w
      (run [ SetUserInfo {| name := nm; email := em |};
             SetShowContactForm false;
             SetMessages (Append [acknowledgement]) ] w)
| move_tick : forall i,
    In i (intervals w) ->
    widget_move w (exec (AxiosGet (iv_task i) (iv_userInfo i)) w)
| move_poll_start : forall k p t,
    nth_error (posts w) k = Some p -> Js.truthy t = true ->
    widget_move w
      (run [IfPollingIntervalRef ClearPollingInterval;
            SetPollingInterval t (post_userInfo p)]
           (with_posts (remove_nth k (posts w)) w))
| move_submit_failed : forall k p r,
    nth_error (posts w) k = Some p -> submit_fails r = true ->
    widget_move w
      (replaced_last (error_message (submit_error_text r))
                     (with_posts (remove_nth k (posts w)) w))
| move_resolved : forall k g r,
    nth_error (gets w) k = Some g -> resolving r = true ->
    widget_move w
      (resolved (resolution_message r) (with_gets (remove_nth k (gets w)) w))
| move_pending : forall k g (raise : bool),
    nth_error (gets w) k = Some g ->
    (raise = true -> get_userInfo g = None) ->
    widget_move w
      (if raise
       then exec (SetShowContactForm true) (with_gets (remove_nth k (gets w)) w)
       else with_gets (remove_nth k (gets w)) w).

(** The four suggestions of the widget, as UTF-16 code units: the texts
    end in U+2708 U+FE0F, U+1F3E8, U+1F697 and U+1F5FA U+FE0F. *)
Definition initial_suggestions : list jsstring :=
  [ Js.lit "Search for flights " ++ [9992; 65039]%N;
    Js.lit "Recommend hotels " ++ [55356; 57320]%N;
    Js.lit "Rent a car " ++ [55357; 56983]%N;
    Js.lit "Plan a full trip " ++ [55357; 56826; 65039]%N ].

(** The transcript starts with [g], and it has at least two entries unless
    nothing has been sent yet. *)
Definition greeted (g : Message) (w : App) : Prop :=
  hd_error (messages w) = Some g /\
  ((2 <= length (messages w))%nat \/
   (posts w = [] /\ gets w = [] /\ intervals w = [])).

(** The session id is [sid] and every pending submit carries it, with a
    message that is not blank. *)
Definition session (sid : jsstring) (w : App) : Prop :=
  threadId w = Some sid /\
  forall p, In p (posts w) ->
    thread_id (post_body p) = Some sid /\
    exists t, message (post_body p) = Some t /\ Js.trim t <> [].

(** Stored contact info has a name and an email. *)
Definition contact_valid (w : App) : Prop :=
  forall d, userInfo w = Some d ->
    Js.truthy (name d) = true /\ Js.truthy (email d) = true.

(** Every interval and every pending status request is for a task id that
    is not empty. *)
Definition tasks_named (w : App) : Prop :=
  (forall i, In i (intervals w) -> Js.truthy (iv_task i) = true) /\
  (forall g, In g (gets w) -> Js.truthy (get_task g) = true).

(** While the component is loading, a submit is pending or an interval is
    active. *)
Definition in_flight (w : App) : Prop :=
  isLoading w = true -> posts w <> [] \/ intervals w <> [].

(** The state of the request/response component: idle with no loading
    bubble, or one submit pending with the bubble last. *)
Definition simple_inv (w : App) : Prop :=
  intervals w = [] /\ gets w = [] /\
  ((isLoading w = false /\ posts w = [] /\
    forallb (fun m => negb (msgIsLoading m)) (messages w) = true) \/
   (isLoading w = true /\ length (posts w) = 1%nat /\
    exists pre, messages w = pre ++ [SimpleApp.dots] /\
                forallb (fun m => negb (msgIsLoading m)) pre = true)).

(** The entry a settled submit of the request/response component writes. *)
Definition simple_outcome (r : settled ChatResponse) : Message :=
  match r with
  | inr response =>
      {| type := bot; text := data_reply response;
         msgIsLoading := false; isError := false |}
  | inl error => error_message (SimpleApp.errorText error)
  end.

(** An event of the polling component of [App.js] as an event of the
    widget with contact form. *)
Definition as_widget_event (e : PollingApp.event) : Widget.event :=
  match e with
  | PollingApp.Change v => Widget.Change v
  | PollingApp.ClickSend => Widget.ClickSend
  | PollingApp.KeyPress key => Widget.KeyPress key
  | PollingApp.Tick h => Widget.Tick h
  | PollingApp.PostSettled k r => Widget.PostSettled k r
  | PollingApp.GetSettled k r => Widget.GetSettled k r
  end.

(** The event is not a status response that asks for the contact form. *)
Definition no_form_signal (e : PollingApp.event) : bool :=
  match e with
  | PollingApp.GetSettled _ (inr a) =>
      negb (Widget.is_contact_info (form_to_display a))
  | _ => true
  end.

(** A state without form, contact info and suggestions, whose closures
    have seen no contact info. *)
Definition formless (w : App) : Prop :=
  showContactForm w = false /\ userInfo w = None /\ suggestedReplies w = [] /\
  (forall i, In i (intervals w) -> iv_userInfo i = None) /\
  (forall p, In p (posts w) -> post_userInfo p = None) /\
  (forall g, In g (gets w) -> get_userInfo g = None).

(** The interval [h] polls task [t] with a callback that holds [u] as
    [userInfo], and [idx] status requests are pending. *)
Definition polling_closure (h : N) (idx : nat) (t : jsstring)
           (u : option ContactInfo) (w : App) : Prop :=
  intervals w = [{| handle := h; iv_task := t; iv_userInfo := u |}] /\
  length (gets w) = idx.

(** The widget after two status requests were issued for [t1] and the
    first one was answered [completed]: idle, with the second request
    still pending. *)
Definition late_answer_pending : App :=
  Widget.steps Example.polling
    [ Widget.Tick 1; Widget.GetSettled 0 (inr (Example.completed Example.X)) ].

(** [error.code === c] *)
Definition has_code (e : exn) (c : jsstring) : bool :=
  match exn_code e with
  | Some x => Js.eqb x c
  | None => false
  end.

(** The first test of the [catch] clause of [sendMessage]. *)
Definition looks_like_timeout (e : exn) : bool :=
  has_code e (Js.lit "ECONNABORTED") || Js.includes (exn_message e) (Js.lit "timeout").

(** The widget polling a second task [t2] while a status request for the
    first task is still pending. *)
Definition second_task_polling : App :=
  Widget.steps late_answer_pending
    [ Widget.Change Example.hi; Widget.ClickSend;
      Widget.PostSettled 0 (inr {| task_id := Some (Js.lit "t2"); data_reply := None |}) ].

(** The widget idle with the contact form on screen.  Two status requests
    were issued for [t1]; the answer to the second, [completed], arrives
    first and ends the poll; the answer to the first, [pending] with the
    form signal, arrives after it and raises the form, which no later
    event of the finished turn takes down. *)
Definition idle_with_form : App :=
  Widget.steps Example.polling
    [ Widget.Tick 1;
      Widget.GetSettled 1 (inr (Example.completed Example.X));
      Widget.GetSettled 0 (inr (Example.pending Example.contact_info)) ].

(** The user sends [again], submits the contact form that is on screen,
    and the submit request of the send fails on the network. *)
Definition failed_submit_after_form : list Widget.event :=
  [ Widget.Change (Js.lit "again"); Widget.ClickSend;
    Widget.SubmitContactForm (name Example.ada) (email Example.ada);
    Widget.PostSettled 0 Example.network_down ].

(** * Properties *)

(** ** Strings and arrays *)

Lemma Js_eqb_eq : forall a b, Js.eqb a b = true <-> a = b.
Proof.
  induction a as [|x a IH]; destruct b as [|y b]; simpl; split; intro H;
    try reflexivity; try discriminate.
  - apply andb_true_iff in H. destruct H as [Hx Hab].
    apply N.eqb_eq in Hx. apply IH in Hab. congruence.
  - injection H as -> ->. rewrite N.eqb_refl. simpl. now apply IH.
Qed.

Lemma Js_eqb_refl : forall a, Js.eqb a a = true.
Proof. intro a. now apply Js_eqb_eq. Qed.

Lemma startsWith_app : forall t s, Js.startsWith (t ++ s) t = true.
Proof.
  induction t as [|y t IH]; intro s; simpl.
  - reflexivity.
  - now rewrite N.eqb_refl, IH.
Qed.


Lemma slice_length : forall (A : Type) (l : list A),
  l <> [] -> length (Js.slice_0_m1 l) = pred (length l).
Proof.
  intros A l H. unfold Js.slice_0_m1.
  destruct (exists_last H) as (l' & a & ->).
  rewrite removelast_last, length_app. simpl. lia.
Qed.

Lemma replace_last_length : forall m l,
  l <> [] -> length (apply_updater (ReplaceLast m) l) = length l.
Proof.
  intros m l H. simpl. rewrite length_app, slice_length by assumption.
  destruct l; [congruence | simpl; lia].
Qed.


Lemma updater_length_mono : forall u l,
  match u with Value _ => False | _ => True end ->
  (length l <= length (apply_updater u l))%nat.
Proof.
  intros [ms|m|ms] l H; try contradiction.
  - simpl. rewrite length_app. lia.
  - destruct l as [|x l]; [simpl; lia|].
    rewrite replace_last_length by discriminate. lia.
Qed.

Lemma nth_error_remove_nth_In : forall (A : Type) k (l : list A) x,
  In x (remove_nth k l) -> In x l.
Proof.
  intros A k l x H. unfold remove_nth in H. apply in_app_or in H.
  rewrite <- (firstn_skipn k l). apply in_or_app.
  destruct H as [H|H]; [now left | right].
  clear -H. revert l H. induction k as [|k IH]; intros [|y l] H; simpl in *; auto.
Qed.

Lemma remove_nth_snoc : forall (A : Type) (l : list A) x,
  remove_nth (length l) (l ++ [x]) = l.
Proof.
  intros A l x. unfold remove_nth.
  induction l as [|a l IH]; simpl in *; [reflexivity | now f_equal].
Qed.

Lemma nth_error_snoc : forall (A : Type) (l : list A) x,
  nth_error (l ++ [x]) (length l) = Some x.
Proof.
  intros A l x. rewrite nth_error_app2 by lia. now rewrite Nat.sub_diag.
Qed.

(** ** Running scripts *)


Lemma run_cons : forall a p w, run (a :: p) w = run p (exec a w).
Proof. reflexivity. Qed.

Lemma run_nil : forall w, run [] w = w.
Proof. reflexivity. Qed.

(** ** Invariants are kept by disciplined scripts *)

Lemma filter_none : forall (A : Type) (f : A -> bool) l,
  (forall x, In x l -> f x = false) -> filter f l = [].
Proof.
  intros A f l H. induction l as [|x l IH]; simpl; [reflexivity|].
  rewrite (H x) by now left. apply IH. intros y Hy. apply H. now right.
Qed.

Lemma clearInterval_length : forall h l,
  (length (clearInterval h l) <= length l)%nat.
Proof. intros [n|] l; simpl; [apply filter_length_le | lia]. Qed.

Lemma clearInterval_In : forall h l i, In i (clearInterval h l) -> In i l.
Proof.
  intros [n|] l i H; simpl in H; [|assumption].
  apply filter_In in H. tauto.
Qed.

Lemma clearInterval_own : forall h l,
  (forall i, In i l -> h = Some (handle i)) -> clearInterval h l = [] .
Proof.
  intros [n|] l H; simpl.
  - apply filter_none. intros i Hi. specialize (H i Hi). injection H as ->.
    now rewrite N.eqb_refl.
  - destruct l as [|i l]; [reflexivity|]. specialize (H i (or_introl eq_refl)).
    discriminate.
Qed.

Lemma exec_single_timer : forall a w,
  installs a = false -> single_timer w -> single_timer (exec a w).
Proof.
  induction a; intros w Hi Hw; simpl in *; try exact Hw; try discriminate.
  - destruct Hw as (Hl & Hin & Hh & Hn). split; [|split; [|split]]; simpl; auto.
    + pose proof (clearInterval_length (pollingIntervalRef w) (intervals w)). lia.
    + intros i H. apply Hin. eapply clearInterval_In; eauto.
  - destruct (ref_truthy (pollingIntervalRef w)); auto.
Qed.

Lemma install_single_timer : forall taskId env w,
  single_timer w ->
  let w' := run [IfPollingIntervalRef ClearPollingInterval;
                 SetPollingInterval taskId env] w in
  single_timer w' /\
  intervals w' =
    [{| handle := nextHandle w; iv_task := taskId; iv_userInfo := env |}] /\
  pollingIntervalRef w' = Some (nextHandle w).
Proof.
  intros taskId env w (Hl & Hin & Hh & Hn) w'.
  assert (E : intervals (exec (IfPollingIntervalRef ClearPollingInterval) w) = []).
  { simpl. destruct (pollingIntervalRef w) as [h|] eqn:Er; simpl.
    - destruct (N.eqb h 0) eqn:E0; simpl.
      + apply N.eqb_eq in E0. specialize (Hh h eq_refl). lia.
      + apply filter_none. intros i Hi. specialize (Hin i Hi).
        injection Hin as ->. now rewrite N.eqb_refl.
    - destruct (intervals w) as [|i l]; [reflexivity|].
      specialize (Hin i (or_introl eq_refl)). congruence. }
  assert (En : nextHandle (exec (IfPollingIntervalRef ClearPollingInterval) w)
               = nextHandle w).
  { simpl. now destruct (ref_truthy (pollingIntervalRef w)). }
  subst w'. rewrite run_cons, run_cons, run_nil.
  set (w1 := exec (IfPollingIntervalRef ClearPollingInterval) w) in *.
  simpl. rewrite E, En. simpl.
  split; [split; [|split; [|split]] | split]; auto.
  - intros i [<-|[]]. reflexivity.
  - intros h H. simpl in *. injection H as <-. lia.
  - simpl. lia.
Qed.

Lemma run_single_timer : forall p w,
  disciplined p = true -> single_timer w -> single_timer (run p w).
Proof.
  intro p. remember (length p) as n eqn:En.
  revert p En. induction n as [n IH] using lt_wf_ind. intros p En w Hd Hw.
  destruct p as [|a p]; [exact Hw|].
  assert (generic : negb (installs a) && disciplined p = true ->
                    single_timer (run (a :: p) w)).
  { intro H. apply andb_true_iff in H. destruct H as [Ha Hp].
    rewrite run_cons. apply (IH (length p)); auto.
    - subst n. simpl. lia.
    - apply exec_single_timer; [|exact Hw]. now destruct (installs a). }
  destruct a; try (apply generic; exact Hd).
  destruct a; try (apply generic; exact Hd).
  destruct p as [|b p]; try (apply generic; exact Hd).
  destruct b; try (apply generic; exact Hd).
  simpl in Hd.
  change (single_timer
            (run p (run [IfPollingIntervalRef ClearPollingInterval;
                         SetPollingInterval taskId env] w))).
  apply (IH (length p)); auto.
  - subst n. simpl. lia.
  - now apply install_single_timer.
Qed.

Lemma exec_userInfo_mono : forall a w,
  is_some (userInfo w) = true -> is_some (userInfo (exec a w)) = true.
Proof.
  induction a; intros w H; simpl; auto.
  destruct (ref_truthy (pollingIntervalRef w)); auto.
Qed.

Lemma env_closed_mono : forall a u u',
  (is_some u = true -> is_some u' = true) ->
  env_closed u a = true -> env_closed u' a = true.
Proof.
  induction a; intros ui ui' H E; simpl in *; eauto;
    destruct (is_some env); simpl in *; auto.
Qed.

Lemma exec_closures_ok : forall a w,
  env_closed (userInfo w) a = true -> closures_ok w -> closures_ok (exec a w).
Proof.
  induction a; intros w He Hw; simpl in *; try exact Hw.
  - intro H. discriminate.
  - intro H. destruct (Hw H) as (Hi & Hp & Hg). repeat split; simpl; auto.
    intros i Hin. apply Hi. eapply clearInterval_In; eauto.
  - destruct (ref_truthy (pollingIntervalRef w)); auto.
  - intro H. simpl in H. destruct (Hw H) as (Hi & Hp & Hg). rewrite H in He.
    repeat split; simpl; auto.
    intros i Hin. apply in_app_or in Hin. destruct Hin as [Hin|[<-|[]]]; auto.
    simpl. destruct env; [discriminate | reflexivity].
  - intro H. simpl in H. destruct (Hw H) as (Hi & Hp & Hg). rewrite H in He.
    repeat split; simpl; auto.
    intros i Hin. apply in_app_or in Hin. destruct Hin as [Hin|[<-|[]]]; auto.
    simpl. destruct env; [discriminate | reflexivity].
  - intro H. simpl in H. destruct (Hw H) as (Hi & Hp & Hg). rewrite H in He.
    repeat split; simpl; auto.
    intros i Hin. apply in_app_or in Hin. destruct Hin as [Hin|[<-|[]]]; auto.
    simpl. destruct env; [discriminate | reflexivity].
Qed.

Lemma run_closures_ok : forall p w,
  forallb (env_closed (userInfo w)) p = true ->
  closures_ok w -> closures_ok (run p w).
Proof.
  induction p as [|a p IH]; intros w Hp Hw; [exact Hw|].
  simpl in Hp. apply andb_true_iff in Hp. destruct Hp as [Ha Hp].
  rewrite run_cons. apply IH.
  - rewrite forallb_forall in *. intros b Hb.
    apply env_closed_mono with (u := userInfo w); auto.
    apply exec_userInfo_mono.
  - now apply exec_closures_ok.
Qed.

Lemma exec_started : forall a w,
  steady a = true -> started w -> started (exec a w).
Proof.
  induction a; intros w Hs Hw; simpl in *; try exact Hw; try discriminate.
  - destruct Hw as [Hm Ht]. split; simpl; [|exact Ht].
    destruct u as [ms|m|ms]; simpl; try discriminate.
    + intro E. apply app_eq_nil in E. tauto.
    + intro E. apply app_eq_nil in E. destruct E; discriminate.
  - destruct (ref_truthy (pollingIntervalRef w)); auto.
Qed.

Lemma run_started : forall p w,
  forallb steady p = true -> started w -> started (run p w).
Proof.
  induction p as [|a p IH]; intros w Hp Hw; [exact Hw|].
  simpl in Hp. apply andb_true_iff in Hp. destruct Hp as [Ha Hp].
  rewrite run_cons. apply IH; [assumption|]. now apply exec_started.
Qed.

Lemma run_wf : forall p w,
  script_ok (userInfo w) p = true -> wf w -> wf (run p w).
Proof.
  intros p w H (Ht & Hc & Hs). unfold script_ok in H.
  apply andb_true_iff in H. destruct H as [H H3].
  apply andb_true_iff in H. destruct H as [H1 H2].
  split; [|split].
  - now apply run_single_timer.
  - now apply run_closures_ok.
  - now apply run_started.
Qed.

Lemma settles_wf : forall w w', settles w w' -> wf w -> wf w'.
Proof.
  intros w w' (ps & gs & -> & Hp & Hg) (Ht & Hc & Hs).
  split; [exact Ht | split; [|exact Hs]].
  intro H. destruct (Hc H) as (Hi & Hpp & Hgg). simpl. auto.
Qed.


Lemma settles_post : forall w k,
  settles w (with_posts (remove_nth k (posts w)) w).
Proof.
  intros w k. exists (remove_nth k (posts w)), (gets w). split; [|split].
  - now destruct w.
  - intros x. apply nth_error_remove_nth_In.
  - apply incl_refl.
Qed.

Lemma settles_get : forall w k,
  settles w (with_gets (remove_nth k (gets w)) w).
Proof.
  intros w k. exists (posts w), (remove_nth k (gets w)). split; [|split].
  - now destruct w.
  - apply incl_refl.
  - intros x. apply nth_error_remove_nth_In.
Qed.

Lemma implb_same : forall b, implb b b = true.
Proof. now destruct b. Qed.

Lemma exec_as_run : forall a w, exec a w = run [a] w.
Proof. reflexivity. Qed.

Lemma closure_of_post : forall w p,
  closures_ok w -> In p (posts w) ->
  is_some (post_userInfo p) = true -> is_some (userInfo w) = true.
Proof.
  intros w p Hc Hin H. destruct (userInfo w) eqn:E; [reflexivity|].
  destruct (Hc E) as (_ & Hp & _). rewrite (Hp p Hin) in H. discriminate.
Qed.


Lemma closure_of_interval : forall w i,
  closures_ok w -> In i (intervals w) ->
  is_some (iv_userInfo i) = true -> is_some (userInfo w) = true.
Proof.
  intros w i Hc Hin H. destruct (userInfo w) eqn:E; [reflexivity|].
  destruct (Hc E) as (Hi & _ & _). rewrite (Hi i Hin) in H. discriminate.
Qed.

Lemma find_interval_In : forall h l i,
  find_interval h l = Some i -> In i l /\ handle i = h.
Proof.
  intros h l i H. apply find_some in H. destruct H as [Hin E].
  apply N.eqb_eq in E. auto.
Qed.

Lemma initial_wf_after : forall p,
  forallb (env_closed None) p = true ->
  disciplined p = true ->
  messages (run p initial) <> [] ->
  Js.truthy_opt (threadId (run p initial)) = true ->
  userInfo (run p initial) = None ->
  wf (run p initial).
Proof.
  intros p He Hd Hm Ht Hu. split; [|split].
  - apply run_single_timer; [assumption|]. unfold single_timer, initial; simpl.
    split; [|split; [|split]]; try lia; try discriminate; try contradiction.
  - apply run_closures_ok; [assumption|]. intros _. simpl. repeat split; intros ? [].
  - split; assumption.
Qed.

(** ** The widget with contact form: well-formedness of reachable states *)

Module WidgetInv.
Import Widget.

Lemma widget_handleSendMessage_ok : forall w arg,
  script_ok (userInfo w) (script (handleSendMessage w arg)) = true.
Proof.
  intros w arg. unfold handleSendMessage.
  destruct (negb _ || isLoading w || negb _); [reflexivity|].
  unfold script_ok. simpl. now rewrite implb_same.
Qed.

Lemma widget_pollForResult_ok : forall u env t,
  (is_some env = true -> is_some u = true) ->
  script_ok u (script (pollForResult env t)) = true.
Proof.
  intros u env t H. unfold script_ok. simpl.
  destruct (is_some env); [now rewrite H | reflexivity].
Qed.

Lemma widget_handleSendMessage_resume_ok : forall u env r,
  (is_some env = true -> is_some u = true) ->
  script_ok u (script (handleSendMessage_resume env r)) = true.
Proof.
  intros u env r H. unfold handleSendMessage_resume.
  destruct r as [e|[[t|] d]]; try reflexivity.
  unfold await, bind, try_catch. cbn [task_id].
  destruct (Js.truthy t); [|reflexivity].
  apply (widget_pollForResult_ok u env t H).
Qed.

Lemma widget_pollCallback_resume_ok : forall u env r,
  script_ok u (script (pollCallback_resume env r)) = true.
Proof.
  intros u env r. unfold pollCallback_resume.
  destruct r as [e|a]; [reflexivity|].
  unfold await, bind, try_catch, when.
  destruct (is_contact_info _ && _);
    destruct (Js.eqb (status a) (Js.lit "completed"));
    destruct (Js.eqb (status a) (Js.lit "failed"));
    destruct (result a); reflexivity.
Qed.

Lemma widget_ContactForm_handleSubmit_ok : forall u name email,
  script_ok u (script (ContactForm_handleSubmit name email)) = true.
Proof.
  intros u name email. unfold ContactForm_handleSubmit.
  destruct (Js.truthy name && Js.truthy email); reflexivity.
Qed.

Lemma widget_mount_wf : forall now, wf (mount now).
Proof.
  intro now. unfold mount, perform. apply initial_wf_after; try reflexivity.
  discriminate.
Qed.

Lemma widget_step_wf : forall w e, wf w -> wf (step w e).
Proof.
  intros w e Hw. destruct e as [v| |key|index|name email|h|k r|k r]; unfold step.
  - destruct (isLoading w); [assumption|]. rewrite exec_as_run. now apply run_wf.
  - destruct (isLoading w); [assumption|].
    apply run_wf; [apply widget_handleSendMessage_ok | assumption].
  - destruct (isLoading w); [assumption|]. unfold handleKeyPress.
    destruct (Js.eqb key (Js.lit "Enter") && negb (isLoading w)).
    + apply run_wf; [apply widget_handleSendMessage_ok | assumption].
    + assumption.
  - destruct (nth_error (suggestedReplies w) index); [|assumption].
    apply run_wf; [apply widget_handleSendMessage_ok | assumption].
  - destruct (showContactForm w); [|assumption].
    apply run_wf; [apply widget_ContactForm_handleSubmit_ok | assumption].
  - destruct (find_interval h (intervals w)) as [i|] eqn:E; [|assumption].
    apply find_interval_In in E. destruct E as [Hin _].
    apply run_wf; [|assumption].
    unfold script_ok. simpl. rewrite andb_true_r.
    destruct (is_some (iv_userInfo i)) eqn:Ei; [|reflexivity].
    simpl. apply (closure_of_interval w i); try assumption. apply Hw.
  - destruct (nth_error (posts w) k) as [p|] eqn:E; [|assumption].
    apply nth_error_In in E.
    apply run_wf.
    + apply widget_handleSendMessage_resume_ok. simpl.
      apply (closure_of_post w p); [apply Hw | assumption].
    + eapply settles_wf; [apply settles_post | assumption].
  - destruct (nth_error (gets w) k) as [g|] eqn:E; [|assumption].
    apply run_wf.
    + apply widget_pollCallback_resume_ok.
    + eapply settles_wf; [apply settles_get | assumption].
Qed.

Lemma widget_reachable_wf : forall w, reachable w -> wf w.
Proof.
  intros w H. induction H as [now | w e _ IH].
  - apply widget_mount_wf.
  - now apply widget_step_wf.
Qed.

Lemma widget_steps_reachable : forall es w, reachable w -> reachable (steps w es).
Proof.
  induction es as [|e es IH]; intros w H; [exact H|].
  simpl. apply IH. now constructor.
Qed.

End WidgetInv.

(** ** C2: a refused send is a no-op *)

Lemma trim_falsy : forall t, Js.trim t = [] -> Js.truthy (Js.trim t) = false.
Proof. intros t ->. reflexivity. Qed.

Lemma refused_guard : forall w t,
  send_refused w t ->
  negb (Js.truthy (Js.trim t)) || isLoading w || negb (Js.truthy_opt (threadId w))
  = true.
Proof.
  intros w t [H|[H|H]].
  - now rewrite (trim_falsy t H).
  - rewrite H. now rewrite orb_true_r.
  - rewrite H. now rewrite orb_true_r.
Qed.

Lemma accepted_guard : forall w t,
  send_accepted w t ->
  negb (Js.truthy (Js.trim t)) || isLoading w || negb (Js.truthy_opt (threadId w))
  = false.
Proof.
  intros w t (H1 & H2 & H3). rewrite H2, H3.
  destruct (Js.trim t); [congruence | reflexivity].
Qed.

(** C2. When the text is empty after trimming, or a task is pending
    ([isLoading]), or the session id is absent, the send handler returns
    at once: its script is empty, it raises nothing, and the whole state of
    the component (transcript, [isLoading], suggestions and everything
    else) is unchanged.  This holds of [handleSendMessage] of the widget
    with contact form, called with or without argument, and of the send
    handlers of the two components of [App.js]. *)
Theorem refused_send_is_noop :
  forall (w : App),
    (forall arg,
        send_refused w (Widget.default_inputValue w arg) ->
        Widget.handleSendMessage w arg = ret tt /\
        perform (Widget.handleSendMessage w arg) w = w) /\
    (send_refused w (inputValue w) ->
        PollingApp.handleSendMessage w = ret tt /\
        perform (PollingApp.handleSendMessage w) w = w /\
        SimpleApp.sendMessage w = ret tt /\
        perform (SimpleApp.sendMessage w) w = w).
Proof.
  intro w. split.
  - intros arg H. apply refused_guard in H.
    unfold Widget.handleSendMessage. cbv zeta. rewrite H. split; reflexivity.
  - intro H. apply refused_guard in H.
    unfold PollingApp.handleSendMessage, SimpleApp.sendMessage. rewrite H.
    repeat split; reflexivity.
Qed.

Lemma refused_send_is_noop_witness :
  send_refused (Widget.mount 0) (Js.lit "  ") /\
  perform (Widget.handleSendMessage (Widget.mount 0) (Some (Js.lit "  ")))
          (Widget.mount 0) = Widget.mount 0.
Proof.
  assert (H : send_refused (Widget.mount 0) (Js.lit "  ")) by (left; reflexivity).
  split; [exact H|].
  exact (proj2 (proj1 (refused_send_is_noop (Widget.mount 0))
                      (Some (Js.lit "  ")) H)).
Defined.

(** The script of an accepted send. *)
Lemma accepted_send_script : forall w arg,
  send_accepted w (Widget.default_inputValue w arg) ->
  script (Widget.handleSendMessage w arg)
  = [ SetMessages (Append [plain user (Widget.default_inputValue w arg); Widget.thinking]);
      SetIsLoading true; SetInputValue []; SetSuggestedReplies [];
      AxiosPost {| message := Some (Widget.default_inputValue w arg);
                   thread_id := threadId w |} (userInfo w) ].
Proof.
  intros w arg H. unfold Widget.handleSendMessage. cbv zeta.
  rewrite (accepted_guard w _ H). reflexivity.
Qed.

(** ** C9: selecting a suggestion is a send *)

(** Typing a text and clicking Send, when the send is accepted. *)
Lemma typed_send : forall w text,
  send_accepted w text ->
  Widget.steps w [Widget.Change text; Widget.ClickSend]
  = perform (Widget.handleSendMessage w (Some text)) w.
Proof.
  intros w text Ha. pose proof Ha as (Ht & Hl & Hth).
  unfold Widget.steps. cbn [fold_left]. unfold Widget.step at 2. rewrite Hl.
  set (w' := exec (SetInputValue text) w).
  assert (Ha' : send_accepted w' (Widget.default_inputValue w' None)).
  { split; [exact Ht | split; [exact Hl | exact Hth]]. }
  unfold Widget.step. change (isLoading w') with (isLoading w). rewrite Hl.
  pose proof (accepted_send_script w' None Ha') as E'.
  pose proof (accepted_send_script w (Some text) Ha) as E.
  unfold perform. rewrite E', E. reflexivity.
Qed.

(** C9. [handleSuggestionSelect(text)] is [handleSendMessage(text)]: the
    two produce the same script, hence the same transition from every
    state of the component, followed by the same behaviour on every later
    sequence of events; a send without argument is the send of the current
    input value; clicking the suggestion button that shows [text] is that
    send; and when the send is accepted it leaves the component in the
    state in which typing [text] and clicking Send leaves it. *)
Theorem select_suggestion_is_send :
  forall (render w : App) (text : jsstring) (es : list Widget.event),
    Widget.handleSuggestionSelect render text
    = Widget.handleSendMessage render (Some text) /\
    perform (Widget.handleSuggestionSelect render text) w
    = perform (Widget.handleSendMessage render (Some text)) w /\
    Widget.steps (perform (Widget.handleSuggestionSelect render text) w) es
    = Widget.steps (perform (Widget.handleSendMessage render (Some text)) w) es /\
    Widget.handleSendMessage render None
    = Widget.handleSendMessage render (Some (inputValue render)) /\
    (forall index,
        nth_error (suggestedReplies w) index = Some text ->
        Widget.step w (Widget.SelectSuggestion index)
        = perform (Widget.handleSendMessage w (Some text)) w) /\
    (send_accepted w text ->
     perform (Widget.handleSuggestionSelect w text) w
     = Widget.steps w [Widget.Change text; Widget.ClickSend]).
Proof.
  intros render w text es.
  split; [reflexivity|]. split; [reflexivity|]. split; [reflexivity|].
  split; [reflexivity|]. split.
  - intros index H. unfold Widget.step. now rewrite H.
  - intro Ha. symmetry. now apply typed_send.
Qed.

Lemma select_suggestion_is_send_witness :
  send_accepted (Widget.mount 0) Example.hi /\
  perform (Widget.handleSuggestionSelect (Widget.mount 0) Example.hi) (Widget.mount 0)
  = Widget.steps (Widget.mount 0) [Widget.Change Example.hi; Widget.ClickSend].
Proof.
  assert (Ha : send_accepted (Widget.mount 0) Example.hi).
  { split; [discriminate | split; reflexivity]. }
  split; [exact Ha|].
  exact (proj2 (proj2 (proj2 (proj2 (proj2
    (select_suggestion_is_send (Widget.mount 0) (Widget.mount 0) Example.hi []))))) Ha).
Defined.

(** ** C7: the optimistic update of a send *)

(** C7. An accepted send emits, in this order: one [setMessages] that
    appends the user message and the loading placeholder together,
    [setIsLoading(true)], [setInputValue('')], [setSuggestedReplies([])],
    and then the submit request.  It is the only transcript update of the
    script; after every prefix of the script the transcript is either the
    old one or the old one with both entries; and when the request is
    issued the transcript has both entries, [isLoading] is true and the
    suggestions are empty. *)
Theorem accepted_send_appends_pair_at_once :
  forall (w : App) (arg : option jsstring),
    let messageText := Widget.default_inputValue w arg in
    let request :=
      AxiosPost {| message := Some messageText; thread_id := threadId w |}
                (userInfo w) in
    let p := script (Widget.handleSendMessage w arg) in
    send_accepted w messageText ->
    p = [ SetMessages (Append [plain user messageText; Widget.thinking]);
          SetIsLoading true; SetInputValue []; SetSuggestedReplies []; request ] /\
    transcript_updates p = 1%nat /\
    (forall n,
        messages (run (firstn n p) w) = messages w \/
        messages (run (firstn n p) w)
        = messages w ++ [plain user messageText; Widget.thinking]) /\
    (let before_request := run (firstn 4 p) w in
     messages before_request = messages w ++ [plain user messageText; Widget.thinking] /\
     isLoading before_request = true /\
     suggestedReplies before_request = [] /\
     posts before_request = posts w) /\
    posts (run p w)
    = posts w ++ [{| post_body := {| message := Some messageText; thread_id := threadId w |};
                     post_userInfo := userInfo w |}].
Proof.
  intros w arg messageText request p H.
  assert (E : p = [ SetMessages (Append [plain user messageText; Widget.thinking]);
                    SetIsLoading true; SetInputValue []; SetSuggestedReplies [];
                    request ]).
  { subst p. now apply accepted_send_script. }
  rewrite E. split; [reflexivity|]. split; [reflexivity|]. split; [|split].
  - intro n. do 5 (destruct n as [|n]; [simpl; auto|]).
    simpl. rewrite firstn_nil. simpl. auto.
  - simpl. auto.
  - reflexivity.
Qed.

Lemma accepted_send_appends_pair_at_once_witness :
  send_accepted (Widget.mount 0) (Js.lit "hi") /\
  transcript_updates
    (script (Widget.handleSendMessage (Widget.mount 0) (Some (Js.lit "hi")))) = 1%nat.
Proof.
  assert (H : send_accepted (Widget.mount 0) (Js.lit "hi")).
  { split; [discriminate | split; reflexivity]. }
  split; [exact H|].
  exact (proj1 (proj2
    (accepted_send_appends_pair_at_once (Widget.mount 0) (Some (Js.lit "hi")) H))).
Defined.

(** ** What each continuation does to the state *)

Lemma filter_idem : forall (A : Type) (f : A -> bool) l,
  filter f (filter f l) = filter f l.
Proof.
  intros A f l. induction l as [|x l IH]; simpl; [reflexivity|].
  destruct (f x) eqn:E; simpl; [rewrite E; now f_equal | assumption].
Qed.

Lemma clearInterval_idem : forall h l,
  clearInterval h (clearInterval h l) = clearInterval h l.
Proof. intros [n|] l; simpl; [apply filter_idem | reflexivity]. Qed.


Module WidgetFacts.
Import Widget.

(** A resolving status response, or a rejection, ends in [resolved]. *)
Lemma widget_poll_resolution : forall u r w,
  resolving r = true ->
  perform (pollCallback_resume u r) w = resolved (resolution_message r) w.
Proof.
  intros u r w H. destruct r as [e|a]; [reflexivity|].
  unfold resolving in H. unfold resolution_message.
  unfold perform, pollCallback_resume, await, bind, try_catch, when.
  destruct (is_contact_info (form_to_display a) && negb (is_some u));
    destruct (Js.eqb (status a) (Js.lit "completed")) eqn:Ec.
  1,3: destruct (result a) as [x|]; unfold resolved; simpl;
       try rewrite clearInterval_idem; reflexivity.
  all: simpl in H; rewrite H; reflexivity.
Qed.

(** Any other status response at most raises the form flag. *)
Lemma widget_poll_pending : forall u a w,
  resolving (inr a) = false ->
  perform (pollCallback_resume u (inr a)) w
  = if is_contact_info (form_to_display a) && negb (is_some u)
    then exec (SetShowContactForm true) w else w.
Proof.
  intros u a w H. unfold resolving in H. apply orb_false_iff in H.
  destruct H as [Hc Hf].
  unfold perform, pollCallback_resume, await, bind, try_catch, when.
  rewrite Hc, Hf.
  destruct (is_contact_info (form_to_display a) && negb (is_some u)); reflexivity.
Qed.

(** An unsuccessful submit ends in [submit_failed]. *)
Lemma widget_submit_failure : forall u r w,
  submit_fails r = true ->
  perform (handleSendMessage_resume u r) w
  = replaced_last
      (error_message
         (Js.or_else (exn_detail (submit_error r))
                     (Js.lit "Could not connect to the assistant."))) w.
Proof.
  intros u r w H. destruct r as [e|[[t|] d]]; try reflexivity.
  simpl in H. unfold perform, handleSendMessage_resume, await, bind, try_catch.
  cbn [task_id]. destruct (Js.truthy t); [discriminate | reflexivity].
Qed.

(** A submit that returns a task id starts the poll. *)
Lemma widget_submit_success : forall u t d w,
  Js.truthy t = true ->
  perform (handleSendMessage_resume u (inr {| task_id := Some t; data_reply := d |})) w
  = run [IfPollingIntervalRef ClearPollingInterval; SetPollingInterval t u] w.
Proof.
  intros u t d w H.
  unfold perform, handleSendMessage_resume, await, bind, try_catch.
  cbn [task_id]. rewrite H. reflexivity.
Qed.

End WidgetFacts.

(** ** The components of [App.js]: well-formedness and continuations *)

Module PollingAppInv.
Import PollingApp.

Lemma polling_handleSendMessage_ok : forall w,
  script_ok (userInfo w) (script (handleSendMessage w)) = true.
Proof.
  intros w. unfold handleSendMessage.
  destruct (negb _ || isLoading w || negb _); reflexivity.
Qed.

Lemma polling_handleSendMessage_resume_ok : forall u r,
  script_ok u (script (handleSendMessage_resume r)) = true.
Proof.
  intros u r. unfold handleSendMessage_resume.
  destruct r as [e|[[t|] d]]; try reflexivity.
  unfold await, bind, try_catch. cbn [task_id].
  destruct (Js.truthy t); reflexivity.
Qed.

Lemma polling_pollCallback_resume_ok : forall u r,
  script_ok u (script (pollCallback_resume r)) = true.
Proof.
  intros u r. unfold pollCallback_resume.
  destruct r as [e|a]; [reflexivity|].
  unfold await, bind, try_catch.
  destruct (Js.eqb (status a) (Js.lit "completed"));
    destruct (Js.eqb (status a) (Js.lit "failed"));
    destruct (result a); reflexivity.
Qed.

Lemma polling_mount_wf : forall now, wf (mount now).
Proof.
  intro now. unfold mount, perform. apply initial_wf_after; try reflexivity.
  discriminate.
Qed.

Lemma polling_step_wf : forall w e, wf w -> wf (step w e).
Proof.
  intros w e Hw. destruct e as [v| |key|h|k r|k r]; unfold step.
  - destruct (isLoading w); [assumption|]. rewrite exec_as_run. now apply run_wf.
  - destruct (isLoading w); [assumption|].
    apply run_wf; [apply polling_handleSendMessage_ok | assumption].
  - destruct (isLoading w); [assumption|]. unfold handleKeyPress.
    destruct (Js.eqb key (Js.lit "Enter") && negb (isLoading w)).
    + apply run_wf; [apply polling_handleSendMessage_ok | assumption].
    + assumption.
  - destruct (find_interval h (intervals w)) as [i|]; [|assumption].
    now apply run_wf.
  - destruct (nth_error (posts w) k) as [p|]; [|assumption].
    apply run_wf.
    + apply polling_handleSendMessage_resume_ok.
    + eapply settles_wf; [apply settles_post | assumption].
  - destruct (nth_error (gets w) k) as [g|]; [|assumption].
    apply run_wf.
    + apply polling_pollCallback_resume_ok.
    + eapply settles_wf; [apply settles_get | assumption].
Qed.

Lemma polling_reachable_wf : forall w, reachable w -> wf w.
Proof.
  intros w H. induction H as [now | w e _ IH].
  - apply polling_mount_wf.
  - now apply polling_step_wf.
Qed.

Lemma polling_poll_resolution : forall r w,
  resolving r = true ->
  perform (pollCallback_resume r) w
  = mkApp (Js.slice_0_m1 (messages w) ++ [resolution_message r]) (inputValue w)
          false (threadId w) (suggestedReplies w) (showContactForm w) (userInfo w)
          (pollingIntervalRef w)
          (clearInterval (pollingIntervalRef w) (intervals w))
          (nextHandle w) (posts w) (gets w).
Proof.
  intros r w H. destruct r as [e|a]; [reflexivity|].
  unfold resolving in H. unfold resolution_message.
  unfold perform, pollCallback_resume, await, bind, try_catch.
  destruct (Js.eqb (status a) (Js.lit "completed")) eqn:Ec.
  - destruct (result a) as [x|]; simpl;
      try rewrite clearInterval_idem; reflexivity.
  - simpl in H. rewrite H. reflexivity.
Qed.

Lemma polling_poll_pending : forall a w,
  resolving (inr a) = false ->
  perform (pollCallback_resume (inr a)) w = w.
Proof.
  intros a w H. unfold resolving in H. apply orb_false_iff in H.
  destruct H as [Hc Hf].
  unfold perform, pollCallback_resume, await, bind, try_catch.
  rewrite Hc, Hf. reflexivity.
Qed.

Lemma polling_submit_failure : forall r w,
  submit_fails r = true ->
  perform (handleSendMessage_resume r) w
  = replaced_last
      (error_message
         (Js.or_else (exn_detail (submit_error r))
                     (Js.lit "Could not connect to the assistant."))) w.
Proof.
  intros r w H. destruct r as [e|[[t|] d]]; try reflexivity.
  simpl in H. unfold perform, handleSendMessage_resume, await, bind, try_catch.
  cbn [task_id]. destruct (Js.truthy t); [discriminate | reflexivity].
Qed.

Lemma polling_submit_success : forall t d w,
  Js.truthy t = true ->
  perform (handleSendMessage_resume (inr {| task_id := Some t; data_reply := d |})) w
  = run [IfPollingIntervalRef ClearPollingInterval; SetPollingInterval t None] w.
Proof.
  intros t d w H.
  unfold perform, handleSendMessage_resume, await, bind, try_catch.
  cbn [task_id]. rewrite H. reflexivity.
Qed.

End PollingAppInv.

Module SimpleAppInv.
Import SimpleApp.

Lemma simple_sendMessage_ok : forall w,
  script_ok (userInfo w) (script (sendMessage w)) = true.
Proof.
  intros w. unfold sendMessage.
  destruct (negb _ || isLoading w || negb _); reflexivity.
Qed.

Lemma simple_sendMessage_resume_ok : forall u r,
  script_ok u (script (sendMessage_resume r)) = true.
Proof. intros u [e|a]; reflexivity. Qed.

Lemma simple_mount_wf : forall token, wf (mount token).
Proof.
  intro token. unfold mount, perform. apply initial_wf_after; try reflexivity.
  discriminate.
Qed.

Lemma simple_step_wf : forall w e, wf w -> wf (step w e).
Proof.
  intros w e Hw. destruct e as [v| |key|k r]; unfold step.
  - destruct (isLoading w); [assumption|]. rewrite exec_as_run. now apply run_wf.
  - destruct (isLoading w); [assumption|].
    apply run_wf; [apply simple_sendMessage_ok | assumption].
  - destruct (isLoading w); [assumption|].
    destruct (Js.eqb key (Js.lit "Enter")); [|assumption].
    apply run_wf; [apply simple_sendMessage_ok | assumption].
  - destruct (nth_error (posts w) k) as [p|]; [|assumption].
    apply run_wf.
    + apply simple_sendMessage_resume_ok.
    + eapply settles_wf; [apply settles_post | assumption].
Qed.

Lemma simple_reachable_wf : forall w, reachable w -> wf w.
Proof.
  intros w H. induction H as [token | w e _ IH].
  - apply simple_mount_wf.
  - now apply simple_step_wf.
Qed.

(** The entry a settled request puts in the transcript. *)
Lemma simple_settle_effect : forall r w,
  perform (sendMessage_resume r) w
  = replaced_last
      (match r with
       | inr response =>
           {| type := bot; text := data_reply response;
              msgIsLoading := false; isError := false |}
       | inl error => error_message (errorText error)
       end) w.
Proof. intros [e|a] w; reflexivity. Qed.

End SimpleAppInv.

(** ** C10: the transcript never shrinks *)

Lemma exec_length_mono : forall a w,
  steady a = true -> (length (messages w) <= length (messages (exec a w)))%nat.
Proof.
  induction a; intros w H; simpl in *; try lia.
  - apply updater_length_mono. destruct u; [exact I | exact I | discriminate].
  - destruct (ref_truthy (pollingIntervalRef w)); [now apply IHa | lia].
Qed.

Lemma run_length_mono : forall p w,
  forallb steady p = true -> (length (messages w) <= length (messages (run p w)))%nat.
Proof.
  induction p as [|a p IH]; intros w H; [simpl; lia|].
  simpl in H. apply andb_true_iff in H. destruct H as [Ha Hp].
  rewrite run_cons. specialize (IH (exec a w) Hp).
  pose proof (exec_length_mono a w Ha). lia.
Qed.

Lemma script_ok_steady : forall u p, script_ok u p = true -> forallb steady p = true.
Proof.
  intros u p H. unfold script_ok in H.
  apply andb_true_iff in H. destruct H as [H _].
  apply andb_true_iff in H. tauto.
Qed.

Lemma replaced_length : forall m w,
  messages w <> [] ->
  length (Js.slice_0_m1 (messages w) ++ [m]) = length (messages w).
Proof. intros m w H. exact (replace_last_length m (messages w) H). Qed.

Lemma widget_step_length : forall w e,
  (length (messages w) <= length (messages (Widget.step w e)))%nat.
Proof.
  intros w e.
  destruct e as [v| |key|index|name email|h|k r|k r]; unfold Widget.step.
  - destruct (isLoading w); simpl; lia.
  - destruct (isLoading w); [lia|].
    apply run_length_mono, (script_ok_steady (userInfo w)), WidgetInv.widget_handleSendMessage_ok.
  - destruct (isLoading w); [lia|]. unfold Widget.handleKeyPress.
    destruct (Js.eqb key (Js.lit "Enter") && negb (isLoading w)); [|apply le_n].
    apply run_length_mono, (script_ok_steady (userInfo w)), WidgetInv.widget_handleSendMessage_ok.
  - destruct (nth_error (suggestedReplies w) index); [|lia].
    apply run_length_mono, (script_ok_steady (userInfo w)), WidgetInv.widget_handleSendMessage_ok.
  - destruct (showContactForm w); [|lia].
    apply run_length_mono, (script_ok_steady None), WidgetInv.widget_ContactForm_handleSubmit_ok.
  - destruct (find_interval h (intervals w)); apply le_n.
  - destruct (nth_error (posts w) k) as [p|]; [|lia].
    change (messages w) with (messages (with_posts (remove_nth k (posts w)) w)) at 1.
    apply run_length_mono, (script_ok_steady (post_userInfo p)),
      WidgetInv.widget_handleSendMessage_resume_ok. auto.
  - destruct (nth_error (gets w) k) as [g|]; [|lia].
    change (messages w) with (messages (with_gets (remove_nth k (gets w)) w)) at 1.
    apply run_length_mono, (script_ok_steady None), WidgetInv.widget_pollCallback_resume_ok.
Qed.

Lemma polling_step_length : forall w e,
  (length (messages w) <= length (messages (PollingApp.step w e)))%nat.
Proof.
  intros w e. destruct e as [v| |key|h|k r|k r]; unfold PollingApp.step.
  - destruct (isLoading w); simpl; lia.
  - destruct (isLoading w); [lia|].
    apply run_length_mono, (script_ok_steady (userInfo w)),
      PollingAppInv.polling_handleSendMessage_ok.
  - destruct (isLoading w); [lia|]. unfold PollingApp.handleKeyPress.
    destruct (Js.eqb key (Js.lit "Enter") && negb (isLoading w)); [|apply le_n].
    apply run_length_mono, (script_ok_steady (userInfo w)),
      PollingAppInv.polling_handleSendMessage_ok.
  - destruct (find_interval h (intervals w)); apply le_n.
  - destruct (nth_error (posts w) k) as [p|]; [|lia].
    change (messages w) with (messages (with_posts (remove_nth k (posts w)) w)) at 1.
    apply run_length_mono, (script_ok_steady None),
      PollingAppInv.polling_handleSendMessage_resume_ok.
  - destruct (nth_error (gets w) k) as [g|]; [|lia].
    change (messages w) with (messages (with_gets (remove_nth k (gets w)) w)) at 1.
    apply run_length_mono, (script_ok_steady None),
      PollingAppInv.polling_pollCallback_resume_ok.
Qed.

Lemma simple_step_length : forall w e,
  (length (messages w) <= length (messages (SimpleApp.step w e)))%nat.
Proof.
  intros w e. destruct e as [v| |key|k r]; unfold SimpleApp.step.
  - destruct (isLoading w); simpl; lia.
  - destruct (isLoading w); [lia|].
    apply run_length_mono, (script_ok_steady (userInfo w)), SimpleAppInv.simple_sendMessage_ok.
  - destruct (isLoading w); [lia|].
    destruct (Js.eqb key (Js.lit "Enter")); [|lia].
    apply run_length_mono, (script_ok_steady (userInfo w)), SimpleAppInv.simple_sendMessage_ok.
  - destruct (nth_error (posts w) k) as [p|]; [|lia].
    change (messages w) with (messages (with_posts (remove_nth k (posts w)) w)) at 1.
    apply run_length_mono, (script_ok_steady None), SimpleAppInv.simple_sendMessage_resume_ok.
Qed.

(** C10. In every reachable state of each of the three components, no
    event makes the transcript shorter, and every resolution keeps its
    length by writing [prev.slice(0, -1)] followed by exactly one entry,
    which is not a placeholder: a resolving status response or a rejected
    status request writes the reply or the error entry of the response;
    an unsuccessful submit writes the error entry with the detail of the
    error or the default text; in the request/response component every
    settled submit writes the reply of the response or the error entry
    with the text chosen for the error. *)
Theorem resolution_replaces_one_for_one :
  (forall w, Widget.reachable w ->
     (forall e, (length (messages w) <= length (messages (Widget.step w e)))%nat) /\
     (forall k g r,
         nth_error (gets w) k = Some g -> resolving r = true ->
         let w' := Widget.step w (Widget.GetSettled k r) in
         messages w' = Js.slice_0_m1 (messages w) ++ [resolution_message r] /\
         msgIsLoading (resolution_message r) = false /\
         length (messages w') = length (messages w)) /\
     (forall k p r,
         nth_error (posts w) k = Some p -> submit_fails r = true ->
         let w' := Widget.step w (Widget.PostSettled k r) in
         messages w'
         = Js.slice_0_m1 (messages w) ++ [error_message (submit_error_text r)] /\
         length (messages w') = length (messages w))) /\
  (forall w, PollingApp.reachable w ->
     (forall e, (length (messages w) <= length (messages (PollingApp.step w e)))%nat) /\
     (forall k g r,
         nth_error (gets w) k = Some g -> resolving r = true ->
         let w' := PollingApp.step w (PollingApp.GetSettled k r) in
         messages w' = Js.slice_0_m1 (messages w) ++ [resolution_message r] /\
         msgIsLoading (resolution_message r) = false /\
         length (messages w') = length (messages w)) /\
     (forall k p r,
         nth_error (posts w) k = Some p -> submit_fails r = true ->
         let w' := PollingApp.step w (PollingApp.PostSettled k r) in
         messages w'
         = Js.slice_0_m1 (messages w) ++ [error_message (submit_error_text r)] /\
         length (messages w') = length (messages w))) /\
  (forall w, SimpleApp.reachable w ->
     (forall e, (length (messages w) <= length (messages (SimpleApp.step w e)))%nat) /\
     (forall k p r,
         nth_error (posts w) k = Some p ->
         let w' := SimpleApp.step w (SimpleApp.PostSettled k r) in
         messages w'
         = Js.slice_0_m1 (messages w)
             ++ [match r with
                 | inr response =>
                     {| type := bot; text := data_reply response;
                        msgIsLoading := false; isError := false |}
                 | inl error => error_message (SimpleApp.errorText error)
                 end] /\
         length (messages w') = length (messages w))).
Proof.
  assert (Hres : forall r, msgIsLoading (resolution_message r) = false).
  { intros [e|a]; [reflexivity|]. unfold resolution_message.
    destruct (Js.eqb (status a) (Js.lit "completed"));
      [destruct (result a)|]; reflexivity. }
  split; [|split].
  - intros w Hr. apply WidgetInv.widget_reachable_wf in Hr.
    destruct Hr as (_ & _ & Hm & _).
    split; [apply widget_step_length | split].
    + intros k g r Hk Hr w'. subst w'. unfold Widget.step. rewrite Hk.
      rewrite WidgetFacts.widget_poll_resolution by assumption. simpl.
      split; [reflexivity | split; [apply Hres | now apply replaced_length]].
    + intros k p r Hk Hf w'. subst w'. unfold Widget.step. rewrite Hk.
      rewrite WidgetFacts.widget_submit_failure by assumption. simpl.
      split; [reflexivity | now apply replaced_length].
  - intros w Hr. apply PollingAppInv.polling_reachable_wf in Hr.
    destruct Hr as (_ & _ & Hm & _).
    split; [apply polling_step_length | split].
    + intros k g r Hk Hr w'. subst w'. unfold PollingApp.step. rewrite Hk.
      rewrite PollingAppInv.polling_poll_resolution by assumption. simpl.
      split; [reflexivity | split; [apply Hres | now apply replaced_length]].
    + intros k p r Hk Hf w'. subst w'. unfold PollingApp.step. rewrite Hk.
      rewrite PollingAppInv.polling_submit_failure by assumption. simpl.
      split; [reflexivity | now apply replaced_length].
  - intros w Hr. apply SimpleAppInv.simple_reachable_wf in Hr.
    destruct Hr as (_ & _ & Hm & _).
    split; [apply simple_step_length|].
    intros k p r Hk w'. subst w'. unfold SimpleApp.step. rewrite Hk.
    rewrite SimpleAppInv.simple_settle_effect. simpl.
    split; [reflexivity | now apply replaced_length].
Qed.

Lemma example_polling_reachable : Widget.reachable Example.polling.
Proof. apply WidgetInv.widget_steps_reachable. constructor. Qed.

Lemma resolution_replaces_one_for_one_witness :
  Widget.reachable Example.polling /\
  nth_error (gets Example.polling) 0
  = Some {| get_task := Example.t1; get_userInfo := None |} /\
  resolving (inr (Example.completed Example.X)) = true /\
  length (messages (Widget.step Example.polling
                      (Widget.GetSettled 0 (inr (Example.completed Example.X)))))
  = length (messages Example.polling).
Proof.
  pose proof example_polling_reachable as Hr.
  assert (Hg : nth_error (gets Example.polling) 0
               = Some {| get_task := Example.t1; get_userInfo := None |})
    by reflexivity.
  assert (Hs : resolving (inr (Example.completed Example.X)) = true) by reflexivity.
  split; [exact Hr | split; [exact Hg | split; [exact Hs|]]].
  exact (proj2 (proj2 (proj1 (proj2 (proj1 resolution_replaces_one_for_one
                                            Example.polling Hr))
                             0%nat _ _ Hg Hs))).
Defined.

(** ** C3: one poll timer at a time *)

(** What starting a poll does to the interval table of any state: the
    interval under the stored handle is gone when the new one is
    registered. *)
Lemma start_poll_cancels_stored : forall t u w h,
  pollingIntervalRef w = Some h -> h <> 0%N -> h <> nextHandle w ->
  let w' := run [IfPollingIntervalRef ClearPollingInterval; SetPollingInterval t u] w in
  intervals w'
  = clearInterval (Some h) (intervals w)
      ++ [{| handle := nextHandle w; iv_task := t; iv_userInfo := u |}] /\
  forall i, In i (intervals w') -> handle i <> h.
Proof.
  intros t u w h Hr H0 Hn w'.
  assert (E : intervals w'
              = clearInterval (Some h) (intervals w)
                  ++ [{| handle := nextHandle w; iv_task := t; iv_userInfo := u |}]).
  { subst w'. rewrite run_cons, run_cons, run_nil.
    apply N.eqb_neq in H0.
    assert (E1 : exec (IfPollingIntervalRef ClearPollingInterval) w
                 = exec ClearPollingInterval w).
    { simpl. rewrite Hr. simpl. now rewrite H0. }
    rewrite E1. simpl. now rewrite Hr. }
  split; [exact E|]. intros i Hi. rewrite E in Hi. apply in_app_or in Hi.
  destruct Hi as [Hi|[<-|[]]].
  - simpl in Hi. apply filter_In in Hi. destruct Hi as [_ Hi].
    apply negb_true_iff, N.eqb_neq in Hi. exact Hi.
  - simpl. congruence.
Qed.

(** C3. In every reachable state of the two polling components at most
    one interval is active, and it is the one whose handle the ref holds.
    [pollForResult] is the only place that registers an interval; its
    script is the guarded [clearInterval] of the stored handle followed by
    the registration, so that after it the previously stored handle is no
    longer active (in any state whatever) and, from a reachable state, the
    new interval is the only active one. *)
Theorem at_most_one_poll_timer :
  (forall w, Widget.reachable w \/ PollingApp.reachable w ->
     (length (intervals w) <= 1)%nat /\
     (forall i, In i (intervals w) -> pollingIntervalRef w = Some (handle i)) /\
     (forall t u,
         intervals (perform (Widget.pollForResult u t) w)
         = [{| handle := nextHandle w; iv_task := t; iv_userInfo := u |}] /\
         intervals (perform (PollingApp.pollForResult t) w)
         = [{| handle := nextHandle w; iv_task := t; iv_userInfo := None |}] /\
         forall i, In i (intervals w) -> handle i <> nextHandle w)) /\
  (forall t u,
     script (Widget.pollForResult u t)
     = [IfPollingIntervalRef ClearPollingInterval; SetPollingInterval t u] /\
     script (PollingApp.pollForResult t)
     = [IfPollingIntervalRef ClearPollingInterval; SetPollingInterval t None]) /\
  (forall w t u h,
     pollingIntervalRef w = Some h -> h <> 0%N -> h <> nextHandle w ->
     (forall i, In i (intervals (perform (Widget.pollForResult u t) w)) ->
                handle i <> h) /\
     (forall i, In i (intervals (perform (PollingApp.pollForResult t) w)) ->
                handle i <> h)).
Proof.
  split; [|split].
  - intros w Hr.
    assert (Hw : single_timer w).
    { destruct Hr as [Hr|Hr];
        [apply WidgetInv.widget_reachable_wf in Hr | apply PollingAppInv.polling_reachable_wf in Hr];
        apply Hr. }
    pose proof Hw as (Hl & Hin & Hh & Hn).
    split; [exact Hl | split; [exact Hin|]].
    intros t u. split; [|split].
    + apply (install_single_timer t u w Hw).
    + apply (install_single_timer t None w Hw).
    + intros i Hi E. specialize (Hh _ (Hin i Hi)). lia.
  - intros t u. split; reflexivity.
  - intros w t u h Hr H0 Hn. split.
    + apply (start_poll_cancels_stored t u w h Hr H0 Hn).
    + apply (start_poll_cancels_stored t None w h Hr H0 Hn).
Qed.

Lemma at_most_one_poll_timer_witness :
  (Widget.reachable Example.polling \/ PollingApp.reachable Example.polling) /\
  (length (intervals Example.polling) <= 1)%nat.
Proof.
  assert (H : Widget.reachable Example.polling \/ PollingApp.reachable Example.polling).
  { left. apply WidgetInv.widget_steps_reachable. constructor. }
  split; [exact H|].
  exact (proj1 (proj1 at_most_one_poll_timer Example.polling H)).
Defined.

(** ** An unsuccessful submit *)

Lemma slice_snoc : forall (A : Type) (l : list A) x y,
  Js.slice_0_m1 (l ++ [x; y]) = l ++ [x].
Proof.
  intros A l x y. unfold Js.slice_0_m1.
  change (l ++ [x; y]) with (l ++ [x] ++ [y]).
  rewrite app_assoc. apply removelast_last.
Qed.

(** Between an accepted send from a quiescent state and the settlement of
    its submit request, no event changes the state: the controls are
    disabled or not rendered, no interval ticks and no other request is
    pending. *)
Lemma sending_is_quiet : forall w arg es,
  quiescent w ->
  send_accepted w (Widget.default_inputValue w arg) ->
  existsb is_post_settled es = false ->
  Widget.steps (perform (Widget.handleSendMessage w arg) w) es
  = perform (Widget.handleSendMessage w arg) w.
Proof.
  intros w arg es (Hl & Hf & Hi & Hp & Hg) Ha.
  pose proof (accepted_send_script w arg Ha) as Ep.
  set (w1 := perform (Widget.handleSendMessage w arg) w).
  assert (E1 : isLoading w1 = true /\ suggestedReplies w1 = [] /\
               showContactForm w1 = false /\ intervals w1 = [] /\ gets w1 = []).
  { subst w1. unfold perform. rewrite Ep. cbn. auto. }
  destruct E1 as (El1 & Es1 & Ef1 & Ei1 & Eg1).
  induction es as [|e es IH]; intro Hes; [reflexivity|].
  cbn [existsb] in Hes. apply orb_false_iff in Hes. destruct Hes as [He Hes].
  change (Widget.steps w1 (e :: es)) with (Widget.steps (Widget.step w1 e) es).
  replace (Widget.step w1 e) with w1; [now apply IH|].
  destruct e as [v| |key|index|name email|h|k r|k r]; unfold Widget.step;
    try discriminate.
  - now rewrite El1.
  - now rewrite El1.
  - now rewrite El1.
  - rewrite Es1. now destruct index.
  - now rewrite Ef1.
  - now rewrite Ei1.
  - rewrite Eg1. now destruct k.
Qed.

(** What holds of an unsuccessful submit when nothing is appended between
    the send and the settlement.  An accepted send whose submit request is
    rejected (transport error, non-2xx status) or answered without a task
    id, and settles next, ends with the transcript extended by the user
    message and one error entry, which has taken the place of the
    placeholder; [isLoading] is false; no interval was registered (the
    interval table, the handle counter and the ref are untouched, and the
    continuation contains no registration); and no request is outstanding
    or issued again.  This holds of the widget with contact form and of the
    polling component of [App.js].  When the send starts from a quiescent
    state, no event can change the state before the submit settles.  With
    the contact form on screen the settlement can come after a form
    submission, and then the placeholder is not the last entry any more. *)
Lemma failed_submit_resolves_without_polling :
  forall (w : App) (r : settled ChatResponse),
    submit_fails r = true ->
    (forall arg es,
        quiescent w ->
        send_accepted w (Widget.default_inputValue w arg) ->
        existsb is_post_settled es = false ->
        Widget.steps (perform (Widget.handleSendMessage w arg) w) es
        = perform (Widget.handleSendMessage w arg) w) /\
    (forall arg,
        let messageText := Widget.default_inputValue w arg in
        send_accepted w messageText ->
        let w1 := perform (Widget.handleSendMessage w arg) w in
        let w2 := Widget.step w1 (Widget.PostSettled (length (posts w)) r) in
        messages w1 = messages w ++ [plain user messageText; Widget.thinking] /\
        messages w2
        = messages w ++ [plain user messageText; error_message (submit_error_text r)] /\
        isLoading w2 = false /\
        intervals w2 = intervals w /\
        nextHandle w2 = nextHandle w /\
        pollingIntervalRef w2 = pollingIntervalRef w /\
        posts w2 = posts w /\
        gets w2 = gets w /\
        forallb (fun a => negb (installs a) && negb (requests a))
                (script (Widget.handleSendMessage_resume (userInfo w) r)) = true) /\
    (send_accepted w (inputValue w) ->
        let w1 := perform (PollingApp.handleSendMessage w) w in
        let w2 := PollingApp.step w1 (PollingApp.PostSettled (length (posts w)) r) in
        messages w1 = messages w ++ [plain user (inputValue w); PollingApp.thinking] /\
        messages w2
        = messages w ++ [plain user (inputValue w); error_message (submit_error_text r)] /\
        isLoading w2 = false /\
        intervals w2 = intervals w /\
        nextHandle w2 = nextHandle w /\
        pollingIntervalRef w2 = pollingIntervalRef w /\
        posts w2 = posts w /\
        gets w2 = gets w /\
        forallb (fun a => negb (installs a) && negb (requests a))
                (script (PollingApp.handleSendMessage_resume r)) = true).
Proof.
  intros w r Hf. split; [|split].
  - intros arg es. apply sending_is_quiet.
  - intros arg messageText Ha w1 w2.
    pose proof (accepted_send_script w arg Ha) as Ep.
    fold messageText in Ep.
    assert (E1 : w1 = run [ SetMessages (Append [plain user messageText; Widget.thinking]);
                            SetIsLoading true; SetInputValue []; SetSuggestedReplies [];
                            AxiosPost {| message := Some messageText; thread_id := threadId w |}
                                      (userInfo w) ] w).
    { subst w1. unfold perform. now rewrite Ep. }
    assert (E2 : w2 = replaced_last (error_message (submit_error_text r))
                        (with_posts (posts w) w1)).
    { subst w2. unfold Widget.step.
      replace (posts w1) with
        (posts w ++ [{| post_body := {| message := Some messageText; thread_id := threadId w |};
                        post_userInfo := userInfo w |}]) by (rewrite E1; reflexivity).
      rewrite nth_error_snoc, remove_nth_snoc.
      cbn [post_userInfo]. now rewrite WidgetFacts.widget_submit_failure. }
    split; [rewrite E1; reflexivity|].
    rewrite E2, E1. cbn. rewrite slice_snoc.
    rewrite <- app_assoc. repeat split.
    destruct r as [e|[[t|] d]]; try reflexivity.
    simpl in Hf. unfold Widget.handleSendMessage_resume, await, bind, try_catch.
    cbn [task_id]. destruct (Js.truthy t); [discriminate | reflexivity].
  - intros Ha w1 w2.
    assert (E1 : w1 = run [ SetMessages (Append [plain user (inputValue w); PollingApp.thinking]);
                            SetIsLoading true; SetInputValue [];
                            AxiosPost {| message := Some (inputValue w); thread_id := threadId w |}
                                      None ] w).
    { subst w1. unfold perform, PollingApp.handleSendMessage.
      now rewrite (accepted_guard w (inputValue w) Ha). }
    assert (E2 : w2 = replaced_last (error_message (submit_error_text r))
                        (with_posts (posts w) w1)).
    { subst w2. unfold PollingApp.step.
      replace (posts w1) with
        (posts w ++ [{| post_body := {| message := Some (inputValue w); thread_id := threadId w |};
                        post_userInfo := None |}]) by (rewrite E1; reflexivity).
      rewrite nth_error_snoc, remove_nth_snoc.
      now rewrite PollingAppInv.polling_submit_failure. }
    split; [rewrite E1; reflexivity|].
    rewrite E2, E1. cbn. rewrite slice_snoc.
    rewrite <- app_assoc. repeat split.
    destruct r as [e|[[t|] d]]; try reflexivity.
    simpl in Hf. unfold PollingApp.handleSendMessage_resume, await, bind, try_catch.
    cbn [task_id]. destruct (Js.truthy t); [discriminate | reflexivity].
Qed.

(** ** C8: the contact form flag *)

Lemma form_check_first : forall a,
  form_to_display a = Some (Js.lit "contact_info") ->
  exists rest,
    script (Widget.pollCallback_resume None (inr a)) = SetShowContactForm true :: rest.
Proof.
  intros a Hf.
  unfold Widget.pollCallback_resume, await, bind, try_catch, when.
  unfold Widget.is_contact_info. rewrite Hf, Js_eqb_refl. cbn [is_some negb andb].
  destruct (Js.eqb (status a) (Js.lit "completed"));
    destruct (Js.eqb (status a) (Js.lit "failed"));
    destruct (result a); eexists; reflexivity.
Qed.

(** C8. (1) When a status response carries [form_to_display ===
    'contact_info'] and no contact info is stored, the first effect of the
    callback sets the form flag, and if the response does not resolve the
    task the flag is true when the callback is done, with transcript,
    [isLoading] and the interval untouched.  (2) A response with status
    [completed] or [failed], and a rejected status request, leave the flag
    false.  (3) [handleFormSubmit(data)] stores [data], clears the flag and
    appends exactly one acknowledgement; it changes neither the interval
    table, the ref and the handle counter, nor [isLoading], nor the pending
    requests. *)
Theorem contact_form_flag_lifecycle :
  (forall w k g a,
      Widget.reachable w -> userInfo w = None ->
      nth_error (gets w) k = Some g ->
      form_to_display a = Some (Js.lit "contact_info") ->
      let p := script (Widget.pollCallback_resume (get_userInfo g) (inr a)) in
      let w' := Widget.step w (Widget.GetSettled k (inr a)) in
      showContactForm (run (firstn 1 p) (with_gets (remove_nth k (gets w)) w)) = true /\
      (resolving (inr a) = false ->
         showContactForm w' = true /\
         messages w' = messages w /\ isLoading w' = isLoading w /\
         intervals w' = intervals w)) /\
  (forall w k g r,
      nth_error (gets w) k = Some g -> resolving r = true ->
      showContactForm (Widget.step w (Widget.GetSettled k r)) = false) /\
  (forall w data,
      let w' := perform (Widget.handleFormSubmit data) w in
      userInfo w' = Some data /\
      showContactForm w' = false /\
      messages w'
      = messages w ++ [plain bot (Js.lit "Thanks! I've saved your information.")] /\
      isLoading w' = isLoading w /\
      intervals w' = intervals w /\
      pollingIntervalRef w' = pollingIntervalRef w /\
      nextHandle w' = nextHandle w /\
      posts w' = posts w /\ gets w' = gets w) /\
  (forall w name email,
      showContactForm w = true -> Js.truthy name = true -> Js.truthy email = true ->
      Widget.step w (Widget.SubmitContactForm name email)
      = perform (Widget.handleFormSubmit {| name := name; email := email |}) w).
Proof.
  split; [|split; [|split]].
  - intros w k g a Hr Hu Hk Hf p w'.
    assert (Hg : get_userInfo g = None).
    { apply WidgetInv.widget_reachable_wf in Hr. destruct Hr as (_ & Hc & _).
      destruct (Hc Hu) as (_ & _ & Hgets). apply Hgets.
      eapply nth_error_In; eauto. }
    subst p w'. rewrite Hg. split.
    + destruct (form_check_first a Hf) as [rest ->]. reflexivity.
    + intro Hp. unfold Widget.step. rewrite Hk, Hg.
      rewrite WidgetFacts.widget_poll_pending by assumption.
      unfold Widget.is_contact_info. rewrite Hf, Js_eqb_refl. cbn.
      repeat split.
  - intros w k g r Hk Hres. unfold Widget.step. rewrite Hk.
    now rewrite WidgetFacts.widget_poll_resolution.
  - intros w data w'. subst w'. cbn. repeat split.
  - intros w name email Hs Hn He. unfold Widget.step. rewrite Hs.
    unfold Widget.ContactForm_handleSubmit. now rewrite Hn, He.
Qed.

Lemma example_polling_no_contact : userInfo Example.polling = None.
Proof. reflexivity. Qed.

Lemma contact_form_flag_lifecycle_witness :
  Widget.reachable Example.polling /\
  userInfo Example.polling = None /\
  resolving (inr (Example.pending Example.contact_info)) = false /\
  showContactForm
    (Widget.step Example.polling
       (Widget.GetSettled 0 (inr (Example.pending Example.contact_info)))) = true.
Proof.
  pose proof example_polling_reachable as Hr.
  pose proof example_polling_no_contact as Hu.
  assert (Hp : resolving (inr (Example.pending Example.contact_info)) = false)
    by reflexivity.
  split; [exact Hr | split; [exact Hu | split; [exact Hp|]]].
  exact (proj1 (proj2 (proj1 contact_form_flag_lifecycle
                         Example.polling 0%nat _
                         (Example.pending Example.contact_info)
                         Hr Hu eq_refl eq_refl) Hp)).
Defined.

(** ** C1: submit, poll, completed *)

Lemma steps_app : forall es es' w,
  Widget.steps w (es ++ es') = Widget.steps (Widget.steps w es) es'.
Proof. intros. unfold Widget.steps. apply fold_left_app. Qed.


Lemma single_timer_frame : forall w w',
  intervals w' = intervals w -> pollingIntervalRef w' = pollingIntervalRef w ->
  nextHandle w' = nextHandle w -> single_timer w -> single_timer w'.
Proof.
  intros w w' E1 E2 E3 H. unfold single_timer in *. now rewrite E1, E2, E3.
Qed.

Lemma start_poll_frame : forall t u w,
  let w' := run [IfPollingIntervalRef ClearPollingInterval; SetPollingInterval t u] w in
  messages w' = messages w /\ isLoading w' = isLoading w /\
  gets w' = gets w /\ posts w' = posts w /\ showContactForm w' = showContactForm w.
Proof.
  intros t u w. simpl. destruct (ref_truthy (pollingIntervalRef w)); simpl; auto.
Qed.

(** From an accepted send and a submit that returns a task id, the
    component is polling with a fresh interval, and the transcript has the
    user message and the placeholder. *)
Lemma accepted_send_starts_polling : forall w arg t d,
  single_timer w ->
  send_accepted w (Widget.default_inputValue w arg) ->
  Js.truthy t = true ->
  let w1 := perform (Widget.handleSendMessage w arg) w in
  let w2 := Widget.step w1
              (Widget.PostSettled (length (posts w))
                 (inr {| task_id := Some t; data_reply := d |})) in
  polling_on (nextHandle w) (length (gets w)) w2 /\
  messages w2
  = messages w ++ [plain user (Widget.default_inputValue w arg); Widget.thinking].
Proof.
  intros w arg t d Ht Ha Htr w1 w2.
  pose proof (accepted_send_script w arg Ha) as Ep.
  set (messageText := Widget.default_inputValue w arg) in *.
  assert (E1 : w1 = run [ SetMessages (Append [plain user messageText; Widget.thinking]);
                          SetIsLoading true; SetInputValue []; SetSuggestedReplies [];
                          AxiosPost {| message := Some messageText; thread_id := threadId w |}
                                    (userInfo w) ] w).
  { subst w1. unfold perform. now rewrite Ep. }
  set (w1' := with_posts (posts w) w1).
  assert (E2 : w2 = run [IfPollingIntervalRef ClearPollingInterval;
                         SetPollingInterval t (userInfo w)] w1').
  { subst w2 w1'. unfold Widget.step.
    replace (posts w1) with
      (posts w ++ [{| post_body := {| message := Some messageText; thread_id := threadId w |};
                      post_userInfo := userInfo w |}]) by (rewrite E1; reflexivity).
    rewrite nth_error_snoc, remove_nth_snoc. cbn [post_userInfo].
    now rewrite WidgetFacts.widget_submit_success. }
  assert (Ht' : single_timer w1').
  { apply (single_timer_frame w); try (subst w1'; rewrite E1; reflexivity). exact Ht. }
  destruct (install_single_timer t (userInfo w) w1' Ht') as (_ & Ei & Er).
  destruct (start_poll_frame t (userInfo w) w1') as (Em & El & Eg & _).
  rewrite <- E2 in Ei, Er, Em, El, Eg.
  assert (En : nextHandle w1' = nextHandle w) by (subst w1'; rewrite E1; reflexivity).
  rewrite En in Ei, Er.
  split; [split; [|split; [|split]]|].
  - eauto.
  - exact Er.
  - rewrite Eg. subst w1'. rewrite E1. reflexivity.
  - rewrite El. subst w1'. rewrite E1. reflexivity.
  - rewrite Em. subst w1'. rewrite E1. reflexivity.
Qed.

(** A tick of the active interval followed by the answer to the request
    it issued. *)
Lemma poll_round : forall h idx w r,
  polling_on h idx w ->
  exists u,
    Widget.steps w [Widget.Tick h; Widget.GetSettled idx r]
    = perform (Widget.pollCallback_resume u r) w.
Proof.
  intros h idx w r ((t & u & Ei) & Er & Eg & El). exists u.
  unfold Widget.steps. cbn [fold_left]. unfold Widget.step at 2.
  rewrite Ei. unfold find_interval. cbn [find handle]. rewrite N.eqb_refl.
  cbn [iv_userInfo iv_task].
  set (w1 := perform (Widget.pollCallback u t) w).
  assert (Eg1 : gets w1 = gets w ++ [{| get_task := t; get_userInfo := u |}])
    by reflexivity.
  unfold Widget.step. rewrite Eg1, <- Eg, nth_error_snoc, remove_nth_snoc.
  cbn [get_userInfo]. f_equal. subst w1. destruct w; reflexivity.
Qed.

Lemma interlude_keeps_polling : forall h idx i w,
  polling_on h idx w ->
  let w' := Widget.steps w (interlude_events h idx i) in
  polling_on h idx w' /\
  (is_form i = false -> messages w' = messages w).
Proof.
  intros h idx i w Hp w'. subst w'. destruct i as [form res|name email].
  - cbn [interlude_events].
    destruct (poll_round h idx w (inr (pending_response form res)) Hp) as [u ->].
    rewrite WidgetFacts.widget_poll_pending by reflexivity.
    cbn [pending_response form_to_display].
    destruct (Widget.is_contact_info form && negb (is_some u));
      (split; [exact Hp | reflexivity]).
  - cbn [interlude_events]. unfold Widget.steps. cbn [fold_left].
    unfold Widget.step, Widget.ContactForm_handleSubmit.
    split; [|discriminate].
    destruct (showContactForm w); [|exact Hp].
    destruct (Js.truthy name && Js.truthy email); exact Hp.
Qed.

Lemma interludes_keep_polling : forall h idx rounds w,
  polling_on h idx w ->
  let w' := Widget.steps w (flat_map (interlude_events h idx) rounds) in
  polling_on h idx w' /\
  (existsb is_form rounds = false -> messages w' = messages w).
Proof.
  intros h idx rounds. induction rounds as [|i rounds IH]; intros w Hp.
  - split; [exact Hp | reflexivity].
  - cbn [flat_map]. cbv zeta. rewrite steps_app.
    destruct (interlude_keeps_polling h idx i w Hp) as [Hp1 Hm1].
    destruct (IH _ Hp1) as [Hp2 Hm2]. split; [exact Hp2|].
    intro Hn. cbn [existsb] in Hn. apply orb_false_iff in Hn.
    destruct Hn as [Hn1 Hn2]. rewrite (Hm2 Hn2). now apply Hm1.
Qed.

(** The round in which the poll is answered by a resolving response. *)
Lemma resolving_round : forall h idx w r,
  polling_on h idx w -> resolving r = true ->
  let w' := Widget.steps w [Widget.Tick h; Widget.GetSettled idx r] in
  messages w' = Js.slice_0_m1 (messages w) ++ [resolution_message r] /\
  intervals w' = [] /\ isLoading w' = false /\ showContactForm w' = false.
Proof.
  intros h idx w r Hp Hr w'. subst w'.
  destruct (poll_round h idx w r Hp) as [u ->].
  rewrite WidgetFacts.widget_poll_resolution by assumption.
  destruct Hp as ((t & u' & Ei) & Er & _).
  unfold resolved. cbn. rewrite Ei, Er. cbn. rewrite N.eqb_refl. auto.
Qed.

Lemma last_of_replaced : forall (l : list Message) m,
  exists pre, Js.slice_0_m1 l ++ [m] = pre ++ [m].
Proof. intros l m. now exists (Js.slice_0_m1 l). Qed.

(** The polling component of [App.js] goes through the same rounds. *)
Lemma polling_steps_app : forall es es' w,
  PollingApp.steps w (es ++ es') = PollingApp.steps (PollingApp.steps w es) es'.
Proof. intros. unfold PollingApp.steps. apply fold_left_app. Qed.

Lemma polling_send_starts_polling : forall w t d,
  single_timer w ->
  send_accepted w (inputValue w) ->
  Js.truthy t = true ->
  let w1 := perform (PollingApp.handleSendMessage w) w in
  let w2 := PollingApp.step w1
              (PollingApp.PostSettled (length (posts w))
                 (inr {| task_id := Some t; data_reply := d |})) in
  polling_on (nextHandle w) (length (gets w)) w2 /\
  messages w2 = messages w ++ [plain user (inputValue w); PollingApp.thinking].
Proof.
  intros w t d Ht Ha Htr w1 w2.
  assert (E1 : w1 = run [ SetMessages (Append [plain user (inputValue w); PollingApp.thinking]);
                          SetIsLoading true; SetInputValue [];
                          AxiosPost {| message := Some (inputValue w); thread_id := threadId w |}
                                    None ] w).
  { subst w1. unfold perform, PollingApp.handleSendMessage.
    now rewrite (accepted_guard w (inputValue w) Ha). }
  set (w1' := with_posts (posts w) w1).
  assert (E2 : w2 = run [IfPollingIntervalRef ClearPollingInterval;
                         SetPollingInterval t None] w1').
  { subst w2 w1'. unfold PollingApp.step.
    replace (posts w1) with
      (posts w ++ [{| post_body := {| message := Some (inputValue w); thread_id := threadId w |};
                      post_userInfo := None |}]) by (rewrite E1; reflexivity).
    rewrite nth_error_snoc, remove_nth_snoc.
    now rewrite PollingAppInv.polling_submit_success. }
  assert (Ht' : single_timer w1').
  { apply (single_timer_frame w); try (subst w1'; rewrite E1; reflexivity). exact Ht. }
  destruct (install_single_timer t None w1' Ht') as (_ & Ei & Er).
  destruct (start_poll_frame t None w1') as (Em & El & Eg & _).
  rewrite <- E2 in Ei, Er, Em, El, Eg.
  assert (En : nextHandle w1' = nextHandle w) by (subst w1'; rewrite E1; reflexivity).
  rewrite En in Ei, Er.
  split; [split; [|split; [|split]]|].
  - eauto.
  - exact Er.
  - rewrite Eg. subst w1'. rewrite E1. reflexivity.
  - rewrite El. subst w1'. rewrite E1. reflexivity.
  - rewrite Em. subst w1'. rewrite E1. reflexivity.
Qed.

Lemma polling_poll_round : forall h idx w r,
  polling_on h idx w ->
  PollingApp.steps w [PollingApp.Tick h; PollingApp.GetSettled idx r]
  = perform (PollingApp.pollCallback_resume r) w.
Proof.
  intros h idx w r ((t & u & Ei) & Er & Eg & El).
  unfold PollingApp.steps. cbn [fold_left]. unfold PollingApp.step at 2.
  rewrite Ei. unfold find_interval. cbn [find handle]. rewrite N.eqb_refl.
  cbn [iv_task].
  set (w1 := perform (PollingApp.pollCallback t) w).
  assert (Eg1 : gets w1 = gets w ++ [{| get_task := t; get_userInfo := None |}])
    by reflexivity.
  unfold PollingApp.step. rewrite Eg1, <- Eg, nth_error_snoc, remove_nth_snoc.
  f_equal. subst w1. destruct w; reflexivity.
Qed.

Lemma polling_pending_rounds : forall h idx rounds w,
  polling_on h idx w ->
  PollingApp.steps w (flat_map (pending_round h idx) rounds) = w.
Proof.
  intros h idx rounds. induction rounds as [|a rounds IH]; intros w Hp.
  - reflexivity.
  - cbn [flat_map]. rewrite polling_steps_app. unfold pending_round at 1.
    rewrite (polling_poll_round h idx w _ Hp).
    rewrite PollingAppInv.polling_poll_pending by reflexivity. now apply IH.
Qed.

Lemma polling_resolving_round : forall h idx w r,
  polling_on h idx w -> resolving r = true ->
  let w' := PollingApp.steps w [PollingApp.Tick h; PollingApp.GetSettled idx r] in
  messages w' = Js.slice_0_m1 (messages w) ++ [resolution_message r] /\
  intervals w' = [] /\ isLoading w' = false.
Proof.
  intros h idx w r Hp Hr w'. subst w'.
  rewrite (polling_poll_round h idx w r Hp).
  rewrite PollingAppInv.polling_poll_resolution by assumption.
  destruct Hp as ((t & u' & Ei) & Er & _).
  cbn. rewrite Ei, Er. cbn. rewrite N.eqb_refl. auto.
Qed.

(** C1. From a reachable state of the widget with contact form, an
    accepted send whose submit returns a task id, followed by any number of
    interludes (polls answered [pending], with or without the form signal;
    the contact form being submitted) and then by a poll answered
    [completed] with reply [X], ends with a transcript whose last entry is
    the assistant message [X], neither placeholder nor error, with no
    active interval and with [isLoading] false; until then [isLoading] is
    true.  When no form was submitted in between, the transcript is the old
    one followed by the user message and the reply.  The polling component
    of [App.js], which has no form, does the same: after any number of
    polls answered [pending] and one answered [completed] with reply [X],
    the transcript is the old one followed by the user message and [X], no
    interval is active and [isLoading] is false. *)
Theorem submit_poll_completed_roundtrip :
  (forall (w : App) (arg : option jsstring) (taskId : jsstring)
          (d : option jsstring) (rounds : list interlude)
          (X : jsstring) (err form : option jsstring),
    let messageText := Widget.default_inputValue w arg in
    Widget.reachable w ->
    send_accepted w messageText ->
    Js.truthy taskId = true ->
    let h := nextHandle w in
    let idx := length (gets w) in
    let w1 := perform (Widget.handleSendMessage w arg) w in
    let w2 := Widget.step w1
                (Widget.PostSettled (length (posts w))
                   (inr {| task_id := Some taskId; data_reply := d |})) in
    let w3 := Widget.steps w2 (flat_map (interlude_events h idx) rounds) in
    let w4 := Widget.steps w3
                [Widget.Tick h;
                 Widget.GetSettled idx (inr (completed_response X err form))] in
    isLoading w3 = true /\
    (exists pre, messages w4 = pre ++ [plain bot X]) /\
    intervals w4 = [] /\
    isLoading w4 = false /\
    (existsb is_form rounds = false ->
     messages w4 = messages w ++ [plain user messageText; plain bot X])) /\
  (forall (w : App) (taskId : jsstring) (d : option jsstring)
          (rounds : list (option jsstring * option TaskResult))
          (X : jsstring) (err form : option jsstring),
    PollingApp.reachable w ->
    send_accepted w (inputValue w) ->
    Js.truthy taskId = true ->
    let h := nextHandle w in
    let idx := length (gets w) in
    let w1 := perform (PollingApp.handleSendMessage w) w in
    let w2 := PollingApp.step w1
                (PollingApp.PostSettled (length (posts w))
                   (inr {| task_id := Some taskId; data_reply := d |})) in
    let w3 := PollingApp.steps w2 (flat_map (pending_round h idx) rounds) in
    let w4 := PollingApp.steps w3
                [PollingApp.Tick h;
                 PollingApp.GetSettled idx (inr (completed_response X err form))] in
    isLoading w3 = true /\
    messages w4 = messages w ++ [plain user (inputValue w); plain bot X] /\
    intervals w4 = [] /\
    isLoading w4 = false).
Proof.
  split.
  - intros w arg taskId d rounds X err form messageText Hr Ha Ht h idx w1 w2 w3 w4.
    apply WidgetInv.widget_reachable_wf in Hr. destruct Hr as (Hst & _).
    destruct (accepted_send_starts_polling w arg taskId d Hst Ha Ht) as [Hp2 Hm2].
    fold w1 in Hp2, Hm2. fold w2 in Hp2, Hm2. fold h idx in Hp2.
    destruct (interludes_keep_polling h idx rounds w2 Hp2) as [Hp3 Hm3].
    fold w3 in Hp3, Hm3.
    destruct (resolving_round h idx w3 (inr (completed_response X err form)) Hp3 eq_refl)
      as (Hm4 & Hi4 & Hl4 & _).
    fold w4 in Hm4, Hi4, Hl4.
    split; [apply Hp3|]. split; [|split; [exact Hi4 | split; [exact Hl4|]]].
    + rewrite Hm4. apply last_of_replaced.
    + intro Hn.
      assert (Hm2' : messages w2
                     = messages w ++ [plain user messageText; Widget.thinking])
        by exact Hm2.
      assert (Hm3' : messages w3 = messages w2) by exact (Hm3 Hn).
      rewrite Hm4, Hm3', Hm2'.
      rewrite slice_snoc, <- app_assoc. reflexivity.
  - intros w taskId d rounds X err form Hr Ha Ht h idx w1 w2 w3 w4.
    apply PollingAppInv.polling_reachable_wf in Hr. destruct Hr as (Hst & _).
    destruct (polling_send_starts_polling w taskId d Hst Ha Ht) as [Hp2 Hm2].
    assert (E3 : w3 = w2) by (apply polling_pending_rounds; exact Hp2).
    assert (Hp3 : polling_on h idx w3) by (rewrite E3; exact Hp2).
    destruct (polling_resolving_round h idx w3 (inr (completed_response X err form))
                Hp3 eq_refl) as (Hm4 & Hi4 & Hl4).
    fold w4 in Hm4, Hi4, Hl4.
    split; [apply Hp3|]. split; [|split; [exact Hi4 | exact Hl4]].
    assert (Hm2' : messages w2
                   = messages w ++ [plain user (inputValue w); PollingApp.thinking])
      by exact Hm2.
    rewrite Hm4, E3, Hm2'. rewrite slice_snoc, <- app_assoc. reflexivity.
Qed.

Lemma submit_poll_completed_roundtrip_witness :
  Widget.reachable (Widget.mount 0) /\
  send_accepted (Widget.mount 0) Example.hi /\
  Js.truthy Example.t1 = true /\
  messages
    (Widget.steps
       (Widget.step (perform (Widget.handleSendMessage (Widget.mount 0) (Some Example.hi))
                             (Widget.mount 0))
                    (Widget.PostSettled 0
                       (inr {| task_id := Some Example.t1; data_reply := None |})))
       (flat_map (interlude_events 1 0) [PollPending None None; PollPending None None]
          ++ [Widget.Tick 1;
              Widget.GetSettled 0 (inr (completed_response Example.X None None))]))
  = messages (Widget.mount 0) ++ [plain user Example.hi; plain bot Example.X].
Proof.
  assert (Hr : Widget.reachable (Widget.mount 0)) by constructor.
  assert (Ha : send_accepted (Widget.mount 0) Example.hi).
  { split; [discriminate | split; reflexivity]. }
  assert (Ht : Js.truthy Example.t1 = true) by reflexivity.
  split; [exact Hr | split; [exact Ha | split; [exact Ht|]]].
  rewrite steps_app.
  exact (proj2 (proj2 (proj2 (proj2
    (proj1 submit_poll_completed_roundtrip
       (Widget.mount 0) (Some Example.hi) Example.t1
       None [PollPending None None; PollPending None None] Example.X None None
       Hr Ha Ht)))) eq_refl).
Defined.

(** ** C5 and C4: what a resolution writes, and where *)

Lemma or_else_contains : forall v d s,
  v = Some s -> Js.includes (Js.or_else v d) s = true.
Proof.
  intros v d s ->. simpl. destruct s as [|c s]; simpl.
  - destruct d; reflexivity.
  - rewrite N.eqb_refl. change (Js.startsWith s s) with (Js.startsWith ([] ++ s) s).
    pose proof (startsWith_app s []) as H. rewrite app_nil_r in H.
    simpl. rewrite H. reflexivity.
Qed.

Lemma includes_suffix : forall a s t,
  Js.includes s t = true -> Js.includes (a ++ s) t = true.
Proof.
  induction a as [|x a IH]; intros s t H; [exact H|].
  simpl. rewrite (IH s t H). apply orb_true_r.
Qed.

(** The effect of a [failed] status response and of a rejected status
    request on any state in which that request is pending: the interval the
    ref holds is cancelled (so none is active, from a reachable state),
    [isLoading] is cleared, and the last transcript entry is replaced by an
    error entry whose text is ["An error occurred: "] followed by the
    backend's [error] when it is a non-empty string and by
    ["Unknown error"] otherwise, resp. ["Failed to get a response."]. *)
Lemma poll_failure_effect : forall w k g,
  nth_error (gets w) k = Some g ->
  (forall a,
      status a = Js.lit "failed" ->
      let w' := Widget.step w (Widget.GetSettled k (inr a)) in
      let errorText :=
        Js.lit "An error occurred: "
          ++ Js.or_else (Widget.result_error (result a)) (Js.lit "Unknown error") in
      messages w' = Js.slice_0_m1 (messages w) ++ [error_message errorText] /\
      isLoading w' = false /\
      intervals w' = clearInterval (pollingIntervalRef w) (intervals w) /\
      (Widget.reachable w -> intervals w' = []) /\
      (forall s, Widget.result_error (result a) = Some s ->
                 Js.includes errorText s = true) /\
      (Js.truthy_opt (Widget.result_error (result a)) = false ->
       errorText = Js.lit "An error occurred: Unknown error")) /\
  (forall e,
      let w' := Widget.step w (Widget.GetSettled k (inl e)) in
      messages w'
      = Js.slice_0_m1 (messages w)
          ++ [error_message (Js.lit "Failed to get a response.")] /\
      isLoading w' = false /\
      intervals w' = clearInterval (pollingIntervalRef w) (intervals w) /\
      (Widget.reachable w -> intervals w' = [])).
Proof.
  intros w k g Hk.
  assert (Hclear : Widget.reachable w ->
                   clearInterval (pollingIntervalRef w) (intervals w) = []).
  { intro Hr. apply WidgetInv.widget_reachable_wf in Hr.
    destruct Hr as ((_ & Hin & _) & _). now apply clearInterval_own. }
  split.
  - intros a Hs w' errorText.
    assert (Hres : resolving (inr a) = true)
      by (unfold resolving; rewrite Hs; reflexivity).
    assert (E : w' = resolved (error_message errorText)
                       (with_gets (remove_nth k (gets w)) w)).
    { subst w'. unfold Widget.step. rewrite Hk.
      rewrite WidgetFacts.widget_poll_resolution by assumption.
      unfold resolution_message. rewrite Hs. reflexivity. }
    split; [rewrite E; reflexivity|].
    split; [rewrite E; reflexivity|].
    split; [rewrite E; reflexivity|].
    split; [rewrite E; exact Hclear|]. split.
    + intros s Hsome. subst errorText. apply includes_suffix.
      now apply or_else_contains.
    + intro Hfalsy. subst errorText.
      destruct (Widget.result_error (result a)) as [s|]; [|reflexivity].
      unfold Js.truthy_opt in Hfalsy. unfold Js.or_else. now rewrite Hfalsy.
  - intros e w'.
    assert (E : w' = resolved (error_message (Js.lit "Failed to get a response."))
                       (with_gets (remove_nth k (gets w)) w)).
    { subst w'. unfold Widget.step. rewrite Hk.
      now rewrite WidgetFacts.widget_poll_resolution. }
    rewrite E.
    split; [reflexivity | split; [reflexivity | split; [reflexivity|]]].
    exact Hclear.
Qed.

(** Where the resolution writes: the last entry, whatever it is.  When an
    entry was appended after the placeholder, that entry is overwritten and
    the placeholder stays. *)
Lemma resolution_overwrites_last : forall w k g r pre p x,
  nth_error (gets w) k = Some g -> resolving r = true ->
  messages w = pre ++ [p; x] ->
  messages (Widget.step w (Widget.GetSettled k r))
  = pre ++ [p; resolution_message r].
Proof.
  intros w k g r pre p x Hk Hr Hm. unfold Widget.step. rewrite Hk.
  rewrite WidgetFacts.widget_poll_resolution by assumption. cbn.
  rewrite Hm, slice_snoc, <- app_assoc. reflexivity.
Qed.

(** C4 (frame of a resolution) fails on this run of the widget.  The user
    sends [hi]; the submit returns [t1]; the first poll answers [pending]
    with the form signal; the user submits the contact form, which appends
    the acknowledgement after the placeholder; the next poll answers
    [completed] with reply [X].  The resolution overwrites the
    acknowledgement, and the loading placeholder stays in the
    transcript. *)
Theorem completed_after_form_overwrites_acknowledgement :
  messages Example.polling_after_form
  = [ plain bot Widget.welcomeMessage; plain user Example.hi; Widget.thinking;
      plain bot (Js.lit "Thanks! I've saved your information.") ] /\
  messages (Widget.step Example.polling_after_form
              (Widget.GetSettled 0 (inr (Example.completed Example.X))))
  = [ plain bot Widget.welcomeMessage; plain user Example.hi; Widget.thinking;
      plain bot Example.X ].
Proof. split; reflexivity. Qed.

(** C5 (a failed poll replaces the placeholder by the error entry) fails
    on the same run with the last poll answering [failed] with error
    ["bad input"]: the interval is cancelled and [isLoading] is cleared,
    the error entry carries the backend's detail, but it has overwritten
    the acknowledgement; the placeholder is still in the transcript. *)
Theorem failed_after_form_leaves_placeholder :
  let w' := Widget.step Example.polling_after_form
              (Widget.GetSettled 0 (inr (Example.failed (Some (Js.lit "bad input"))))) in
  messages w'
  = [ plain bot Widget.welcomeMessage; plain user Example.hi; Widget.thinking;
      error_message (Js.lit "An error occurred: bad input") ] /\
  In Widget.thinking (messages w') /\
  intervals w' = [] /\ isLoading w' = false.
Proof. cbv zeta. split; [reflexivity|]. split; [|split; reflexivity].
  right. right. left. reflexivity.
Qed.

(** Where an unsuccessful submit writes: the last entry, whatever it is.
    The timer, the ref and the handle counter are left as they were. *)
Lemma failed_submit_overwrites_last : forall w k p r pre x y,
  nth_error (posts w) k = Some p -> submit_fails r = true ->
  messages w = pre ++ [x; y] ->
  let w' := Widget.step w (Widget.PostSettled k r) in
  messages w' = pre ++ [x; error_message (submit_error_text r)] /\
  isLoading w' = false /\
  intervals w' = intervals w /\
  nextHandle w' = nextHandle w /\
  pollingIntervalRef w' = pollingIntervalRef w /\
  gets w' = gets w.
Proof.
  intros w k p r pre x y Hk Hf Hm w'. subst w'. unfold Widget.step. rewrite Hk.
  rewrite WidgetFacts.widget_submit_failure by assumption. cbn.
  rewrite Hm, slice_snoc, <- app_assoc.
  split; [reflexivity|]. repeat split.
Qed.

(** In every state that shows the contact form, an accepted send followed
    by a form submission and then by the unsuccessful settlement of its
    submit leaves the placeholder in the transcript: the error entry is
    written over the acknowledgement of the form. *)
Lemma failed_submit_after_form_submission : forall w arg nm em r,
  send_accepted w (Widget.default_inputValue w arg) ->
  showContactForm w = true ->
  Js.truthy nm = true -> Js.truthy em = true ->
  submit_fails r = true ->
  let messageText := Widget.default_inputValue w arg in
  let w1 := perform (Widget.handleSendMessage w arg) w in
  let w2 := Widget.steps w1 [ Widget.SubmitContactForm nm em;
                              Widget.PostSettled (length (posts w)) r ] in
  messages w2
  = messages w ++ [ plain user messageText; Widget.thinking;
                    error_message (submit_error_text r) ] /\
  isLoading w2 = false /\
  intervals w2 = intervals w.
Proof.
  intros w arg nm em r Ha Hs Hn He Hf messageText w1 w2.
  pose proof (accepted_send_script w arg Ha) as Ep.
  fold messageText in Ep.
  assert (E1 : w1 = run (send_script w messageText) w).
  { subst w1. unfold perform. now rewrite Ep. }
  set (wf := Widget.step w1 (Widget.SubmitContactForm nm em)).
  assert (Ef : messages wf = (messages w ++ [plain user messageText])
                               ++ [Widget.thinking; acknowledgement] /\
               posts wf = posts w
                 ++ [{| post_body := {| message := Some messageText;
                                        thread_id := threadId w |};
                        post_userInfo := userInfo w |}] /\
               intervals wf = intervals w).
  { subst wf. unfold Widget.step.
    replace (showContactForm w1) with true by (rewrite E1; cbn; now rewrite Hs).
    unfold Widget.ContactForm_handleSubmit. rewrite Hn, He. rewrite E1. cbn.
    rewrite <- !app_assoc. repeat split. }
  destruct Ef as (Em & Epo & Ei).
  assert (Hk : nth_error (posts wf) (length (posts w))
               = Some {| post_body := {| message := Some messageText;
                                         thread_id := threadId w |};
                         post_userInfo := userInfo w |}).
  { rewrite Epo. apply nth_error_snoc. }
  destruct (failed_submit_overwrites_last wf _ _ r _ _ _ Hk Hf Em)
    as (Hm & Hl & Hi & _).
  subst w2. cbn [Widget.steps fold_left]. fold wf.
  split; [|split; [exact Hl | now rewrite Hi]].
  rewrite Hm, <- app_assoc. reflexivity.
Qed.

(** C6 (an unsuccessful submit resolves the placeholder into the one error
    entry) fails on this run of the widget.  The widget is idle with the
    contact form on screen (the state is reachable: the [pending] answer
    with the form signal arrived after the [completed] one).  The user
    sends [again], submits the form, and the submit request fails on the
    network.  No interval is registered, [isLoading] is cleared and no
    request is outstanding, but the error entry has been written over the
    acknowledgement of the form, and the placeholder of the send stays in
    the transcript. *)
Theorem failed_submit_after_form_leaves_placeholder :
  let w := idle_with_form in
  let w' := Widget.steps w failed_submit_after_form in
  Widget.reachable w /\
  isLoading w = false /\ showContactForm w = true /\ intervals w = [] /\
  submit_fails Example.network_down = true /\
  messages w
  = [ plain bot Widget.welcomeMessage; plain user Example.hi;
      plain bot Example.X ] /\
  messages w'
  = messages w
      ++ [ plain user (Js.lit "again"); Widget.thinking;
           error_message (Js.lit "Could not connect to the assistant.") ] /\
  In Widget.thinking (messages w') /\
  ~ In acknowledgement (messages w') /\
  isLoading w' = false /\
  intervals w' = [] /\ nextHandle w' = nextHandle w /\
  posts w' = [] /\ gets w' = [].
Proof.
  cbv zeta.
  split; [apply WidgetInv.widget_steps_reachable;
          apply example_polling_reachable|].
  do 6 (split; [reflexivity|]).
  split; [do 4 right; left; reflexivity|].
  split; [|repeat split].
  intros H. cbn in H.
  repeat (destruct H as [H|H]; [discriminate H|]). exact H.
Qed.

Lemma failed_submit_resolves_without_polling_witness :
  submit_fails Example.network_down = true /\
  send_accepted (Widget.mount 0) Example.hi /\
  messages
    (Widget.step
       (perform (Widget.handleSendMessage (Widget.mount 0) (Some Example.hi))
                (Widget.mount 0))
       (Widget.PostSettled 0 Example.network_down))
  = messages (Widget.mount 0)
      ++ [plain user Example.hi;
          error_message (Js.lit "Could not connect to the assistant.")].
Proof.
  assert (Hf : submit_fails Example.network_down = true) by reflexivity.
  assert (Ha : send_accepted (Widget.mount 0) Example.hi).
  { split; [discriminate | split; reflexivity]. }
  split; [exact Hf | split; [exact Ha|]].
  exact (proj1 (proj2 (proj1 (proj2
    (failed_submit_resolves_without_polling (Widget.mount 0) Example.network_down Hf))
    (Some Example.hi) Ha))).
Defined.

(** ** Runs of the three components on scripted backends *)

Example trim_examples :
  Js.trim (Js.lit "  a b  ") = Js.lit "a b" /\
  Js.trim ([9; 160; 8232; 65279]%N) = [] /\
  Js.trim (Js.lit "") = [].
Proof. repeat split. Qed.

Example mount_example :
  threadId (Widget.mount 1730000000000) = Some (Js.lit "session_1730000000000") /\
  length (messages (Widget.mount 1730000000000)) = 1%nat /\
  length (suggestedReplies (Widget.mount 1730000000000)) = 4%nat /\
  length Widget.welcomeMessage = 569%nat.
Proof. repeat split. Qed.

(** The round trip of the specification on the polling component of
    [App.js]: submit answers [t1], status answers [pending] then
    [completed] with reply [X]. *)
Example polling_app_roundtrip :
  let w := PollingApp.steps Example.polling_app
             [ PollingApp.GetSettled 0 (inr (Example.pending None));
               PollingApp.Tick 1;
               PollingApp.GetSettled 0 (inr (Example.completed Example.X)) ] in
  messages w = [plain bot PollingApp.greeting; plain user Example.hi; plain bot Example.X] /\
  isLoading w = false /\ intervals w = [].
Proof. repeat split. Qed.

(** The request/response component: a reply, and a server error. *)
Example simple_app_roundtrip :
  messages (SimpleApp.step Example.simple_sending
              (SimpleApp.PostSettled 0
                 (inr {| task_id := None; data_reply := Some Example.X |})))
  = [plain bot SimpleApp.greeting; plain user Example.hi; plain bot Example.X] /\
  messages (SimpleApp.step Example.simple_sending
              (SimpleApp.PostSettled 0
                 (inl (AxiosError (Some (Js.lit "ERR_BAD_RESPONSE"))
                         (Js.lit "Request failed with status code 500")
                         (Some {| err_status := 500; detail := Some (Js.lit "boom") |})))))
  = [plain bot SimpleApp.greeting; plain user Example.hi;
     error_message (Js.lit "Server Error (500): boom")].
Proof. split; reflexivity. Qed.

(** A failed task whose result carries the detail ["bad input"], with no
    form submitted in between: the last entry is the error entry with that
    detail. *)
Example failed_with_detail :
  let w := Widget.step Example.polling
             (Widget.GetSettled 0 (inr (Example.failed (Some (Js.lit "bad input"))))) in
  messages w
  = [plain bot Widget.welcomeMessage; plain user Example.hi;
     error_message (Js.lit "An error occurred: bad input")] /\
  isLoading w = false /\ intervals w = [].
Proof. repeat split. Qed.

(** The interval callback keeps the [userInfo] of the render that sent the
    message: after the form was submitted, a further [pending] response
    with the form signal raises the flag again. *)
Example form_signal_after_submit :
  is_some (userInfo Example.polling_after_form) = true /\
  showContactForm Example.polling_after_form = false /\
  showContactForm
    (Widget.step Example.polling_after_form
       (Widget.GetSettled 0 (inr (Example.pending Example.contact_info)))) = true.
Proof. repeat split. Qed.

(** * The rest of the components *)

(** ** Every event is one of nine moves *)

Lemma guard_cases : forall w t,
  (negb (Js.truthy (Js.trim t)) || isLoading w || negb (Js.truthy_opt (threadId w))
   = true) \/
  send_accepted w t.
Proof.
  intros w t. unfold send_accepted.
  destruct (Js.trim t) eqn:Et; [left; reflexivity|].
  destruct (isLoading w); [left; reflexivity|].
  destruct (Js.truthy_opt (threadId w)); [right | left; reflexivity].
  repeat split; discriminate.
Qed.

Lemma send_is_move : forall w arg,
  widget_move w (perform (Widget.handleSendMessage w arg) w).
Proof.
  intros w arg.
  destruct (guard_cases w (Widget.default_inputValue w arg)) as [H|H].
  - unfold perform, Widget.handleSendMessage. cbv zeta. rewrite H. apply move_none.
  - unfold perform. rewrite (accepted_send_script w arg H). now apply move_send.
Qed.

Lemma submit_succeeds : forall r,
  submit_fails r = false ->
  exists t d, r = inr {| task_id := Some t; data_reply := d |} /\ Js.truthy t = true.
Proof.
  intros [e|[[t|] d]] H; simpl in H; try discriminate.
  exists t, d. split; [reflexivity|]. now destruct (Js.truthy t).
Qed.

Lemma widget_step_move : forall w e, widget_move w (Widget.step w e).
Proof.
  intros w e. destruct e as [v| |key|index|nm em|h|k r|k r]; unfold Widget.step.
  - destruct (isLoading w) eqn:El; [apply move_none | now apply move_typing].
  - destruct (isLoading w); [apply move_none | apply send_is_move].
  - destruct (isLoading w); [apply move_none|]. unfold Widget.handleKeyPress.
    destruct (Js.eqb key (Js.lit "Enter") && negb (isLoading w));
      [apply send_is_move | apply move_none].
  - destruct (nth_error (suggestedReplies w) index);
      [apply send_is_move | apply move_none].
  - destruct (showContactForm w) eqn:Es; [|apply move_none].
    unfold Widget.ContactForm_handleSubmit.
    destruct (Js.truthy nm) eqn:En; [|apply move_none].
    destruct (Js.truthy em) eqn:Ee; [|apply move_none].
    now apply move_form.
  - destruct (find_interval h (intervals w)) as [i|] eqn:E; [|apply move_none].
    apply find_interval_In in E. destruct E as [Hin _].
    exact (move_tick w i Hin).
  - destruct (nth_error (posts w) k) as [p|] eqn:E; [|apply move_none].
    destruct (submit_fails r) eqn:Ef.
    + rewrite WidgetFacts.widget_submit_failure by assumption.
      exact (move_submit_failed w k p r E Ef).
    + destruct (submit_succeeds r Ef) as (t & d & -> & Ht).
      rewrite WidgetFacts.widget_submit_success by assumption.
      exact (move_poll_start w k p t E Ht).
  - destruct (nth_error (gets w) k) as [g|] eqn:E; [|apply move_none].
    destruct (resolving r) eqn:Er.
    + rewrite WidgetFacts.widget_poll_resolution by assumption.
      exact (move_resolved w k g r E Er).
    + destruct r as [e|a]; [discriminate|].
      rewrite WidgetFacts.widget_poll_pending by assumption.
      destruct (Widget.is_contact_info (form_to_display a)
                && negb (is_some (get_userInfo g))) eqn:Ec.
      * apply (move_pending w k g true E). intros _.
        apply andb_true_iff in Ec. destruct Ec as [_ Ec].
        now destruct (get_userInfo g).
      * apply (move_pending w k g false E). discriminate.
Qed.

(** An invariant of the moves that holds at mount holds in every reachable
    state. *)
Lemma reachable_by_moves : forall (P : App -> Prop),
  (forall now, P (Widget.mount now)) ->
  (forall w w', widget_move w w' -> P w -> P w') ->
  forall w, Widget.reachable w -> P w.
Proof.
  intros P H0 Hs w Hr. induction Hr as [now | w e _ IH].
  - apply H0.
  - exact (Hs w _ (widget_step_move w e) IH).
Qed.

Lemma steps_by_moves : forall (P : App -> Prop),
  (forall w w', widget_move w w' -> P w -> P w') ->
  forall es w, P w -> P (Widget.steps w es).
Proof.
  intros P Hs es. induction es as [|e es IH]; intros w H; [exact H|].
  simpl. apply IH. exact (Hs w _ (widget_step_move w e) H).
Qed.

Lemma start_poll_fields : forall t u w0,
  let w' := run [IfPollingIntervalRef ClearPollingInterval; SetPollingInterval t u] w0 in
  messages w' = messages w0 /\ isLoading w' = isLoading w0 /\
  gets w' = gets w0 /\ posts w' = posts w0 /\
  showContactForm w' = showContactForm w0 /\ userInfo w' = userInfo w0 /\
  threadId w' = threadId w0 /\ suggestedReplies w' = suggestedReplies w0 /\
  exists l,
    intervals w'
    = l ++ [{| handle := nextHandle w0; iv_task := t; iv_userInfo := u |}] /\
    forall i, In i l -> In i (intervals w0).
Proof.
  intros t u w0. simpl. destruct (ref_truthy (pollingIntervalRef w0)); simpl.
  - repeat (split; [reflexivity|]).
    exists (clearInterval (pollingIntervalRef w0) (intervals w0)).
    split; [reflexivity|]. intros i. apply clearInterval_In.
  - repeat (split; [reflexivity|]). exists (intervals w0). split; auto.
Qed.

Lemma resolution_message_bot : forall r,
  type (resolution_message r) = bot /\ msgIsLoading (resolution_message r) = false.
Proof.
  intros [e|a]; [split; reflexivity|]. unfold resolution_message.
  destruct (Js.eqb (status a) (Js.lit "completed")); [|split; reflexivity].
  destruct (result a); split; reflexivity.
Qed.

(** ** User turns are never lost *)

Lemma user_messages_app : forall l l',
  user_messages (l ++ l') = user_messages l ++ user_messages l'.
Proof. intros. apply filter_app. Qed.

Lemma replace_bot_by_bot : forall l m,
  ends_with_bot l -> type m = bot ->
  ends_with_bot (Js.slice_0_m1 l ++ [m]) /\
  user_messages (Js.slice_0_m1 l ++ [m]) = user_messages l.
Proof.
  intros l m (pre & b & -> & Hb) Hm. unfold Js.slice_0_m1.
  rewrite removelast_last. split.
  - now exists pre, m.
  - rewrite !user_messages_app. unfold user_messages. simpl.
    unfold is_user. now rewrite Hb, Hm.
Qed.

Lemma move_user_messages : forall w w',
  widget_move w w' -> ends_with_bot (messages w) ->
  ends_with_bot (messages w') /\
  (user_messages (messages w') = user_messages (messages w) \/
   exists t, Js.trim t <> [] /\
             user_messages (messages w') = user_messages (messages w) ++ [plain user t]).
Proof.
  intros w w' Hm Hb. destruct Hm.
  - auto.
  - auto.
  - split.
    + exists (messages w ++ [plain user messageText]), Widget.thinking.
      split; [|reflexivity]. cbn. now rewrite <- app_assoc.
    + right. exists messageText. split; [apply H|]. cbn.
      now rewrite user_messages_app.
  - split.
    + exists (messages w), acknowledgement. split; reflexivity.
    + left. cbn. rewrite user_messages_app. cbn. apply app_nil_r.
  - auto.
  - destruct (start_poll_fields t (post_userInfo p)
                (with_posts (remove_nth k (posts w)) w)) as (Em & _).
    rewrite Em. auto.
  - destruct (replace_bot_by_bot (messages w) (error_message (submit_error_text r)) Hb eq_refl)
      as [H1 H2].
    split; [exact H1 | left; exact H2].
  - destruct (resolution_message_bot r) as [Ht _].
    destruct (replace_bot_by_bot (messages w) (resolution_message r) Hb Ht) as [H1 H2].
    split; [exact H1 | left; exact H2].
  - destruct raise; auto.
Qed.

Lemma widget_ends_with_bot : forall w, Widget.reachable w -> ends_with_bot (messages w).
Proof.
  apply reachable_by_moves.
  - intro now. exists [], (plain bot Widget.welcomeMessage). split; reflexivity.
  - intros w w' Hm Hb. exact (proj1 (move_user_messages w w' Hm Hb)).
Qed.

(** X1. In every reachable state of the widget with contact form the
    transcript ends with an entry of the assistant, so that the positional
    replacement of a resolution never hits a user message: whatever event
    happens, the user messages of the transcript stay as they are, in
    order, and at most one is added at the end, the text of an accepted
    send; after any sequence of events the former user messages are a
    prefix of the new ones. *)
Theorem user_messages_only_grow :
  forall w, Widget.reachable w ->
    ends_with_bot (messages w) /\
    (forall e,
        user_messages (messages (Widget.step w e)) = user_messages (messages w) \/
        exists t, Js.trim t <> [] /\
          user_messages (messages (Widget.step w e))
          = user_messages (messages w) ++ [plain user t]) /\
    (forall es, exists added,
        user_messages (messages (Widget.steps w es))
        = user_messages (messages w) ++ added).
Proof.
  intros w Hr. pose proof (widget_ends_with_bot w Hr) as Hb.
  split; [exact Hb | split].
  - intro e. exact (proj2 (move_user_messages w _ (widget_step_move w e) Hb)).
  - intro es. revert w Hr Hb. induction es as [|e es IH]; intros w Hr Hb.
    + exists []. symmetry. apply app_nil_r.
    + simpl.
      destruct (move_user_messages w _ (widget_step_move w e) Hb) as [Hb' Hu].
      destruct (IH (Widget.step w e) (Widget.reachable_step w e Hr) Hb') as [added Ha].
      destruct Hu as [Hu|(t & _ & Hu)]; rewrite Ha, Hu.
      * now exists added.
      * exists (plain user t :: added). now rewrite <- app_assoc.
Qed.

Lemma user_messages_only_grow_witness :
  Widget.reachable Example.polling_after_form /\
  exists added,
    user_messages
      (messages (Widget.steps Example.polling_after_form
                   [Widget.GetSettled 0 (inr (Example.completed Example.X))]))
    = user_messages (messages Example.polling_after_form) ++ added.
Proof.
  assert (Hr : Widget.reachable Example.polling_after_form).
  { apply WidgetInv.widget_steps_reachable, example_polling_reachable. }
  split; [exact Hr|].
  exact (proj2 (proj2 (user_messages_only_grow Example.polling_after_form Hr))
               [Widget.GetSettled 0 (inr (Example.completed Example.X))]).
Defined.

(** ** The greeting stays first *)

Lemma hd_error_app : forall (A : Type) (l l' : list A) x,
  hd_error l = Some x -> hd_error (l ++ l') = Some x.
Proof. intros A [|y l] l' x H; [discriminate | exact H]. Qed.

Lemma hd_error_replace_last : forall (l : list Message) m x,
  (2 <= length l)%nat -> hd_error l = Some x ->
  hd_error (Js.slice_0_m1 l ++ [m]) = Some x /\
  (2 <= length (Js.slice_0_m1 l ++ [m]))%nat.
Proof.
  intros l m x Hl Hh. destruct l as [|a [|b l]]; simpl in Hl; try lia.
  split.
  - exact Hh.
  - change (Js.slice_0_m1 (a :: b :: l) ++ [m])
      with (apply_updater (ReplaceLast m) (a :: b :: l)).
    rewrite replace_last_length by discriminate. simpl. lia.
Qed.

Lemma greeted_grow : forall g w w' ms,
  greeted g w -> ms <> [] -> messages w' = messages w ++ ms -> greeted g w'.
Proof.
  intros g w w' ms [Hh _] Hms E. split.
  - rewrite E. now apply hd_error_app.
  - left. rewrite E, length_app.
    destruct (messages w); [discriminate|]. destruct ms; [congruence|]. simpl. lia.
Qed.

Lemma greeted_pending : forall g w w',
  greeted g w -> (posts w <> [] \/ gets w <> [] \/ intervals w <> []) ->
  messages w' = messages w -> greeted g w'.
Proof.
  intros g w w' [Hh Hl] Hp E. split; rewrite E; [exact Hh|].
  destruct Hl as [Hl|(H1 & H2 & H3)]; [now left|].
  destruct Hp as [Hp|[Hp|Hp]]; contradiction.
Qed.

Lemma greeted_replace : forall g w w' m,
  greeted g w -> (posts w <> [] \/ gets w <> [] \/ intervals w <> []) ->
  messages w' = Js.slice_0_m1 (messages w) ++ [m] -> greeted g w'.
Proof.
  intros g w w' m [Hh Hl] Hp E.
  assert (H2 : (2 <= length (messages w))%nat).
  { destruct Hl as [Hl|(H1 & H2 & H3)]; [exact Hl|].
    destruct Hp as [Hp|[Hp|Hp]]; contradiction. }
  destruct (hd_error_replace_last (messages w) m g H2 Hh) as [Ha Hb].
  split; rewrite E; [exact Ha | now left].
Qed.

Lemma nth_error_nonempty : forall (A : Type) (l : list A) k x,
  nth_error l k = Some x -> l <> [].
Proof. intros A l k x H ->. destruct k; discriminate. Qed.

Lemma In_nonempty : forall (A : Type) (l : list A) x, In x l -> l <> [].
Proof. intros A l x H ->. contradiction. Qed.

Lemma move_greeted : forall g w w', widget_move w w' -> greeted g w -> greeted g w'.
Proof.
  intros g w w' Hm Hg. destruct Hm.
  - exact Hg.
  - exact Hg.
  - apply (greeted_grow g w _ [plain user messageText; Widget.thinking] Hg);
      [discriminate | reflexivity].
  - apply (greeted_grow g w _ [acknowledgement] Hg); [discriminate | reflexivity].
  - apply (greeted_pending g w _ Hg); [|reflexivity].
    right; right. eapply In_nonempty; eauto.
  - apply (greeted_pending g w _ Hg).
    + left. eapply nth_error_nonempty; eauto.
    + apply (start_poll_fields t (post_userInfo p)
               (with_posts (remove_nth k (posts w)) w)).
  - apply (greeted_replace g w _ (error_message (submit_error_text r)) Hg);
      [|reflexivity].
    left. eapply nth_error_nonempty; eauto.
  - apply (greeted_replace g w _ (resolution_message r) Hg); [|reflexivity].
    right; left. eapply nth_error_nonempty; eauto.
  - apply (greeted_pending g w _ Hg).
    + right; left. eapply nth_error_nonempty; eauto.
    + destruct raise; reflexivity.
Qed.

(** X2. The welcome message is the first entry of the transcript in every
    reachable state of the widget with contact form: a resolution replaces
    the last entry only while a request is pending, and by then the
    transcript has at least two entries. *)
Theorem welcome_stays_first :
  forall w, Widget.reachable w ->
    hd_error (messages w) = Some (plain bot Widget.welcomeMessage) /\
    forall es,
      hd_error (messages (Widget.steps w es))
      = Some (plain bot Widget.welcomeMessage).
Proof.
  intros w Hr.
  assert (Hg : forall w, Widget.reachable w ->
                         greeted (plain bot Widget.welcomeMessage) w).
  { apply reachable_by_moves.
    - intro now. split; [reflexivity | right; repeat split].
    - intros w0 w' Hm H. eapply move_greeted; eauto. }
  split; [apply (Hg w Hr)|]. intro es.
  apply (Hg _ (WidgetInv.widget_steps_reachable es w Hr)).
Qed.

Lemma welcome_stays_first_witness :
  Widget.reachable Example.polling_after_form /\
  hd_error (messages Example.polling_after_form)
  = Some (plain bot Widget.welcomeMessage).
Proof.
  assert (Hr : Widget.reachable Example.polling_after_form).
  { apply WidgetInv.widget_steps_reachable, example_polling_reachable. }
  split; [exact Hr|].
  exact (proj1 (welcome_stays_first Example.polling_after_form Hr)).
Defined.

(** ** The session id and the submit requests *)

Lemma session_frame : forall sid w w',
  session sid w -> threadId w' = threadId w ->
  (forall p, In p (posts w') -> In p (posts w)) -> session sid w'.
Proof.
  intros sid w w' [Ht Hp] Et Ep. split; [now rewrite Et|].
  intros p Hin. apply Hp. now apply Ep.
Qed.

Lemma move_session : forall sid w w', widget_move w w' -> session sid w -> session sid w'.
Proof.
  intros sid w w' Hm Hs. destruct Hm.
  - exact Hs.
  - exact Hs.
  - destruct Hs as [Ht Hp]. split; [exact Ht|]. intros p Hin.
    cbn in Hin. apply in_app_or in Hin. destruct Hin as [Hin|[<-|[]]].
    + now apply Hp.
    + cbn. split; [exact Ht|]. exists messageText. split; [reflexivity | apply H].
  - exact Hs.
  - exact Hs.
  - destruct (start_poll_fields t (post_userInfo p)
                (with_posts (remove_nth k (posts w)) w))
      as (_ & _ & _ & Ep & _ & _ & Et & _).
    apply (session_frame sid w); [exact Hs | exact Et|].
    intros q Hq. rewrite Ep in Hq. cbn in Hq.
    eapply nth_error_remove_nth_In; eauto.
  - apply (session_frame sid w); [exact Hs | reflexivity|].
    intros q Hq. cbn in Hq. eapply nth_error_remove_nth_In; eauto.
  - apply (session_frame sid w); [exact Hs | reflexivity | auto].
  - apply (session_frame sid w); [exact Hs | now destruct raise|].
    destruct raise; auto.
Qed.

(** X3. The session id is fixed at mount: after any sequence of events on
    the widget mounted at time [now] it is still ["session_"] followed by
    the decimal digits of [now], and every submit request that is pending
    carries exactly that id as [thread_id], with a [message] that is not
    blank and is the text as it was typed or selected, untrimmed. *)
Theorem session_id_is_fixed :
  forall now es,
    let sid := Js.lit "session_" ++ Js.of_N now in
    let w := Widget.steps (Widget.mount now) es in
    threadId w = Some sid /\
    (forall p, In p (posts w) ->
       thread_id (post_body p) = Some sid /\
       exists t, message (post_body p) = Some t /\ Js.trim t <> []) /\
    (forall arg,
       send_accepted w (Widget.default_inputValue w arg) ->
       posts (perform (Widget.handleSendMessage w arg) w)
       = posts w ++ [{| post_body :=
                          {| message := Some (Widget.default_inputValue w arg);
                             thread_id := Some sid |};
                        post_userInfo := userInfo w |}]).
Proof.
  intros now es sid w.
  assert (Hs : session sid w).
  { subst w. apply (steps_by_moves (session sid)).
    - intros w0 w' Hm H. eapply move_session; eauto.
    - split; [reflexivity | intros p []]. }
  destruct Hs as [Ht Hp]. split; [exact Ht | split; [exact Hp|]].
  intros arg Ha. unfold perform. rewrite (accepted_send_script w arg Ha).
  cbn. now rewrite Ht.
Qed.

(** ** Suggested replies *)

Lemma move_suggestions : forall w w',
  widget_move w w' ->
  suggestedReplies w' = suggestedReplies w \/ suggestedReplies w' = [].
Proof.
  intros w w' Hm. destruct Hm; auto.
  - left. apply (start_poll_fields t (post_userInfo p)
                   (with_posts (remove_nth k (posts w)) w)).
  - left. now destruct raise.
Qed.

(** A move either sends a user message and empties the suggestions, or
    does neither. *)
Lemma move_suggestions_sync : forall w w',
  widget_move w w' -> ends_with_bot (messages w) ->
  (user_messages (messages w') = user_messages (messages w) /\
   suggestedReplies w' = suggestedReplies w) \/
  (exists t, Js.trim t <> [] /\
             user_messages (messages w')
             = user_messages (messages w) ++ [plain user t] /\
             suggestedReplies w' = []).
Proof.
  intros w w' Hm Hb. destruct Hm.
  - left. split; reflexivity.
  - left. split; reflexivity.
  - right. exists messageText. split; [apply H|]. split; [|reflexivity].
    cbn. now rewrite user_messages_app.
  - left. split; [|reflexivity]. cbn. rewrite user_messages_app. cbn.
    apply app_nil_r.
  - left. split; reflexivity.
  - left.
    destruct (start_poll_fields t (post_userInfo p)
                (with_posts (remove_nth k (posts w)) w))
      as (Em & _ & _ & _ & _ & _ & _ & Es & _).
    rewrite Em, Es. split; reflexivity.
  - left. split; [|reflexivity].
    exact (proj2 (replace_bot_by_bot (messages w)
                    (error_message (submit_error_text r)) Hb eq_refl)).
  - left. split; [|reflexivity].
    exact (proj2 (replace_bot_by_bot (messages w) (resolution_message r) Hb
                    (proj1 (resolution_message_bot r)))).
  - left. destruct raise; split; reflexivity.
Qed.

(** X4. The suggested replies are the four seeded at mount until the
    first accepted send and are empty from then on.  The mount seeds
    exactly the four texts of the source.  In every reachable state,
    either no user message has been sent and the suggestions are these
    four, or a user message has been sent and there is none.  Every event
    either adds a user message to the transcript and empties the
    suggestions, or does neither.  No event brings a suggestion back, so
    after an accepted send a click on a suggestion button can do
    nothing. *)
Theorem suggestions_never_come_back :
  (forall now,
     suggestedReplies (Widget.mount now) = initial_suggestions /\
     user_messages (messages (Widget.mount now)) = []) /\
  (forall w, Widget.reachable w ->
     (user_messages (messages w) = [] /\ suggestedReplies w = initial_suggestions) \/
     (user_messages (messages w) <> [] /\ suggestedReplies w = [])) /\
  (forall w e, Widget.reachable w ->
     let w' := Widget.step w e in
     (user_messages (messages w') = user_messages (messages w) /\
      suggestedReplies w' = suggestedReplies w) \/
     (exists t, Js.trim t <> [] /\
                user_messages (messages w')
                = user_messages (messages w) ++ [plain user t] /\
                suggestedReplies w' = [])) /\
  (forall w es, suggestedReplies w = [] -> suggestedReplies (Widget.steps w es) = []) /\
  (forall w arg es,
     send_accepted w (Widget.default_inputValue w arg) ->
     suggestedReplies (Widget.steps (perform (Widget.handleSendMessage w arg) w) es) = [] /\
     forall index,
       Widget.step (Widget.steps (perform (Widget.handleSendMessage w arg) w) es)
                   (Widget.SelectSuggestion index)
       = Widget.steps (perform (Widget.handleSendMessage w arg) w) es).
Proof.
  assert (Hkeep : forall w es,
             suggestedReplies w = [] -> suggestedReplies (Widget.steps w es) = []).
  { intros w es. apply (steps_by_moves (fun s => suggestedReplies s = [])).
    intros w0 w' Hm H. destruct (move_suggestions w0 w' Hm) as [E|E]; congruence. }
  split; [|split; [|split; [|split]]].
  - intro now. split; reflexivity.
  - intros w Hr.
    cut (ends_with_bot (messages w) /\
         ((user_messages (messages w) = [] /\ suggestedReplies w = initial_suggestions) \/
          (user_messages (messages w) <> [] /\ suggestedReplies w = []))).
    { intros [_ H]. exact H. }
    revert w Hr. apply reachable_by_moves.
    + intro now. split.
      * exists [], (plain bot Widget.welcomeMessage). split; reflexivity.
      * left. split; reflexivity.
    + intros w w' Hm [Hb H].
      split; [exact (proj1 (move_user_messages w w' Hm Hb))|].
      destruct (move_suggestions_sync w w' Hm Hb) as [[Eu Es]|(t & _ & Eu & Es)].
      * rewrite Eu, Es. exact H.
      * right. split; [|exact Es]. rewrite Eu.
        intro E. apply app_eq_nil in E. destruct E as [_ E]. discriminate E.
  - intros w e Hr w'. subst w'.
    apply move_suggestions_sync; [apply widget_step_move|].
    now apply widget_ends_with_bot.
  - exact Hkeep.
  - intros w arg es Ha.
    assert (E : suggestedReplies
                  (Widget.steps (perform (Widget.handleSendMessage w arg) w) es) = []).
    { apply Hkeep. unfold perform. now rewrite (accepted_send_script w arg Ha). }
    split; [exact E|]. intro index. unfold Widget.step. rewrite E. now destruct index.
Qed.

Lemma suggestions_never_come_back_witness :
  Widget.reachable Example.polling /\
  ((user_messages (messages Example.polling) = [] /\
    suggestedReplies Example.polling = initial_suggestions) \/
   (user_messages (messages Example.polling) <> [] /\
    suggestedReplies Example.polling = [])) /\
  send_accepted (Widget.mount 0) Example.hi /\
  suggestedReplies
    (Widget.steps (perform (Widget.handleSendMessage (Widget.mount 0) (Some Example.hi))
                           (Widget.mount 0))
                  [Widget.PostSettled 0 Example.network_down]) = [].
Proof.
  pose proof example_polling_reachable as Hr.
  assert (Ha : send_accepted (Widget.mount 0) Example.hi).
  { split; [discriminate | split; reflexivity]. }
  split; [exact Hr|].
  split; [exact (proj1 (proj2 suggestions_never_come_back) Example.polling Hr)|].
  split; [exact Ha|].
  exact (proj1 (proj2 (proj2 (proj2 (proj2 suggestions_never_come_back)))
                      (Widget.mount 0) (Some Example.hi)
                      [Widget.PostSettled 0 Example.network_down] Ha)).
Defined.

(** ** Contact info *)

Lemma move_contact : forall w w',
  widget_move w w' ->
  (contact_valid w -> contact_valid w') /\
  (is_some (userInfo w) = true -> is_some (userInfo w') = true).
Proof.
  intros w w' Hm. destruct Hm; auto.
  - split; [|reflexivity]. intros _ d Hd. cbn in Hd. injection Hd as <-. auto.
  - destruct (start_poll_fields t (post_userInfo p)
                (with_posts (remove_nth k (posts w)) w))
      as (_ & _ & _ & _ & _ & Eu & _).
    unfold contact_valid. rewrite Eu. auto.
  - destruct raise; auto.
Qed.

(** X5. Contact info enters the state only through the contact form's own
    check: in every reachable state the stored contact info, if any, has a
    non-empty name and a non-empty email; a submission of the form with an
    empty field changes nothing; and once contact info is stored no event
    removes it. *)
Theorem contact_info_is_complete_and_kept :
  (forall w, Widget.reachable w -> contact_valid w) /\
  (forall w nm em,
     Js.truthy nm = false \/ Js.truthy em = false ->
     Widget.step w (Widget.SubmitContactForm nm em) = w) /\
  (forall w es,
     is_some (userInfo w) = true -> is_some (userInfo (Widget.steps w es)) = true).
Proof.
  split; [|split].
  - apply reachable_by_moves.
    + intros now d Hd. discriminate.
    + intros w w' Hm. apply (move_contact w w' Hm).
  - intros w nm em H. unfold Widget.step, Widget.ContactForm_handleSubmit.
    destruct (showContactForm w); [|reflexivity].
    destruct H as [-> | ->]; [reflexivity|].
    now rewrite andb_false_r.
  - intros w es. apply (steps_by_moves (fun s => is_some (userInfo s) = true)).
    intros w0 w' Hm. apply (move_contact w0 w' Hm).
Qed.

Lemma contact_info_is_complete_and_kept_witness :
  Widget.reachable Example.polling_after_form /\
  userInfo Example.polling_after_form = Some Example.ada /\
  Js.truthy (name Example.ada) = true /\ Js.truthy (email Example.ada) = true.
Proof.
  assert (Hr : Widget.reachable Example.polling_after_form).
  { apply WidgetInv.widget_steps_reachable, example_polling_reachable. }
  split; [exact Hr | split; [reflexivity|]].
  exact (proj1 contact_info_is_complete_and_kept
               Example.polling_after_form Hr Example.ada eq_refl).
Defined.

(** ** Task ids *)

Lemma move_tasks_named : forall w w', widget_move w w' -> tasks_named w -> tasks_named w'.
Proof.
  intros w w' Hm [Hi Hg]. destruct Hm; try (split; assumption).
  - split; [exact Hi|]. intros g Hin. cbn in Hin.
    apply in_app_or in Hin. destruct Hin as [Hin|[<-|[]]];
      [now apply Hg | cbn; now apply Hi].
  - destruct (start_poll_fields t (post_userInfo p)
                (with_posts (remove_nth k (posts w)) w))
      as (_ & _ & Eg & _ & _ & _ & _ & _ & l & El & Hl).
    split.
    + intros i Hin. rewrite El in Hin. apply in_app_or in Hin.
      destruct Hin as [Hin|[<-|[]]]; [apply Hi; now apply Hl | exact H0].
    + rewrite Eg. exact Hg.
  - split.
    + intros i Hin. apply Hi. cbn in Hin. eapply clearInterval_In; eauto.
    + intros g0 Hin. apply Hg. cbn in Hin. eapply nth_error_remove_nth_In; eauto.
  - split.
    + destruct raise; exact Hi.
    + intros g0 Hin. apply Hg.
      assert (Hin' : In g0 (remove_nth k (gets w))) by (destruct raise; exact Hin).
      eapply nth_error_remove_nth_In; eauto.
Qed.

(** X6. A poll is only ever started for the non-empty task id of a submit
    response: in every reachable state the active interval and every
    pending status request are for a task id that is not the empty string,
    and a submit response whose [task_id] is missing or empty starts no
    interval. *)
Theorem polls_have_a_task_id :
  (forall w, Widget.reachable w ->
     (forall i, In i (intervals w) -> Js.truthy (iv_task i) = true) /\
     (forall g, In g (gets w) -> Js.truthy (get_task g) = true)) /\
  (forall w k p d,
     nth_error (posts w) k = Some p ->
     let w' := Widget.step w
                 (Widget.PostSettled k (inr {| task_id := Some []; data_reply := d |})) in
     let w'' := Widget.step w
                  (Widget.PostSettled k (inr {| task_id := None; data_reply := d |})) in
     intervals w' = intervals w /\ intervals w'' = intervals w /\
     nextHandle w' = nextHandle w /\ nextHandle w'' = nextHandle w).
Proof.
  split.
  - apply (reachable_by_moves tasks_named).
    + intro now. split; intros ? [].
    + intros w w' Hm. now apply move_tasks_named.
  - intros w k p d Hk w' w''. subst w' w''. unfold Widget.step. rewrite Hk.
    rewrite !WidgetFacts.widget_submit_failure by reflexivity.
    repeat split.
Qed.

Lemma polls_have_a_task_id_witness :
  Widget.reachable Example.polling /\
  In {| handle := 1; iv_task := Example.t1; iv_userInfo := None |}
     (intervals Example.polling) /\
  Js.truthy Example.t1 = true.
Proof.
  pose proof example_polling_reachable as Hr.
  assert (Hin : In {| handle := 1; iv_task := Example.t1; iv_userInfo := None |}
                   (intervals Example.polling)) by (left; reflexivity).
  split; [exact Hr | split; [exact Hin|]].
  exact (proj1 (proj1 polls_have_a_task_id Example.polling Hr) _ Hin).
Defined.

(** ** Loading is never stuck *)

Lemma move_in_flight : forall w w', widget_move w w' -> in_flight w -> in_flight w'.
Proof.
  intros w w' Hm Hf. destruct Hm; try exact Hf.
  - intros _. left. cbn. intro E. apply app_eq_nil in E. destruct E; discriminate.
  - intros _. right.
    destruct (start_poll_fields t (post_userInfo p)
                (with_posts (remove_nth k (posts w)) w))
      as (_ & _ & _ & _ & _ & _ & _ & _ & l & El & _).
    rewrite El. intro E. apply app_eq_nil in E. destruct E; discriminate.
  - intro E. discriminate.
  - intro E. discriminate.
  - destruct raise; exact Hf.
Qed.

(** X7. The widget is never loading with nothing in flight: in every
    reachable state with [isLoading] true a submit request is pending or
    the poll interval is active.  And every way a turn can end leaves the
    widget ready for the next one: after a resolving status response, a
    rejected status request or an unsuccessful submit, a send of any text
    that is not blank is accepted. *)
Theorem loading_is_never_stuck :
  forall w, Widget.reachable w ->
    (isLoading w = true -> posts w <> [] \/ intervals w <> []) /\
    (forall t, Js.trim t <> [] ->
       (forall k g r,
           nth_error (gets w) k = Some g -> resolving r = true ->
           send_accepted (Widget.step w (Widget.GetSettled k r)) t) /\
       (forall k p r,
           nth_error (posts w) k = Some p -> submit_fails r = true ->
           send_accepted (Widget.step w (Widget.PostSettled k r)) t)).
Proof.
  intros w Hr. split.
  - revert w Hr. apply (reachable_by_moves in_flight).
    + intros now E. discriminate.
    + intros w w' Hm. now apply move_in_flight.
  - apply WidgetInv.widget_reachable_wf in Hr. destruct Hr as (_ & _ & _ & Ht).
    intros t Hn. split.
    + intros k g r Hk Hres. unfold Widget.step. rewrite Hk.
      rewrite WidgetFacts.widget_poll_resolution by assumption.
      split; [exact Hn | split; [reflexivity | exact Ht]].
    + intros k p r Hk Hf. unfold Widget.step. rewrite Hk.
      rewrite WidgetFacts.widget_submit_failure by assumption.
      split; [exact Hn | split; [reflexivity | exact Ht]].
Qed.

Lemma loading_is_never_stuck_witness :
  Widget.reachable Example.polling /\
  isLoading Example.polling = true /\
  (posts Example.polling <> [] \/ intervals Example.polling <> []).
Proof.
  pose proof example_polling_reachable as Hr.
  split; [exact Hr | split; [reflexivity|]].
  exact (proj1 (loading_is_never_stuck Example.polling Hr) eq_refl).
Defined.

Lemma session_id_is_fixed_witness :
  In {| post_body := {| message := Some Example.hi;
                        thread_id := Some (Js.lit "session_0") |};
        post_userInfo := None |}
     (posts (Widget.steps (Widget.mount 0) [Widget.Change Example.hi; Widget.ClickSend])) /\
  thread_id (post_body
     {| post_body := {| message := Some Example.hi;
                        thread_id := Some (Js.lit "session_0") |};
        post_userInfo := None |})
  = Some (Js.lit "session_" ++ Js.of_N 0).
Proof.
  assert (Hin : In {| post_body := {| message := Some Example.hi;
                                      thread_id := Some (Js.lit "session_0") |};
                      post_userInfo := None |}
                   (posts (Widget.steps (Widget.mount 0)
                             [Widget.Change Example.hi; Widget.ClickSend])))
    by (left; reflexivity).
  split; [exact Hin|].
  exact (proj1 (proj1 (proj2
    (session_id_is_fixed 0 [Widget.Change Example.hi; Widget.ClickSend])) _ Hin)).
Defined.

(** ** The interval callback keeps the render's contact info *)

Lemma send_starts_closure : forall w arg t d,
  single_timer w ->
  send_accepted w (Widget.default_inputValue w arg) ->
  Js.truthy t = true ->
  polling_closure (nextHandle w) (length (gets w)) t (userInfo w)
    (Widget.step (perform (Widget.handleSendMessage w arg) w)
       (Widget.PostSettled (length (posts w))
          (inr {| task_id := Some t; data_reply := d |}))).
Proof.
  intros w arg t d Ht Ha Htr.
  pose proof (accepted_send_script w arg Ha) as Ep.
  set (w1 := perform (Widget.handleSendMessage w arg) w).
  assert (E1 : w1 = run (send_script w (Widget.default_inputValue w arg)) w).
  { subst w1. unfold perform. now rewrite Ep. }
  set (w1' := with_posts (posts w) w1).
  assert (E2 : Widget.step w1
                 (Widget.PostSettled (length (posts w))
                    (inr {| task_id := Some t; data_reply := d |}))
               = run [IfPollingIntervalRef ClearPollingInterval;
                      SetPollingInterval t (userInfo w)] w1').
  { subst w1'. unfold Widget.step.
    replace (posts w1) with
      (posts w ++ [{| post_body := {| message := Some (Widget.default_inputValue w arg);
                                      thread_id := threadId w |};
                      post_userInfo := userInfo w |}]) by (rewrite E1; reflexivity).
    rewrite nth_error_snoc, remove_nth_snoc. cbn [post_userInfo].
    now rewrite WidgetFacts.widget_submit_success. }
  assert (Ht' : single_timer w1').
  { apply (single_timer_frame w); try (subst w1'; rewrite E1; reflexivity). exact Ht. }
  destruct (install_single_timer t (userInfo w) w1' Ht') as (_ & Ei & _).
  destruct (start_poll_fields t (userInfo w) w1') as (_ & _ & Eg & _).
  rewrite E2. split.
  - rewrite Ei. subst w1'. rewrite E1. reflexivity.
  - rewrite Eg. subst w1'. rewrite E1. reflexivity.
Qed.

Lemma closure_round : forall h idx t u w r,
  polling_closure h idx t u w ->
  Widget.steps w [Widget.Tick h; Widget.GetSettled idx r]
  = perform (Widget.pollCallback_resume u r) w.
Proof.
  intros h idx t u w r [Ei Eg].
  unfold Widget.steps. cbn [fold_left]. unfold Widget.step at 2.
  rewrite Ei. unfold find_interval. cbn [find handle]. rewrite N.eqb_refl.
  cbn [iv_userInfo iv_task].
  set (w1 := perform (Widget.pollCallback u t) w).
  assert (Eg1 : gets w1 = gets w ++ [{| get_task := t; get_userInfo := u |}])
    by reflexivity.
  unfold Widget.step. rewrite Eg1, <- Eg, nth_error_snoc, remove_nth_snoc.
  cbn [get_userInfo]. f_equal. subst w1. destruct w; reflexivity.
Qed.

Lemma interlude_keeps_closure : forall h idx t u i w,
  polling_closure h idx t u w ->
  polling_closure h idx t u (Widget.steps w (interlude_events h idx i)).
Proof.
  intros h idx t u i w Hp. destruct i as [form res|nm em].
  - cbn [interlude_events]. rewrite (closure_round h idx t u w _ Hp).
    rewrite WidgetFacts.widget_poll_pending by reflexivity.
    destruct (Widget.is_contact_info _ && negb (is_some u)); exact Hp.
  - cbn [interlude_events]. unfold Widget.steps. cbn [fold_left].
    unfold Widget.step, Widget.ContactForm_handleSubmit.
    destruct (showContactForm w); [|exact Hp].
    destruct (Js.truthy nm && Js.truthy em); exact Hp.
Qed.

Lemma interludes_keep_closure : forall h idx t u rounds w,
  polling_closure h idx t u w ->
  polling_closure h idx t u (Widget.steps w (flat_map (interlude_events h idx) rounds)).
Proof.
  intros h idx t u rounds. induction rounds as [|i rounds IH]; intros w Hp.
  - exact Hp.
  - cbn [flat_map]. rewrite steps_app. apply IH. now apply interlude_keeps_closure.
Qed.

Lemma signal_raises_flag : forall h idx t w res,
  polling_closure h idx t None w ->
  let w' := Widget.steps w
              [Widget.Tick h;
               Widget.GetSettled idx
                 (inr (pending_response (Some (Js.lit "contact_info")) res))] in
  showContactForm w' = true /\ polling_closure h idx t None w'.
Proof.
  intros h idx t w res Hp w'. subst w'.
  rewrite (closure_round h idx t None w _ Hp).
  rewrite WidgetFacts.widget_poll_pending by reflexivity.
  split; [reflexivity | exact Hp].
Qed.

(** X8. The interval callback tests the [userInfo] of the render that
    sent the message, not the current one.  When a message is sent before
    any contact info is stored and the user then submits the contact form
    while the task is pending, contact info is stored, and yet the next
    status response that carries the form signal without resolving the
    task shows the contact form again. *)
Theorem form_is_shown_again_after_submission :
  forall (w : App) (arg : option jsstring) (taskId : jsstring) (d : option jsstring)
         (before after : list interlude) (res1 res2 : option TaskResult)
         (nm em : jsstring),
    Widget.reachable w ->
    userInfo w = None ->
    send_accepted w (Widget.default_inputValue w arg) ->
    Js.truthy taskId = true ->
    Js.truthy nm = true -> Js.truthy em = true ->
    let h := nextHandle w in
    let idx := length (gets w) in
    let signal := Some (Js.lit "contact_info") in
    let w2 := Widget.step (perform (Widget.handleSendMessage w arg) w)
                (Widget.PostSettled (length (posts w))
                   (inr {| task_id := Some taskId; data_reply := d |})) in
    let w3 := Widget.steps w2
                (flat_map (interlude_events h idx)
                   (before ++ [PollPending signal res1; FillForm nm em] ++ after)) in
    let w4 := Widget.steps w3
                [Widget.Tick h;
                 Widget.GetSettled idx (inr (pending_response signal res2))] in
    is_some (userInfo w3) = true /\ showContactForm w4 = true.
Proof.
  intros w arg taskId d before after res1 res2 nm em Hr Hu Ha Ht Hn He
         h idx signal w2 w3 w4.
  apply WidgetInv.widget_reachable_wf in Hr. destruct Hr as (Hst & _).
  pose proof (send_starts_closure w arg taskId d Hst Ha Ht) as Hp2.
  rewrite Hu in Hp2. fold h idx w2 in Hp2.
  set (wa := Widget.steps w2 (flat_map (interlude_events h idx) before)).
  assert (Hpa : polling_closure h idx taskId None wa)
    by (apply interludes_keep_closure; exact Hp2).
  set (wb := Widget.steps wa (interlude_events h idx (PollPending signal res1))).
  destruct (signal_raises_flag h idx taskId wa res1 Hpa) as [Hfb Hpb].
  fold wb in Hfb, Hpb.
  set (wc := Widget.steps wb (interlude_events h idx (FillForm nm em))).
  assert (Ec : wc = perform (Widget.handleFormSubmit {| name := nm; email := em |}) wb).
  { subst wc. cbn [interlude_events]. unfold Widget.steps. cbn [fold_left].
    unfold Widget.step, Widget.ContactForm_handleSubmit.
    assert (Hfb' : showContactForm wb = true) by exact Hfb.
    now rewrite Hfb', Hn, He. }
  assert (Hpc : polling_closure h idx taskId None wc)
    by (apply interlude_keeps_closure; exact Hpb).
  assert (Huc : is_some (userInfo wc) = true) by (rewrite Ec; reflexivity).
  assert (E3 : w3 = Widget.steps wc (flat_map (interlude_events h idx) after)).
  { subst w3 wc wb wa. rewrite !flat_map_app, !steps_app. cbn [flat_map].
    rewrite app_nil_r. reflexivity. }
  assert (Hp3 : polling_closure h idx taskId None w3)
    by (rewrite E3; apply interludes_keep_closure; exact Hpc).
  split.
  - rewrite E3. revert Huc.
    apply (steps_by_moves (fun s => is_some (userInfo s) = true)).
    intros w0 w' Hm. apply (move_contact w0 w' Hm).
  - apply (signal_raises_flag h idx taskId w3 res2 Hp3).
Qed.

Lemma form_is_shown_again_after_submission_witness :
  Widget.reachable (Widget.mount 0) /\
  userInfo (Widget.mount 0) = None /\
  send_accepted (Widget.mount 0) Example.hi /\
  Js.truthy Example.t1 = true /\
  Js.truthy (name Example.ada) = true /\ Js.truthy (email Example.ada) = true /\
  showContactForm
    (Widget.steps
       (Widget.steps
          (Widget.step (perform (Widget.handleSendMessage (Widget.mount 0) (Some Example.hi))
                                (Widget.mount 0))
                       (Widget.PostSettled 0
                          (inr {| task_id := Some Example.t1; data_reply := None |})))
          (flat_map (interlude_events 1 0)
             ([] ++ [PollPending Example.contact_info None;
                     FillForm (name Example.ada) (email Example.ada)] ++ [])))
       [Widget.Tick 1;
        Widget.GetSettled 0 (inr (pending_response Example.contact_info None))])
  = true.
Proof.
  assert (Hr : Widget.reachable (Widget.mount 0)) by constructor.
  assert (Hu : userInfo (Widget.mount 0) = None) by reflexivity.
  assert (Ha : send_accepted (Widget.mount 0) Example.hi).
  { split; [discriminate | split; reflexivity]. }
  assert (Ht : Js.truthy Example.t1 = true) by reflexivity.
  assert (Hn : Js.truthy (name Example.ada) = true) by reflexivity.
  assert (He : Js.truthy (email Example.ada) = true) by reflexivity.
  split; [exact Hr | split; [exact Hu | split; [exact Ha | split; [exact Ht |
    split; [exact Hn | split; [exact He|]]]]]].
  exact (proj2 (form_is_shown_again_after_submission
                  (Widget.mount 0) (Some Example.hi) Example.t1 None [] [] None None
                  (name Example.ada) (email Example.ada) Hr Hu Ha Ht Hn He)).
Defined.

(** ** The cleanup at unmount *)

Lemma guarded_clear_empties : forall w,
  single_timer w ->
  intervals (exec (IfPollingIntervalRef ClearPollingInterval) w) = [].
Proof.
  intros w (Hl & Hin & Hh & Hn). simpl.
  destruct (pollingIntervalRef w) as [h|] eqn:Er; simpl.
  - destruct (N.eqb h 0) eqn:E0; simpl.
    + apply N.eqb_eq in E0. specialize (Hh h eq_refl). lia.
    + apply filter_none. intros i Hi. specialize (Hin i Hi).
      injection Hin as ->. now rewrite N.eqb_refl.
  - destruct (intervals w) as [|i l]; [reflexivity|].
    specialize (Hin i (or_introl eq_refl)). congruence.
Qed.

Lemma reachable_single_timer : forall w,
  Widget.reachable w \/ PollingApp.reachable w -> single_timer w.
Proof.
  intros w [Hr|Hr];
    [apply WidgetInv.widget_reachable_wf in Hr
    | apply PollingAppInv.polling_reachable_wf in Hr]; apply Hr.
Qed.

(** X9. The cleanup that the mount effect of the two polling components
    returns cancels the poll: run in any reachable state it leaves no
    interval active.  It cancels nothing else: the transcript, [isLoading]
    and the pending submit and status requests are as before. *)
Theorem unmount_cancels_the_poll :
  forall w, Widget.reachable w \/ PollingApp.reachable w ->
    let w' := perform unmountCleanup w in
    intervals w' = [] /\
    messages w' = messages w /\ isLoading w' = isLoading w /\
    posts w' = posts w /\ gets w' = gets w /\
    forall h, Widget.step w' (Widget.Tick h) = w'.
Proof.
  intros w Hr w'. apply reachable_single_timer in Hr.
  assert (Ei : intervals w' = []) by (apply guarded_clear_empties; exact Hr).
  split; [exact Ei|].
  assert (Ef : messages w' = messages w /\ isLoading w' = isLoading w /\
               posts w' = posts w /\ gets w' = gets w).
  { subst w'. cbn. destruct (ref_truthy (pollingIntervalRef w)); repeat split. }
  destruct Ef as (E1 & E2 & E3 & E4). repeat (split; [assumption|]).
  intro h. unfold Widget.step. now rewrite Ei.
Qed.

Lemma unmount_cancels_the_poll_witness :
  (Widget.reachable Example.polling \/ PollingApp.reachable Example.polling) /\
  intervals Example.polling <> [] /\
  intervals (perform unmountCleanup Example.polling) = [].
Proof.
  assert (H : Widget.reachable Example.polling \/ PollingApp.reachable Example.polling)
    by (left; exact example_polling_reachable).
  split; [exact H | split; [discriminate|]].
  exact (proj1 (unmount_cancels_the_poll Example.polling H)).
Defined.

(** X10. The cleanup does not cover a submit that is still in flight.
    When the component unmounts in a reachable state and a submit response
    with a task id arrives afterwards, the continuation of
    [handleSendMessage] calls [pollForResult] all the same: an interval is
    registered after the cleanup has run, and each of its ticks issues a
    status request. *)
Theorem submit_settled_after_unmount_starts_a_poll :
  forall w u t d,
    Widget.reachable w \/ PollingApp.reachable w ->
    Js.truthy t = true ->
    let unmounted := perform unmountCleanup w in
    let ok := inr {| task_id := Some t; data_reply := d |} in
    let w1 := perform (Widget.handleSendMessage_resume u ok) unmounted in
    let w2 := perform (PollingApp.handleSendMessage_resume ok) unmounted in
    intervals unmounted = [] /\
    intervals w1 = [{| handle := nextHandle w; iv_task := t; iv_userInfo := u |}] /\
    intervals w2 = [{| handle := nextHandle w; iv_task := t; iv_userInfo := None |}] /\
    gets (Widget.step w1 (Widget.Tick (nextHandle w)))
    = gets w ++ [{| get_task := t; get_userInfo := u |}].
Proof.
  intros w u t d Hr Ht unmounted ok w1 w2.
  apply reachable_single_timer in Hr.
  assert (Hu : single_timer unmounted).
  { subst unmounted. apply exec_single_timer; [reflexivity | exact Hr]. }
  assert (En : nextHandle unmounted = nextHandle w).
  { subst unmounted. cbn. now destruct (ref_truthy (pollingIntervalRef w)). }
  assert (Eg : gets unmounted = gets w).
  { subst unmounted. cbn. now destruct (ref_truthy (pollingIntervalRef w)). }
  assert (E1 : w1 = run [IfPollingIntervalRef ClearPollingInterval;
                         SetPollingInterval t u] unmounted).
  { subst w1 ok. now rewrite WidgetFacts.widget_submit_success. }
  assert (E2 : w2 = run [IfPollingIntervalRef ClearPollingInterval;
                         SetPollingInterval t None] unmounted).
  { subst w2 ok. now rewrite PollingAppInv.polling_submit_success. }
  destruct (install_single_timer t u unmounted Hu) as (_ & Ei1 & _).
  destruct (install_single_timer t None unmounted Hu) as (_ & Ei2 & _).
  destruct (start_poll_fields t u unmounted) as (_ & _ & Eg1 & _).
  rewrite <- E1 in Ei1, Eg1. rewrite <- E2 in Ei2. rewrite En in Ei1, Ei2.
  split; [apply guarded_clear_empties; exact Hr|].
  split; [exact Ei1 | split; [exact Ei2|]].
  unfold Widget.step. rewrite Ei1. unfold find_interval. cbn [find handle].
  rewrite N.eqb_refl. cbn. now rewrite Eg1, Eg.
Qed.

Lemma submit_settled_after_unmount_starts_a_poll_witness :
  (Widget.reachable (Widget.steps (Widget.mount 0) [Widget.Change Example.hi; Widget.ClickSend])
   \/ PollingApp.reachable
        (Widget.steps (Widget.mount 0) [Widget.Change Example.hi; Widget.ClickSend])) /\
  Js.truthy Example.t1 = true /\
  intervals
    (perform (Widget.handleSendMessage_resume None
                (inr {| task_id := Some Example.t1; data_reply := None |}))
       (perform unmountCleanup
          (Widget.steps (Widget.mount 0) [Widget.Change Example.hi; Widget.ClickSend])))
  = [{| handle := 1; iv_task := Example.t1; iv_userInfo := None |}].
Proof.
  assert (H : Widget.reachable
                (Widget.steps (Widget.mount 0) [Widget.Change Example.hi; Widget.ClickSend])
              \/ PollingApp.reachable
                   (Widget.steps (Widget.mount 0)
                      [Widget.Change Example.hi; Widget.ClickSend])).
  { left. apply WidgetInv.widget_steps_reachable. constructor. }
  assert (Ht : Js.truthy Example.t1 = true) by reflexivity.
  split; [exact H | split; [exact Ht|]].
  exact (proj1 (proj2 (submit_settled_after_unmount_starts_a_poll
                         _ None Example.t1 None H Ht))).
Defined.

(** ** Status responses are not matched to the turn *)

(** X11. A status response resolves whatever turn is current.  When a
    status request of an earlier poll is still pending (the interval fires
    every 2.5 s whether or not the previous request was answered) and the
    user sends a new message, a resolving answer to that old request
    replaces the new placeholder by its own outcome and clears [isLoading]
    while the new submit is still pending. *)
Theorem late_answer_resolves_the_new_turn :
  forall w arg k g r,
    let messageText := Widget.default_inputValue w arg in
    send_accepted w messageText ->
    nth_error (gets w) k = Some g ->
    resolving r = true ->
    let w1 := perform (Widget.handleSendMessage w arg) w in
    let w2 := Widget.step w1 (Widget.GetSettled k r) in
    messages w2 = messages w ++ [plain user messageText; resolution_message r] /\
    isLoading w2 = false /\
    posts w2
    = posts w ++ [{| post_body := {| message := Some messageText; thread_id := threadId w |};
                     post_userInfo := userInfo w |}].
Proof.
  intros w arg k g r messageText Ha Hk Hr w1 w2.
  assert (E1 : w1 = run (send_script w messageText) w).
  { subst w1. unfold perform. now rewrite (accepted_send_script w arg Ha). }
  assert (E2 : w2 = resolved (resolution_message r)
                      (with_gets (remove_nth k (gets w)) w1)).
  { subst w2. unfold Widget.step.
    replace (gets w1) with (gets w) by (rewrite E1; reflexivity).
    rewrite Hk. now rewrite WidgetFacts.widget_poll_resolution. }
  rewrite E2, E1. cbn. rewrite slice_snoc, <- app_assoc. repeat split.
Qed.

Lemma late_answer_resolves_the_new_turn_witness :
  Widget.reachable (Widget.step late_answer_pending (Widget.Change Example.hi)) /\
  send_accepted (Widget.step late_answer_pending (Widget.Change Example.hi)) Example.hi /\
  isLoading
    (Widget.step
       (perform (Widget.handleSendMessage
                   (Widget.step late_answer_pending (Widget.Change Example.hi)) None)
                (Widget.step late_answer_pending (Widget.Change Example.hi)))
       (Widget.GetSettled 0 (inr (Example.completed Example.X)))) = false.
Proof.
  assert (Hr : Widget.reachable (Widget.step late_answer_pending (Widget.Change Example.hi))).
  { constructor. apply WidgetInv.widget_steps_reachable, example_polling_reachable. }
  assert (Ha : send_accepted (Widget.step late_answer_pending (Widget.Change Example.hi))
                             Example.hi).
  { split; [discriminate | split; reflexivity]. }
  split; [exact Hr | split; [exact Ha|]].
  exact (proj1 (proj2 (late_answer_resolves_the_new_turn
                         (Widget.step late_answer_pending (Widget.Change Example.hi))
                         None 0%nat _ (inr (Example.completed Example.X))
                         Ha eq_refl eq_refl))).
Defined.

(** ** Ticks do not wait for answers *)

Lemma tick_issues_request : forall h idx t u w,
  polling_closure h idx t u w ->
  Widget.step w (Widget.Tick h)
  = exec (AxiosGet t u) w /\
  polling_closure h (S idx) t u (Widget.step w (Widget.Tick h)).
Proof.
  intros h idx t u w [Ei Eg].
  assert (E : Widget.step w (Widget.Tick h) = exec (AxiosGet t u) w).
  { unfold Widget.step. rewrite Ei. unfold find_interval. cbn [find handle].
    now rewrite N.eqb_refl. }
  split; [exact E|]. rewrite E. split; [exact Ei|].
  cbn. rewrite length_app, Eg. simpl. lia.
Qed.

(** X12. The poll does not wait for an answer before asking again: while
    an interval is active, [n] ticks in a row issue [n] status requests
    for the same task id, all pending at the same time, and change nothing
    else. *)
Theorem ticks_pile_up_requests :
  forall n h idx t u w,
    polling_closure h idx t u w ->
    let w' := Widget.steps w (repeat (Widget.Tick h) n) in
    gets w' = gets w ++ repeat {| get_task := t; get_userInfo := u |} n /\
    messages w' = messages w /\ isLoading w' = isLoading w /\
    intervals w' = intervals w /\ posts w' = posts w.
Proof.
  induction n as [|n IH]; intros h idx t u w Hp.
  - cbn. rewrite app_nil_r. repeat split.
  - cbn [repeat]. cbv zeta.
    change (Widget.steps w (Widget.Tick h :: repeat (Widget.Tick h) n))
      with (Widget.steps (Widget.step w (Widget.Tick h)) (repeat (Widget.Tick h) n)).
    destruct (tick_issues_request h idx t u w Hp) as [E Hp'].
    destruct (IH h (S idx) t u _ Hp') as (Eg & Em & El & Ei & Ep).
    rewrite Eg, Em, El, Ei, Ep, E. cbn.
    rewrite <- app_assoc. repeat split.
Qed.

Lemma ticks_pile_up_requests_witness :
  polling_closure 1 1 Example.t1 None Example.polling /\
  length (gets (Widget.steps Example.polling (repeat (Widget.Tick 1) 3))) = 4%nat.
Proof.
  assert (Hp : polling_closure 1 1 Example.t1 None Example.polling)
    by (split; reflexivity).
  split; [exact Hp|].
  rewrite (proj1 (ticks_pile_up_requests 3 1 1%nat Example.t1 None Example.polling Hp)).
  reflexivity.
Defined.

(** ** The request/response component *)

Lemma length_one : forall (A : Type) (l : list A), length l = 1%nat -> exists x, l = [x].
Proof. intros A [|x [|y l]] H; try discriminate. now exists x. Qed.

Lemma simple_send_cases : forall w,
  perform (SimpleApp.sendMessage w) w = w \/
  (send_accepted w (inputValue w) /\
   perform (SimpleApp.sendMessage w) w
   = run [ SetMessages (Append [plain user (inputValue w); SimpleApp.dots]);
           SetIsLoading true; SetInputValue [];
           AxiosPost {| message := Some (inputValue w); thread_id := threadId w |} None ] w).
Proof.
  intro w. unfold perform, SimpleApp.sendMessage.
  destruct (guard_cases w (inputValue w)) as [H|H].
  - left. now rewrite H.
  - right. split; [exact H|]. now rewrite (accepted_guard w _ H).
Qed.

Lemma simple_send_inv : forall w,
  simple_inv w -> isLoading w = false -> simple_inv (perform (SimpleApp.sendMessage w) w).
Proof.
  intros w Hi Hl. destruct (simple_send_cases w) as [E|[_ E]]; rewrite E; [exact Hi|].
  destruct Hi as (Hiv & Hg & [(_ & Hp & Hm)|(Hl' & _)]); [|congruence].
  split; [exact Hiv | split; [exact Hg|]]. right. cbn. rewrite Hp.
  split; [reflexivity | split; [reflexivity|]].
  exists (messages w ++ [plain user (inputValue w)]). split.
  - now rewrite <- app_assoc.
  - rewrite forallb_app, Hm. reflexivity.
Qed.

Lemma simple_outcome_settled : forall r,
  type (simple_outcome r) = bot /\ msgIsLoading (simple_outcome r) = false.
Proof. intros [e|a]; split; reflexivity. Qed.

Lemma simple_step_inv : forall w e, simple_inv w -> simple_inv (SimpleApp.step w e).
Proof.
  intros w e Hi. destruct e as [v| |key|k r]; unfold SimpleApp.step.
  - destruct (isLoading w); exact Hi.
  - destruct (isLoading w) eqn:El; [exact Hi | now apply simple_send_inv].
  - destruct (isLoading w) eqn:El; [exact Hi|].
    destruct (Js.eqb key (Js.lit "Enter")); [now apply simple_send_inv | exact Hi].
  - destruct (nth_error (posts w) k) as [p|] eqn:Ek; [|exact Hi].
    rewrite SimpleAppInv.simple_settle_effect.
    destruct Hi as (Hiv & Hg & [(_ & Hp & _)|(_ & Hp & pre & Hm & Hpre)]).
    + rewrite Hp in Ek. destruct k; discriminate.
    + destruct (length_one _ _ Hp) as [q Hq]. rewrite Hq in Ek.
      destruct k as [|k]; [|destruct k; discriminate].
      split; [exact Hiv | split; [exact Hg|]]. left. cbn. rewrite Hq, Hm.
      split; [reflexivity | split; [reflexivity|]].
      unfold Js.slice_0_m1. rewrite removelast_last, forallb_app, Hpre. cbn.
      now destruct r.
Qed.

Lemma simple_reachable_inv : forall w, SimpleApp.reachable w -> simple_inv w.
Proof.
  intros w Hr. induction Hr as [token | w e _ IH].
  - split; [reflexivity | split; [reflexivity|]]. left. repeat split.
  - now apply simple_step_inv.
Qed.

(** X13. The request/response component of [App.js] is single-flight and
    uses no timer.  In every reachable state no interval is active and no
    status request is pending, and either the component is idle, with no
    submit pending and no loading bubble anywhere in the transcript, or it
    is loading, with exactly one submit pending and the loading bubble as
    the last entry of the transcript and nowhere else. *)
Theorem simple_app_is_single_flight :
  forall w, SimpleApp.reachable w ->
    intervals w = [] /\ gets w = [] /\
    ((isLoading w = false /\ posts w = [] /\
      forallb (fun m => negb (msgIsLoading m)) (messages w) = true) \/
     (isLoading w = true /\ length (posts w) = 1%nat /\
      exists pre, messages w = pre ++ [SimpleApp.dots] /\
                  forallb (fun m => negb (msgIsLoading m)) pre = true)).
Proof. exact simple_reachable_inv. Qed.

Lemma simple_sending_reachable : SimpleApp.reachable Example.simple_sending.
Proof.
  unfold Example.simple_sending, SimpleApp.steps. cbn [fold_left].
  repeat constructor.
Qed.

Lemma simple_app_is_single_flight_witness :
  SimpleApp.reachable Example.simple_sending /\
  intervals Example.simple_sending = [] /\ gets Example.simple_sending = [].
Proof.
  pose proof simple_sending_reachable as Hr.
  split; [exact Hr|].
  destruct (simple_app_is_single_flight Example.simple_sending Hr) as (H1 & H2 & _).
  split; [exact H1 | exact H2].
Defined.

(** X14. A turn of the request/response component.  From a reachable idle
    state, clicking Send with an input that is not blank appends the user
    message and the loading bubble; until the submit settles no event
    changes the state; and when it settles, the bubble is replaced by the
    reply of the response (fulfilled) or by an error entry with the text
    chosen from the error (rejected), [isLoading] is false again and no
    request is pending. *)
Theorem simple_app_turn :
  forall w r es,
    SimpleApp.reachable w ->
    send_accepted w (inputValue w) ->
    existsb (fun e => match e with SimpleApp.PostSettled _ _ => true | _ => false end) es
    = false ->
    let w1 := SimpleApp.step w SimpleApp.ClickSend in
    let w2 := SimpleApp.step (SimpleApp.steps w1 es) (SimpleApp.PostSettled 0 r) in
    messages w1 = messages w ++ [plain user (inputValue w); SimpleApp.dots] /\
    SimpleApp.steps w1 es = w1 /\
    messages w2 = messages w ++ [plain user (inputValue w); simple_outcome r] /\
    isLoading w2 = false /\ posts w2 = [] /\ inputValue w2 = [].
Proof.
  intros w r es Hr Ha Hes w1 w2.
  pose proof Ha as (_ & Hl & _).
  destruct (simple_reachable_inv w Hr) as (_ & _ & [(_ & Hp & _)|(Hl' & _)]);
    [|congruence].
  assert (E1 : w1 = run [ SetMessages (Append [plain user (inputValue w); SimpleApp.dots]);
                          SetIsLoading true; SetInputValue [];
                          AxiosPost {| message := Some (inputValue w);
                                       thread_id := threadId w |} None ] w).
  { subst w1. unfold SimpleApp.step. rewrite Hl.
    unfold perform, SimpleApp.sendMessage. now rewrite (accepted_guard w _ Ha). }
  assert (Eq : SimpleApp.steps w1 es = w1).
  { assert (El1 : isLoading w1 = true) by (rewrite E1; reflexivity).
    clear w2. induction es as [|e es IH]; [reflexivity|].
    cbn [existsb] in Hes. apply orb_false_iff in Hes. destruct Hes as [He Hes].
    change (SimpleApp.steps w1 (e :: es))
      with (SimpleApp.steps (SimpleApp.step w1 e) es).
    replace (SimpleApp.step w1 e) with w1; [now apply IH|].
    destruct e as [v| |key|k r']; unfold SimpleApp.step;
      try discriminate; now rewrite El1. }
  split; [rewrite E1; reflexivity | split; [exact Eq|]].
  subst w2. rewrite Eq. unfold SimpleApp.step.
  replace (posts w1) with
    [{| post_body := {| message := Some (inputValue w); thread_id := threadId w |};
        post_userInfo := None |}] by (rewrite E1; cbn; now rewrite Hp).
  cbn [nth_error]. rewrite SimpleAppInv.simple_settle_effect.
  fold (simple_outcome r). rewrite E1. cbn.
  rewrite slice_snoc, <- app_assoc. repeat split.
Qed.

Lemma simple_app_turn_witness :
  SimpleApp.reachable
    (SimpleApp.step (SimpleApp.mount (Js.lit "k3j9x0q2a")) (SimpleApp.Change Example.hi)) /\
  send_accepted
    (SimpleApp.step (SimpleApp.mount (Js.lit "k3j9x0q2a")) (SimpleApp.Change Example.hi))
    Example.hi /\
  isLoading
    (SimpleApp.step
       (SimpleApp.steps
          (SimpleApp.step
             (SimpleApp.step (SimpleApp.mount (Js.lit "k3j9x0q2a"))
                             (SimpleApp.Change Example.hi))
             SimpleApp.ClickSend)
          [SimpleApp.ClickSend])
       (SimpleApp.PostSettled 0 Example.network_down)) = false.
Proof.
  assert (Hr : SimpleApp.reachable
                 (SimpleApp.step (SimpleApp.mount (Js.lit "k3j9x0q2a"))
                                 (SimpleApp.Change Example.hi)))
    by repeat constructor.
  assert (Ha : send_accepted
                 (SimpleApp.step (SimpleApp.mount (Js.lit "k3j9x0q2a"))
                                 (SimpleApp.Change Example.hi)) Example.hi).
  { split; [discriminate | split; reflexivity]. }
  split; [exact Hr | split; [exact Ha|]].
  exact (proj1 (proj2 (proj2 (proj2
    (simple_app_turn _ Example.network_down [SimpleApp.ClickSend] Hr Ha eq_refl))))).
Defined.

Lemma includes_middle : forall a t b, Js.includes (a ++ t ++ b) t = true.
Proof.
  induction a as [|x a IH]; intros t b.
  - simpl app. destruct (t ++ b) eqn:E; simpl.
    + destruct t; [reflexivity | discriminate].
    + rewrite <- E, startsWith_app. reflexivity.
  - simpl. rewrite IH. apply orb_true_r.
Qed.

(** X15. How the request/response component words a failed submit.  A
    timeout (code [ECONNABORTED], or a message that mentions [timeout])
    wins over everything else, then a network error (code [ERR_NETWORK]);
    only then is an answer of the server reported, as
    ["Server Error (<status>): <detail>"], a text that contains the decimal
    status and the server's detail when it sent one, and
    ["No further details."] in its place otherwise; anything else gets the
    generic text.  The text is never empty. *)
Theorem simple_error_text_cases :
  forall e,
    (looks_like_timeout e = true ->
     SimpleApp.errorText e
     = Js.lit "The server is taking too long to respond. Please try again later.") /\
    (looks_like_timeout e = false -> has_code e (Js.lit "ERR_NETWORK") = true ->
     SimpleApp.errorText e
     = Js.lit "Unable to connect to the server. Please check if the backend is running and your internet connection.") /\
    (looks_like_timeout e = false -> has_code e (Js.lit "ERR_NETWORK") = false ->
     (forall r, exn_response e = Some r ->
        SimpleApp.errorText e
        = Js.lit "Server Error (" ++ Js.of_N (err_status r) ++ Js.lit "): "
            ++ Js.or_else (detail r) (Js.lit "No further details.") /\
        Js.includes (SimpleApp.errorText e) (Js.of_N (err_status r)) = true /\
        (forall s, detail r = Some s -> Js.includes (SimpleApp.errorText e) s = true) /\
        (Js.truthy_opt (detail r) = false ->
         Js.includes (SimpleApp.errorText e) (Js.lit "No further details.") = true)) /\
     (exn_response e = None ->
      SimpleApp.errorText e = Js.lit "An unexpected error occurred. Please try again.")) /\
    SimpleApp.errorText e <> [].
Proof.
  intro e.
  assert (E : SimpleApp.errorText e
              = if looks_like_timeout e
                then Js.lit "The server is taking too long to respond. Please try again later."
                else if has_code e (Js.lit "ERR_NETWORK")
                then Js.lit "Unable to connect to the server. Please check if the backend is running and your internet connection."
                else match exn_response e with
                     | Some r =>
                         Js.lit "Server Error (" ++ Js.of_N (err_status r) ++ Js.lit "): "
                           ++ Js.or_else (detail r) (Js.lit "No further details.")
                     | None => Js.lit "An unexpected error occurred. Please try again."
                     end) by reflexivity.
  split; [intros Ht; now rewrite E, Ht|].
  split; [intros Ht Hn; now rewrite E, Ht, Hn|].
  split.
  - intros Ht Hn. split.
    + intros r Hr. rewrite E, Ht, Hn, Hr.
      split; [reflexivity|]. split; [|split].
      * apply includes_middle.
      * intros s Hs. do 3 apply includes_suffix. now apply or_else_contains.
      * intro Hd. do 3 apply includes_suffix.
        destruct (detail r) as [s|]; [|reflexivity].
        unfold Js.truthy_opt in Hd. unfold Js.or_else. rewrite Hd. reflexivity.
    + intros Hr. now rewrite E, Ht, Hn, Hr.
  - rewrite E. destruct (looks_like_timeout e); [discriminate|].
    destruct (has_code e (Js.lit "ERR_NETWORK")); [discriminate|].
    destruct (exn_response e); discriminate.
Qed.

Lemma simple_error_text_cases_witness :
  looks_like_timeout
    (AxiosError (Some (Js.lit "ERR_BAD_RESPONSE"))
                (Js.lit "Request failed with status code 500")
                (Some {| err_status := 500; detail := Some (Js.lit "boom") |})) = false /\
  SimpleApp.errorText
    (AxiosError (Some (Js.lit "ERR_BAD_RESPONSE"))
                (Js.lit "Request failed with status code 500")
                (Some {| err_status := 500; detail := Some (Js.lit "boom") |}))
  = Js.lit "Server Error (500): boom".
Proof.
  split; [reflexivity|].
  exact (proj1 (proj1 (proj1 (proj2 (proj2
    (simple_error_text_cases
       (AxiosError (Some (Js.lit "ERR_BAD_RESPONSE"))
                   (Js.lit "Request failed with status code 500")
                   (Some {| err_status := 500; detail := Some (Js.lit "boom") |})))))
    eq_refl eq_refl) _ eq_refl)).
Defined.

(** ** The polling component is the widget without its form *)

Lemma formless_frame : forall w w',
  formless w ->
  showContactForm w' = showContactForm w -> userInfo w' = userInfo w ->
  suggestedReplies w' = suggestedReplies w ->
  (forall i, In i (intervals w') -> In i (intervals w) \/ iv_userInfo i = None) ->
  (forall p, In p (posts w') -> In p (posts w) \/ post_userInfo p = None) ->
  (forall g, In g (gets w') -> In g (gets w) \/ get_userInfo g = None) ->
  formless w'.
Proof.
  intros w w' (Hf & Hu & Hs & Hi & Hp & Hg) Ef Eu Es Ei Ep Eg.
  unfold formless. rewrite Ef, Eu, Es.
  repeat (split; [assumption|]). repeat split.
  - intros i Hin. destruct (Ei i Hin); auto.
  - intros p Hin. destruct (Ep p Hin); auto.
  - intros g Hin. destruct (Eg g Hin); auto.
Qed.

Lemma formless_send : forall w,
  formless w ->
  perform (PollingApp.handleSendMessage w) w = perform (Widget.handleSendMessage w None) w /\
  formless (perform (PollingApp.handleSendMessage w) w).
Proof.
  intros w Hw. pose proof Hw as (Hf & Hu & Hs & _).
  unfold perform, PollingApp.handleSendMessage, Widget.handleSendMessage.
  cbv zeta. cbn [Widget.default_inputValue].
  destruct (guard_cases w (inputValue w)) as [H|H].
  - rewrite H. split; [reflexivity | exact Hw].
  - rewrite (accepted_guard w _ H). split.
    + cbn. now rewrite Hs, Hu.
    + apply (formless_frame w); try reflexivity; try exact Hw; cbn; auto.
      intros p Hin. apply in_app_or in Hin. destruct Hin as [Hin|[<-|[]]]; auto.
Qed.

Lemma formless_step : forall w e,
  formless w -> no_form_signal e = true ->
  PollingApp.step w e = Widget.step w (as_widget_event e) /\
  formless (PollingApp.step w e).
Proof.
  intros w e Hw Hn. pose proof Hw as (Hf & Hu & Hs & Hi & Hp & Hg).
  destruct e as [v| |key|h|k r|k r]; cbn [as_widget_event];
    unfold PollingApp.step, Widget.step.
  - split; [reflexivity|]. destruct (isLoading w); exact Hw.
  - destruct (isLoading w); [split; [reflexivity | exact Hw]|].
    now apply formless_send.
  - destruct (isLoading w) eqn:El; [split; [reflexivity | exact Hw]|].
    unfold PollingApp.handleKeyPress, Widget.handleKeyPress. rewrite El.
    destruct (Js.eqb key (Js.lit "Enter") && negb false).
    + now apply formless_send.
    + split; [reflexivity | exact Hw].
  - destruct (find_interval h (intervals w)) as [i|] eqn:E;
      [|split; [reflexivity | exact Hw]].
    apply find_interval_In in E. destruct E as [Hin _].
    rewrite (Hi i Hin). split; [reflexivity|].
    apply (formless_frame w); try reflexivity; try exact Hw; cbn; auto.
    intros g Hing. apply in_app_or in Hing. destruct Hing as [Hing|[<-|[]]]; auto.
  - destruct (nth_error (posts w) k) as [p|] eqn:E;
      [|split; [reflexivity | exact Hw]].
    rewrite (Hp p (nth_error_In _ _ E)).
    set (w0 := with_posts (remove_nth k (posts w)) w).
    assert (Hw0 : formless w0).
    { apply (formless_frame w); try reflexivity; try exact Hw; cbn; auto.
      intros q Hq. left. eapply nth_error_remove_nth_In; eauto. }
    destruct (submit_fails r) eqn:Ef.
    + rewrite PollingAppInv.polling_submit_failure,
              WidgetFacts.widget_submit_failure by assumption.
      split; [reflexivity|].
      apply (formless_frame w0); try reflexivity; try exact Hw0; cbn; auto.
    + destruct (submit_succeeds r Ef) as (t & d & -> & Ht).
      rewrite PollingAppInv.polling_submit_success,
              WidgetFacts.widget_submit_success by assumption.
      split; [reflexivity|].
      destruct (start_poll_fields t None w0)
        as (_ & _ & Eg & Ep & Es' & Eu' & _ & Esu & l & El & Hl).
      apply (formless_frame w0); try assumption.
      * intros i Hin. rewrite El in Hin. apply in_app_or in Hin.
        destruct Hin as [Hin|[<-|[]]]; [left; now apply Hl | right; reflexivity].
      * intros q Hq. left. now rewrite Ep in Hq.
      * intros g Hq. left. now rewrite Eg in Hq.
  - destruct (nth_error (gets w) k) as [g|] eqn:E;
      [|split; [reflexivity | exact Hw]].
    set (w0 := with_gets (remove_nth k (gets w)) w).
    assert (Hw0 : formless w0).
    { apply (formless_frame w); try reflexivity; try exact Hw; cbn; auto.
      intros q Hq. left. eapply nth_error_remove_nth_In; eauto. }
    destruct (resolving r) eqn:Er.
    + rewrite PollingAppInv.polling_poll_resolution,
              WidgetFacts.widget_poll_resolution by assumption.
      split.
      * unfold resolved. cbn. now rewrite Hf.
      * apply (formless_frame w0); try reflexivity; try exact Hw0; cbn; auto.
        intros i Hin. left. eapply clearInterval_In; eauto.
    + destruct r as [e|a]; [discriminate|].
      rewrite PollingAppInv.polling_poll_pending,
              WidgetFacts.widget_poll_pending by assumption.
      cbn in Hn. apply negb_true_iff in Hn. rewrite Hn. cbn [andb].
      split; [reflexivity | exact Hw0].
Qed.

(** X16. The polling component of [App.js] is the widget with contact
    form with the form switched off.  From any state without contact
    form, contact info and suggestions (the state of the polling component
    after its mount effect is one), and as long as no status response asks
    for the contact form, every event takes the two components to the same
    state: the runs of the polling component are runs of the widget. *)
Theorem polling_app_is_the_widget_without_form :
  (forall now, formless (PollingApp.mount now)) /\
  (forall es w,
     formless w -> forallb no_form_signal es = true ->
     PollingApp.steps w es = Widget.steps w (map as_widget_event es) /\
     formless (PollingApp.steps w es)).
Proof.
  split.
  - intro now. repeat split; intros ? [].
  - induction es as [|e es IH]; intros w Hw Hes.
    + split; [reflexivity | exact Hw].
    + cbn [forallb] in Hes. apply andb_true_iff in Hes. destruct Hes as [He Hes].
      destruct (formless_step w e Hw He) as [E Hw'].
      cbn [map]. unfold PollingApp.steps, Widget.steps. cbn [fold_left].
      rewrite <- E. apply (IH _ Hw' Hes).
Qed.

Lemma polling_app_is_the_widget_without_form_witness :
  formless (PollingApp.mount 0) /\
  PollingApp.steps (PollingApp.mount 0)
    [ PollingApp.Change Example.hi; PollingApp.ClickSend;
      PollingApp.PostSettled 0 Example.submit_ok; PollingApp.Tick 1;
      PollingApp.GetSettled 0 (inr (Example.completed Example.X)) ]
  = Widget.steps (PollingApp.mount 0)
      [ Widget.Change Example.hi; Widget.ClickSend;
        Widget.PostSettled 0 Example.submit_ok; Widget.Tick 1;
        Widget.GetSettled 0 (inr (Example.completed Example.X)) ].
Proof.
  pose proof (proj1 polling_app_is_the_widget_without_form 0%N) as Hf.
  split; [exact Hf|].
  exact (proj1 (proj2 polling_app_is_the_widget_without_form
    [ PollingApp.Change Example.hi; PollingApp.ClickSend;
      PollingApp.PostSettled 0 Example.submit_ok; PollingApp.Tick 1;
      PollingApp.GetSettled 0 (inr (Example.completed Example.X)) ]
    (PollingApp.mount 0) Hf eq_refl)).
Defined.

(** ** A late answer ends the current poll *)

(** X17. A resolving answer cancels the interval the ref holds at that
    moment, whichever poll issued the request and whatever task it was
    for.  When the widget polls a task and any status request is pending,
    in particular one of an earlier task, a resolving answer to that
    request cancels the current interval and clears [isLoading]; no tick
    of the current poll issues a request any more, so the current task is
    not asked about again. *)
Theorem late_answer_ends_the_current_poll :
  forall h idx t u w k g r n,
    Widget.reachable w ->
    polling_closure h idx t u w ->
    nth_error (gets w) k = Some g ->
    resolving r = true ->
    let w' := Widget.step w (Widget.GetSettled k r) in
    intervals w' = [] /\ isLoading w' = false /\
    Widget.steps w' (repeat (Widget.Tick h) n) = w'.
Proof.
  intros h idx t u w k g r n Hr [Ei _] Hk Hres w'.
  apply WidgetInv.widget_reachable_wf in Hr. destruct Hr as ((_ & Hin & _) & _).
  assert (E : w' = resolved (resolution_message r)
                     (with_gets (remove_nth k (gets w)) w)).
  { subst w'. unfold Widget.step. rewrite Hk.
    now rewrite WidgetFacts.widget_poll_resolution. }
  assert (Ei' : intervals w' = []).
  { rewrite E. cbn. now apply clearInterval_own. }
  split; [exact Ei' | split; [rewrite E; reflexivity|]].
  induction n as [|n IH]; [reflexivity|].
  cbn [repeat].
  change (Widget.steps w' (Widget.Tick h :: repeat (Widget.Tick h) n))
    with (Widget.steps (Widget.step w' (Widget.Tick h)) (repeat (Widget.Tick h) n)).
  replace (Widget.step w' (Widget.Tick h)) with w'; [exact IH|].
  unfold Widget.step. now rewrite Ei'.
Qed.

Lemma second_task_polling_reachable : Widget.reachable second_task_polling.
Proof.
  apply WidgetInv.widget_steps_reachable, WidgetInv.widget_steps_reachable.
  exact example_polling_reachable.
Qed.

Lemma late_answer_ends_the_current_poll_witness :
  Widget.reachable second_task_polling /\
  polling_closure 2 1 (Js.lit "t2") None second_task_polling /\
  nth_error (gets second_task_polling) 0
  = Some {| get_task := Example.t1; get_userInfo := None |} /\
  Example.t1 <> Js.lit "t2" /\
  intervals (Widget.step second_task_polling
               (Widget.GetSettled 0 (inr (Example.completed Example.X)))) = [].
Proof.
  pose proof second_task_polling_reachable as Hr.
  assert (Hp : polling_closure 2 1 (Js.lit "t2") None second_task_polling)
    by (split; reflexivity).
  assert (Hk : nth_error (gets second_task_polling) 0
               = Some {| get_task := Example.t1; get_userInfo := None |})
    by reflexivity.
  assert (Hd : Example.t1 <> Js.lit "t2") by discriminate.
  split; [exact Hr | split; [exact Hp | split; [exact Hk | split; [exact Hd|]]]].
  exact (proj1 (late_answer_ends_the_current_poll
                  2 1%nat (Js.lit "t2") None second_task_polling 0%nat _
                  (inr (Example.completed Example.X)) 0%nat Hr Hp Hk eq_refl)).
Defined.
